(** * SMMProject — the human-motion and behavioural-state engine of [stealth.py]

    A shallow embedding of the classes [HumanBehavior],
    [AdvancedMouseSimulator], [AdvancedScrollSimulator] and of the session
    bookkeeping of [StealthBot], followed by the properties of the
    specification that concern them.

    Conventions.
    - Python floats that only go through [+ - * / min max] and comparisons are
      rationals ([Q]); wall-clock instants are rationals counting seconds.
    - The pointer and wheel geometry uses [math.sqrt], [math.sin],
      [math.cos] and [math.atan2]; it is modelled over the real numbers, the
      double-precision rounding of the interpreter being idealised away.
    - Every call of the [random] module is an explicit argument (a "draw").
    - Python exceptions are explicit: fallible code returns [result].
    - The browser page is the outside world: what the code sends to it is
      returned as a list of events, what it answers is an argument. *)

From Stdlib Require Import ZArith QArith Qminmax Qabs List String Ascii Bool Lia Lra Psatz.
From Stdlib Require Import Qround Relations Reals.
Import ListNotations.

Local Open Scope Z_scope.

(** ** Python values, exceptions *)

Inductive pyexc : Type :=
| KeyError
| TypeError
| ValueError
| IndexError
| OSError
| ZeroDivisionError
| JSONDecodeError.

Inductive result (A : Type) : Type :=
| Ok (a : A)
| Raise (e : pyexc).
Arguments Ok {A} a.
Arguments Raise {A} e.

Definition bind {A B : Type} (c : result A) (k : A -> result B) : result B :=
  match c with
  | Ok a => k a
  | Raise e => Raise e
  end.

Notation "x <- c ;; k" := (bind c (fun x => k))
  (at level 61, c at next level, right associativity).

(** [try: c except: h] with a bare [except], which catches everything; the
    handler may raise in turn. *)
Definition try_except {A : Type} (c : result A) (h : pyexc -> result A) : result A :=
  match c with
  | Ok a => Ok a
  | Raise e => h e
  end.

(** The values that flow through the personality and stats dictionaries and
    through [json.load] / [json.dump].  A [dict] is kept as the list of its
    items in insertion order.  [PyIsoStr t] is the [str] that
    [datetime.isoformat] returns for the instant [t]; [PyDatetime t] is the
    [datetime] object itself. *)
#[warnings="-register-all"]
Inductive pyval : Type :=
| PyNone
| PyBool (b : bool)
| PyNum (q : Q)
| PyStr (s : string)
| PyIsoStr (t : Q)
| PyList (l : list pyval)
| PyDict (d : list (string * pyval))
| PyDatetime (t : Q).

Fixpoint dict_get (k : string) (d : list (string * pyval)) : option pyval :=
  match d with
  | [] => None
  | (k', v) :: d' => if String.eqb k k' then Some v else dict_get k d'
  end.

(** [s in t] for two [str]: substring test. *)
Fixpoint substring_at (s t : string) : bool :=
  match s, t with
  | EmptyString, _ => true
  | String _ _, EmptyString => false
  | String a s', String b t' => Ascii.eqb a b && substring_at s' t'
  end.

Fixpoint str_contains (s t : string) : bool :=
  substring_at s t ||
  match t with
  | EmptyString => false
  | String _ t' => str_contains s t'
  end.

Definition is_str (s : string) (v : pyval) : bool :=
  match v with
  | PyStr s' => String.eqb s s'
  | _ => false
  end.

(** [k in v] for a [str] key [k]: key membership for a dict, element
    membership for a list, substring for a str, [TypeError] for a value that
    is not a container. *)
Definition py_contains (k : string) (v : pyval) : result bool :=
  match v with
  | PyDict d => Ok (match dict_get k d with Some _ => true | None => false end)
  | PyList l => Ok (existsb (is_str k) l)
  | PyStr s => Ok (str_contains k s)
  | PyIsoStr _ => Ok false
  | PyNone | PyBool _ | PyNum _ | PyDatetime _ => Raise TypeError
  end.

(** [v[k]] for a [str] key [k]. *)
Definition py_getitem (v : pyval) (k : string) : result pyval :=
  match v with
  | PyDict d => match dict_get k d with Some x => Ok x | None => Raise KeyError end
  | _ => Raise TypeError
  end.

(** The operand of a float multiplication or comparison. *)
Definition py_float (v : pyval) : result Q :=
  match v with
  | PyNum q => Ok q
  | PyBool b => Ok (if b then 1%Q else 0%Q)
  | _ => Raise TypeError
  end.

(** [random.uniform(a, b)] is [a + (b - a) * random.random()]; [u] is the
    value of [random.random()], a float of [[0, 1)]. *)
Definition uniform (a b u : Q) : Q := (a + (b - a) * u)%Q.

Definition unit_draw (u : Q) : Prop := (0 <= u /\ u < 1)%Q.

(** ** class HumanBehavior *)

Module HumanBehavior.

Record t : Type := mk {
  fatigue : Q;
  session_start : Q;
  actions_count : Z;
  personality : pyval
}.

(** The five draws of [__init__], in the order of the dict literal. *)
Record init_draws : Type := mk_draws {
  u_speed : Q;
  u_accuracy : Q;
  u_patience : Q;
  u_curiosity : Q;
  u_focus : Q
}.

Definition sample_personality (r : init_draws) : pyval :=
  PyDict
    [ ("speed"%string, PyNum (uniform (7#10) (13#10) (u_speed r)));
      ("accuracy"%string, PyNum (uniform (85#100) (98#100) (u_accuracy r)));
      ("patience"%string, PyNum (uniform (6#10) (14#10) (u_patience r)));
      ("curiosity"%string, PyNum (uniform (3#10) (8#10) (u_curiosity r)));
      ("focus"%string, PyNum (uniform (7#10) 1 (u_focus r))) ].

(** [__init__]; [mouse_history] and [last_action_time] are written here and
    read nowhere, they are left out. *)
Definition __init__ (now : Q) (r : init_draws) : t :=
  {| fatigue := 0;
     session_start := now;
     actions_count := 0;
     personality := sample_personality r |}.

Definition update_fatigue (now : Q) (b : t) : t :=
  let session_duration := ((now - session_start b) / 60)%Q in
  let time_fatigue := Qmin (session_duration / 60) (5#10) in
  let action_fatigue := Qmin (inject_Z (actions_count b) / 100) (3#10) in
  {| fatigue := Qmin (time_fatigue + action_fatigue) (8#10);
     session_start := session_start b;
     actions_count := actions_count b + 1;
     personality := personality b |}.

(** Draws of [get_adjusted_delay]: [gauss_z] is the standard normal deviate
    behind [random.gauss(mean, std) = mean + gauss_z * std], [think_roll] the
    [random.random()] of the test, [think_u] the one behind
    [random.uniform(2, 4)]. *)
Record delay_draws : Type := mk_delay {
  gauss_z : Q;
  think_roll : Q;
  think_u : Q
}.

Definition get_adjusted_delay (b : t) (base_min base_max : Q) (r : delay_draws)
  : result Q :=
  let mean := ((base_min + base_max) / 2)%Q in
  let std := ((base_max - base_min) / 4)%Q in
  let delay := (mean + gauss_z r * std)%Q in
  sp <- py_getitem (personality b) "speed" ;;
  speed <- py_float sp ;;
  let delay := (delay * speed)%Q in
  let delay := (delay * (1 + fatigue b * (5#10)))%Q in
  let delay :=
    if Qlt_le_dec (think_roll r) (5#100)
    then (delay * uniform 2 4 (think_u r))%Q
    else delay in
  Ok (Qmax (base_min * (5#10)) (Qmin (base_max * 2) delay)).

Definition should_make_mistake (b : t) (roll : Q) : result bool :=
  acc <- py_getitem (personality b) "accuracy" ;;
  accuracy <- py_float acc ;;
  let base_prob := (1 - accuracy)%Q in
  let fatigue_bonus := (fatigue b * (1#10))%Q in
  Ok (if Qlt_le_dec roll (base_prob + fatigue_bonus) then true else false).

Definition should_get_distracted (b : t) (roll : Q) : result bool :=
  cur <- py_getitem (personality b) "curiosity" ;;
  curiosity <- py_float cur ;;
  let base_prob := (curiosity * (1#10))%Q in
  let fatigue_bonus := (fatigue b * (5#100))%Q in
  Ok (if Qlt_le_dec roll (base_prob + fatigue_bonus) then true else false).

Definition get_watch_time_multiplier (b : t) (u : Q) : result Q :=
  pat <- py_getitem (personality b) "patience" ;;
  base <- py_float pat ;;
  let fatigue_penalty := (fatigue b * (3#10))%Q in
  let random_factor := uniform (8#10) (12#10) u in
  Ok (Qmax (5#10) (base - fatigue_penalty) * random_factor)%Q.

(** The fatigue after each of a run of [update_fatigue] calls made at the
    clock readings [ts]. *)
Fixpoint fatigue_trace (ts : list Q) (b : t) : list Q :=
  match ts with
  | [] => []
  | now :: ts' =>
      let b' := update_fatigue now b in
      fatigue b' :: fatigue_trace ts' b'
  end.

Fixpoint run_updates (ts : list Q) (b : t) : t :=
  match ts with
  | [] => b
  | now :: ts' => run_updates ts' (update_fatigue now b)
  end.

End HumanBehavior.

(** ** class StealthConfig, class StealthBot: state file and session limits *)

Module StealthBot.

(** The fields of [StealthConfig] that the modelled methods read. *)
Record StealthConfig : Type := mk_config {
  token : string;
  max_session_duration_minutes : Z;
  max_actions_per_session : Z;
  auto_like : bool
}.

(** The [stats] dict: its keys are fixed by the literal in [__init__];
    [session_start] is [None] until [start] stores a [datetime] in it. *)
Record Stats : Type := mk_stats {
  total : Z;
  likes : Z;
  follows : Z;
  errors : Z;
  session_start : option Q
}.

Record t : Type := mk {
  config : StealthConfig;
  behavior : HumanBehavior.t;
  stats : Stats
}.

(** What is found at [config.state_file]. *)
Inductive file_content : Type :=
| Unreadable              (* [open] raises *)
| Unparsable              (* [json.load] raises *)
| Parsed (v : pyval).     (* [json.load] returns [v] *)

(** [None]: [os.path.exists] is false. *)
Definition state_file : Type := option file_content.

Definition json_load (c : file_content) : result pyval :=
  match c with
  | Unreadable => Raise OSError
  | Unparsable => Raise JSONDecodeError
  | Parsed v => Ok v
  end.

Definition set_personality (b : HumanBehavior.t) (p : pyval) : HumanBehavior.t :=
  {| HumanBehavior.fatigue := HumanBehavior.fatigue b;
     HumanBehavior.session_start := HumanBehavior.session_start b;
     HumanBehavior.actions_count := HumanBehavior.actions_count b;
     HumanBehavior.personality := p |}.

Definition set_behavior (bot : t) (b : HumanBehavior.t) : t :=
  {| config := config bot; behavior := b; stats := stats bot |}.

Definition set_stats (bot : t) (s : Stats) : t :=
  {| config := config bot; behavior := behavior bot; stats := s |}.

(** The body of the [try] of [_load_state]. *)
Definition load_state_body (bot : t) (c : file_content) : result t :=
  state <- json_load c ;;
  has <- py_contains "personality" state ;;
  if (has : bool)
  then (p <- py_getitem state "personality" ;;
        Ok (set_behavior bot (set_personality (behavior bot) p)))
  else Ok bot.

(** [_load_state]: [Ok] is a normal return, [Raise] an exception that
    escapes.  The handler is [pass]: the bot stays as it was. *)
Definition _load_state (bot : t) (fs : state_file) : result t :=
  match fs with
  | None => Ok bot
  | Some c => try_except (load_state_body bot c) (fun _ => Ok bot)
  end.

Definition initial_stats : Stats :=
  {| total := 0; likes := 0; follows := 0; errors := 0; session_start := None |}.

(** [__init__]; [os.makedirs] and the construction of the API client do not
    touch the modelled state. *)
Definition __init__ (cfg : StealthConfig) (now : Q)
  (r : HumanBehavior.init_draws) (fs : state_file) : result t :=
  if String.eqb (token cfg) ""
  then Raise ValueError
  else
    _load_state
      {| config := cfg;
         behavior := HumanBehavior.__init__ now r;
         stats := initial_stats |}
      fs.


(** The part of [start] that touches the modelled state: the session clock
    of the limits starts once the browser is connected. *)
Definition start (bot : t) (now : Q) : t :=
  set_stats bot
    {| total := total (stats bot); likes := likes (stats bot);
       follows := follows (stats bot); errors := errors (stats bot);
       session_start := Some now |}.




Definition stats_dict (s : Stats) : pyval :=
  PyDict
    [ ("total"%string, PyNum (inject_Z (total s)));
      ("likes"%string, PyNum (inject_Z (likes s)));
      ("follows"%string, PyNum (inject_Z (follows s)));
      ("errors"%string, PyNum (inject_Z (errors s)));
      ("session_start"%string,
        match session_start s with
        | None => PyNone
        | Some t0 => PyDatetime t0
        end) ].

(** The [state] dict that [_save_state] builds. *)
Definition save_state_record (bot : t) (now : Q) : pyval :=
  PyDict
    [ ("personality"%string, HumanBehavior.personality (behavior bot));
      ("last_session"%string, PyIsoStr now);
      ("stats"%string, stats_dict (stats bot)) ].

(** What [json.dump] accepts: everything but a [datetime]. *)
Fixpoint json_serializable (v : pyval) : bool :=
  match v with
  | PyDatetime _ => false
  | PyList l => forallb json_serializable l
  | PyDict d => forallb (fun kv => json_serializable (snd kv)) d
  | _ => true
  end.

(** [_save_state]: [open(..., 'w')] truncates the file, [json.dump] writes
    the encoding piece by piece and raises [TypeError] at the first value it
    cannot encode, leaving an unfinished text behind. *)
Definition _save_state (bot : t) (now : Q) : result unit * state_file :=
  let state := save_state_record bot now in
  if json_serializable state
  then (Ok tt, Some (Parsed state))
  else (Raise TypeError, Some Unparsable).

(** [stop] starts with [_save_state]; what follows closes the browser. *)
Definition stop (bot : t) (now : Q) : result unit * state_file :=
  _save_state bot now.

(** [_check_session_limits], [now] being the reading of [datetime.now()]. *)
Definition _check_session_limits (bot : t) (now : Q) : bool :=
  let over_time :=
    match session_start (stats bot) with
    | Some t0 =>
        let duration := ((now - t0) / 60)%Q in
        if Qlt_le_dec duration (inject_Z (max_session_duration_minutes (config bot)))
        then false else true
    | None => false
    end in
  if over_time then false
  else if total (stats bot) >=? max_actions_per_session (config bot) then false
  else true.

(** *** Dispatching URLs *)

(** What the bot does that the limits are about: [EvLimit] is a failed
    [_check_session_limits], [EvGoto url] the [page.goto(url)] that opens the
    processing of a URL. *)
Inductive event : Type :=
| EvLimit
| EvGoto (url : string).

(** What the outside world contributes to the processing of one URL:
    [t_check] is the clock read by the check inside [process_reel] /
    [process_post]; [before_goto] tells that the [try] body raised before
    [page.goto] was called ([self.page] is still [None] because [start] has
    not run, or one of the three [self.log] calls failed); otherwise
    [fatigue_clock] holds the instants of the [update_fatigue] calls of
    [watch_content], [raised] tells whether the [try] body raised, in
    [page.goto] or after it, and [liked] whether [like_content] was reached
    and returned [True].  The [self.log] of the [except] clause is taken
    to return. *)
Record visit : Type := mk_visit {
  t_check : Q;
  fatigue_clock : list Q;
  raised : bool;
  liked : bool;
  before_goto : bool
}.

(** One turn of the loop of [process_urls]: the clock read by its own check,
    then the visit. *)
Record turn : Type := mk_turn {
  t_loop : Q;
  the_visit : visit
}.

Definition b2z (b : bool) : Z := if b then 1 else 0.

(** The common shape of [process_reel] and [process_post] on the modelled
    state: check, count (before the [try]), then inside the [try] the logs,
    [goto], watch and like, and the [except] clause. *)
Definition process_content (bot : t) (url : string) (v : visit)
  : t * bool * list event :=
  if negb (_check_session_limits bot (t_check v))
  then (bot, false, [EvLimit])
  else if before_goto v
  then
    let s := stats bot in
    (set_stats bot
       {| total := total s + 1;
          likes := likes s;
          follows := follows s;
          errors := errors s + 1;
          session_start := session_start s |},
     false,
     [])
  else
    let s := stats bot in
    let s' :=
      {| total := total s + 1;
         likes := likes s + b2z (auto_like (config bot) && liked v);
         follows := follows s;
         errors := errors s + b2z (raised v);
         session_start := session_start s |} in
    ({| config := config bot;
        behavior := HumanBehavior.run_updates (fatigue_clock v) (behavior bot);
        stats := s' |},
     negb (raised v),
     [EvGoto url]).

Definition process_reel (bot : t) (url : string) (v : visit) :=
  process_content bot url v.

Definition process_post (bot : t) (url : string) (v : visit) :=
  process_content bot url v.

(** [str.isspace] on one character, a character of a [string] being the
    code point of that number: tab to carriage return, the four separators
    [\x1c] to [\x1f], the space, [\x85] and [\xa0].  The white space of
    Unicode from 256 on has no character in these strings. *)
Definition is_space (c : ascii) : bool :=
  let n := nat_of_ascii c in
  (Nat.eqb n 32 || (Nat.leb 9 n && Nat.leb n 13)
   || (Nat.leb 28 n && Nat.leb n 31) || Nat.eqb n 133 || Nat.eqb n 160)%bool.

Fixpoint lstrip (s : string) : string :=
  match s with
  | String c s' => if is_space c then lstrip s' else s
  | EmptyString => EmptyString
  end.

Fixpoint rev_string (s acc : string) : string :=
  match s with
  | EmptyString => acc
  | String c s' => rev_string s' (String c acc)
  end.

Definition strip (s : string) : string :=
  rev_string (lstrip (rev_string (lstrip s) EmptyString)) EmptyString.

Definition process_url (bot : t) (url : string) (v : visit)
  : t * bool * list event :=
  let url := strip url in
  if str_contains "/reel/" url then process_reel bot url v
  else if str_contains "/p/" url then process_post bot url v
  else (bot, false, []).

(** The loop of [process_urls], [i] being the index of the turn; the pause
    between two URLs only sleeps. *)
Fixpoint process_urls_from (i : nat) (bot : t) (urls : list string)
  (env : nat -> turn) : t * list event :=
  match urls with
  | [] => (bot, [])
  | url :: rest =>
      if negb (_check_session_limits bot (t_loop (env i)))
      then (bot, [EvLimit])
      else
        let '(bot', _, ev) := process_url bot url (the_visit (env i)) in
        let '(bot'', ev') := process_urls_from (S i) bot' rest env in
        (bot'', ev ++ ev')
  end.

Definition process_urls (bot : t) (urls : list string) (env : nat -> turn)
  : t * list event :=
  process_urls_from 0 bot urls env.

(** The clock never runs backwards during a run. *)
Definition clock_monotone (env : nat -> turn) : Prop :=
  forall i : nat,
    (t_loop (env i) <= t_check (the_visit (env i)))%Q /\
    (t_check (the_visit (env i)) <= t_loop (env (S i)))%Q.

End StealthBot.

(** ** Real-valued helpers of the pointer and wheel code *)

Local Open Scope R_scope.

(** [int(x)] on a float: truncation towards zero. *)
Definition py_int (x : R) : Z :=
  if Rle_dec 0 x then Int_part x else (- Int_part (- x))%Z.

Definition uniformR (a b u : R) : R := a + (b - a) * u.

Definition unit_drawR (u : R) : Prop := 0 <= u < 1.

(** [math.atan2(y, x)] for finite arguments, a zero being [+0.0]. *)
Definition atan2 (y x : R) : R :=
  if Rlt_dec 0 x then atan (y / x)
  else if Rlt_dec x 0 then
    (if Rle_dec 0 y then atan (y / x) + PI else atan (y / x) - PI)
  else if Rlt_dec 0 y then PI / 2
  else if Rlt_dec y 0 then - (PI / 2)
  else 0.

Definition point : Type := (R * R)%type.
Definition ipoint : Type := (Z * Z)%type.

Definition int_point (p : point) : ipoint := (py_int (fst p), py_int (snd p)).

(** ** class AdvancedMouseSimulator *)

Module AdvancedMouseSimulator.

(** [_perlin_noise(t, octaves)]. *)
Definition _perlin_noise (t : R) (octaves : nat) : R :=
  fold_left
    (fun result i =>
       let freq := 2 ^ i in
       let amp := (1 / 2) ^ i in
       result + sin (t * freq * 2 * PI) * amp)
    (seq 0 octaves) 0.

(** The draws of one call of [move_to]: the [random.random()] of
    [should_make_mistake], the one behind the angle of each control point,
    the one behind [overshoot_dist], the one of [time_offset].  The draws
    that only lengthen a pause are left out with the pauses. *)
Record move_draws : Type := mk_draws {
  mistake_roll : Q;
  angle_u : nat -> R;
  overshoot_u : R;
  time_u : R
}.

Definition control_point (start : ipoint) (dx dy distance : R)
  (num_controls : nat) (r : move_draws) (i : nat) : point :=
  let progress := INR (i + 1) / INR (num_controls + 1) in
  let base_x := IZR (fst start) + dx * progress in
  let base_y := IZR (snd start) + dy * progress in
  let deviation := sin (progress * PI) * distance * (15 / 100) in
  let angle := uniformR (- PI / 3) (PI / 3) (angle_u r i) in
  (base_x + cos angle * deviation, base_y + sin angle * deviation).

Definition overshoot_point (target : ipoint) (dx dy : R) (r : move_draws) : point :=
  let overshoot_dist := uniformR 5 25 (overshoot_u r) in
  let angle := atan2 dy dx in
  (IZR (fst target) + cos angle * overshoot_dist,
   IZR (snd target) + sin angle * overshoot_dist).

Definition as_point (p : ipoint) : point := (IZR (fst p), IZR (snd p)).

Definition _generate_control_points (start target : ipoint) (overshoot : bool)
  (r : move_draws) : list point :=
  let dx := IZR (fst target - fst start) in
  let dy := IZR (snd target - snd start) in
  let distance := sqrt (dx * dx + dy * dy) in
  let num_controls := Z.to_nat (Z.max 2 (py_int (distance / 100))) in
  [as_point start]
    ++ map (control_point start dx dy distance num_controls r) (seq 0 num_controls)
    ++ (if overshoot then [overshoot_point target dx dy r] else [])
    ++ [as_point target].

(** One sample of the spline on the segment [p1 -> p2]. *)
Definition catmull_rom (a0 a1 a2 a3 t : R) : R :=
  let t2 := t * t in
  let t3 := t * t * t in
  (1 / 2) * (2 * a1 + (- a0 + a2) * t
             + (2 * a0 - 5 * a1 + 4 * a2 - a3) * t2
             + (- a0 + 3 * a1 - 3 * a2 + a3) * t3).

Definition spline_sample (p0 p1 p2 p3 : point) (samples_per_segment : Z) (i : nat)
  : ipoint :=
  let t := INR i / IZR samples_per_segment in
  (py_int (catmull_rom (fst p0) (fst p1) (fst p2) (fst p3) t),
   py_int (catmull_rom (snd p0) (snd p1) (snd p2) (snd p3) t)).

Definition spline_segment (extended : list point) (d : point)
  (samples_per_segment : Z) (seg : nat) : list ipoint :=
  let p0 := nth seg extended d in
  let p1 := nth (seg + 1) extended d in
  let p2 := nth (seg + 2) extended d in
  let p3 := nth (seg + 3) extended d in
  map (spline_sample p0 p1 p2 p3 samples_per_segment)
      (seq 0 (Z.to_nat samples_per_segment)).

(** [_catmull_rom_spline(points, num_samples)]; [points[0]] of an empty list
    raises. *)
Definition _catmull_rom_spline (points : list point) (num_samples : Z)
  : result (list ipoint) :=
  match points with
  | [] => Raise IndexError
  | [p] => Ok [int_point p]
  | p :: _ =>
      let extended := [p] ++ points ++ [last points p] in
      let segments := (List.length extended - 3)%nat in
      let samples_per_segment := (num_samples / Z.of_nat segments)%Z in
      Ok (flat_map (spline_segment extended p samples_per_segment) (seq 0 segments)
            ++ [int_point (last points p)])
  end.

Definition distance_to (start target : ipoint) : R :=
  sqrt (IZR ((fst target - fst start) ^ 2 + (snd target - snd start) ^ 2)).

Definition tremor_x (time_offset : R) (i : nat) : R :=
  _perlin_noise (time_offset + INR i * (1 / 10)) 3 * 2.

Definition tremor_y (time_offset : R) (i : nat) : R :=
  _perlin_noise (time_offset + INR i * (1 / 10) + 100) 3 * 2.

(** The coordinates sent to [page.mouse.move] for the [i]-th sample. *)
Definition emit_sample (time_offset : R) (i : nat) (p : ipoint) : ipoint :=
  (py_int (IZR (fst p) + tremor_x time_offset i),
   py_int (IZR (snd p) + tremor_y time_offset i)).

Fixpoint emit_from (time_offset : R) (i : nat) (path : list ipoint) : list ipoint :=
  match path with
  | [] => []
  | p :: path' => emit_sample time_offset i p :: emit_from time_offset (S i) path'
  end.

(** One trajectory: what a call of [move_to] generates and sends before its
    recursive call. *)
Record leg : Type := mk_leg {
  overshoot : bool;
  controls : list point;
  path : list ipoint;
  emitted : list ipoint
}.

(** The body of [move_to] up to the recursive call; [None] is the early
    [return] of a route shorter than 5. *)
Definition move_leg (b : HumanBehavior.t) (current_pos target : ipoint)
  (allow_overshoot : bool) (r : move_draws) : result (option leg) :=
  let start := current_pos in
  let distance := distance_to start target in
  if Rlt_dec distance 5 then Ok None
  else
    overshoot <-
      (if allow_overshoot
       then (m <- HumanBehavior.should_make_mistake b (mistake_roll r) ;;
             Ok (m && (if Rlt_dec 50 distance then true else false))%bool)
       else Ok false) ;;
    let controls := _generate_control_points start target overshoot r in
    let num_points := Z.max 15 (py_int (distance / 5)) in
    path <- _catmull_rom_spline controls num_points ;;
    let time_offset := time_u r * 1000 in
    Ok (Some {| overshoot := overshoot;
                controls := controls;
                path := path;
                emitted := emit_from time_offset 0 path |}).

(** [move_to(target, allow_overshoot)] from [current_pos]: the trajectories
    sent, in order, and the final [current_pos].  The recursive call passes
    [allow_overshoot=False], which rules out a further one: the recursion is
    written out.  [r1] are the draws of the call, [r2] those of the
    recursive one. *)
Definition move_to (b : HumanBehavior.t) (current_pos target : ipoint)
  (allow_overshoot : bool) (r1 r2 : move_draws)
  : result (list (list ipoint) * ipoint) :=
  l1 <- move_leg b current_pos target allow_overshoot r1 ;;
  match l1 with
  | None => Ok ([], current_pos)
  | Some leg1 =>
      let pos1 := last (emitted leg1) current_pos in
      if overshoot leg1 then
        l2 <- move_leg b pos1 target false r2 ;;
        match l2 with
        | None => Ok ([emitted leg1], pos1)
        | Some leg2 => Ok ([emitted leg1; emitted leg2], last (emitted leg2) pos1)
        end
      else Ok ([emitted leg1], pos1)
  end.

End AdvancedMouseSimulator.

(** ** class AdvancedScrollSimulator *)

Module AdvancedScrollSimulator.

(** The draws of one call of [scroll]: [random.randint(150, 400)] for a
    missing amount, [random.randint(8, 15)] for the number of steps,
    [random.randint(-3, 3)] for each step, the [random.random()] of the
    inertia test and its [random.randint(10, 30)]. *)
Record scroll_draws : Type := mk_draws {
  amount_draw : Z;
  steps_draw : Z;
  jitter : nat -> Z;
  inertia_roll : R;
  inertia_draw : Z
}.

Definition well_drawn (r : scroll_draws) : Prop :=
  (150 <= amount_draw r <= 400)%Z /\
  (8 <= steps_draw r <= 15)%Z /\
  (forall i : nat, (-3 <= jitter r i <= 3)%Z) /\
  0 <= inertia_roll r < 1 /\
  (10 <= inertia_draw r <= 30)%Z.

Definition velocity (steps : Z) (i : nat) : R :=
  let t := INR i / IZR (steps - 1) in
  sin (t * PI).

Definition velocities (steps : Z) : list R :=
  map (velocity steps) (seq 0 (Z.to_nat steps)).

(** [sum(...)] of floats, from [0], left to right. *)
Definition sumR (l : list R) : R := fold_left Rplus l 0.

Definition sumZ (l : list Z) : Z := fold_left Z.add l 0%Z.

(** [l[i] += d]; an index past the end raises. *)
Fixpoint add_at (l : list Z) (i : nat) (d : Z) : result (list Z) :=
  match l, i with
  | [], _ => Raise IndexError
  | a :: l', O => Ok ((a + d)%Z :: l')
  | a :: l', S i' => l'' <- add_at l' i' d ;; Ok (a :: l'')
  end.

(** The list [step_amounts] once the remainder is added to its middle
    step.  A single step divides by [steps - 1 = 0], a zero [total] divides
    by zero as well. *)
Definition step_amounts (amount steps : Z) : result (list Z) :=
  if (steps =? 1)%Z then Raise ZeroDivisionError
  else
    let vs := velocities steps in
    let total := sumR vs in
    if Req_dec_T total 0 then
      (match vs with
       | [] => Raise IndexError
       | _ => Raise ZeroDivisionError
       end)
    else
      let step_amounts := map (fun v => py_int (IZR amount * v / total)) vs in
      let diff := (amount - sumZ step_amounts)%Z in
      add_at step_amounts (Nat.div (List.length step_amounts) 2) diff.

Fixpoint add_jitter (r : scroll_draws) (i : nat) (l : list Z) : list Z :=
  match l with
  | [] => []
  | step_amount :: l' => (step_amount + jitter r i)%Z :: add_jitter r (S i) l'
  end.

(** [scroll(direction, amount, smooth)]: the vertical deltas sent to
    [page.mouse.wheel], in order. *)
Definition scroll (direction : string) (amount : option Z) (smooth : bool)
  (r : scroll_draws) : result (list Z) :=
  let amount := match amount with Some a => a | None => amount_draw r end in
  let amount := if String.eqb direction "up" then (- amount)%Z else amount in
  if negb smooth then Ok [amount]
  else
    plan <- step_amounts amount (steps_draw r) ;;
    let wheel := add_jitter r 0 plan in
    if Rlt_dec (inertia_roll r) (3 / 10)
    then
      let inertia := (inertia_draw r * (if (amount >? 0)%Z then 1 else -1))%Z in
      Ok (wheel ++ [inertia])
    else Ok wheel.

End AdvancedScrollSimulator.

(** ** Predicates of the specification *)

Local Open Scope Q_scope.

(** The fatigue as the specification words it, from the minutes elapsed in
    the session and the number of actions recorded so far. *)
Definition fatigue_formula (session_minutes : Q) (action_count : Z) : Q :=
  Qmin (8 # 10)
       (Qmin (session_minutes / 60) (5 # 10)
        + Qmin (inject_Z action_count / 100) (3 # 10)).

Fixpoint nondecreasing (l : list Q) : Prop :=
  match l with
  | a :: (b :: _) as l' => a <= b /\ nondecreasing l'
  | _ => True
  end.

(** Successive clock readings, none before [last]. *)
Fixpoint clock_from (last : Q) (ts : list Q) : Prop :=
  match ts with
  | [] => True
  | now :: ts' => last <= now /\ clock_from now ts'
  end.

(** *** Session limits *)

Section SessionSpec.

Import StealthBot.

(** A limit of the session is reached at [now]. *)
Definition limit_reached (bot : t) (now : Q) : Prop :=
  (exists t0 : Q,
      session_start (stats bot) = Some t0 /\
      inject_Z (max_session_duration_minutes (config bot)) <= (now - t0) / 60) \/
  (max_actions_per_session (config bot) <= total (stats bot))%Z.

(** One URL-processing call of the same run. *)
Inductive run_step : t -> t -> Prop :=
| step_url (bot : t) (url : string) (v : visit) :
    run_step bot (fst (fst (process_url bot url v)))
| step_urls (bot : t) (urls : list string) (env : nat -> turn) (i : nat) :
    run_step bot (fst (process_urls_from i bot urls env)).

Definition reachable : t -> t -> Prop := clos_refl_trans t run_step.

Definition no_goto (l : list event) : Prop := forall url : string, ~ In (EvGoto url) l.

(** Same configuration, same session clock, no fewer actions counted. *)
Definition later (bot bot' : t) : Prop :=
  config bot' = config bot /\
  session_start (stats bot') = session_start (stats bot) /\
  (total (stats bot) <= total (stats bot'))%Z.

(** In a trace, nothing is opened after a failed check. *)
Definition quiet_after_limit (trace : list event) : Prop :=
  forall pre post : list event, trace = pre ++ EvLimit :: post -> no_goto post.

End SessionSpec.

(** *** State file and personality *)

Section StateSpec.

Local Open Scope string_scope.

(** The bot as [__init__] leaves it when there is no state file. *)
Definition fresh_bot (cfg : StealthBot.StealthConfig) (now : Q)
  (r : HumanBehavior.init_draws) : StealthBot.t :=
  StealthBot.mk cfg (HumanBehavior.__init__ now r) StealthBot.initial_stats.

Definition personality_of (bot : StealthBot.t) : pyval :=
  HumanBehavior.personality (StealthBot.behavior bot).

Definition trait_within (p : pyval) (k : string) (lo hi : Q) : Prop :=
  exists q : Q, py_getitem p k = Ok (PyNum q) /\ lo <= q /\ q <= hi.

(** The declared bounds of the five traits. *)
Definition personality_within_bounds (p : pyval) : Prop :=
  trait_within p "speed" (7 # 10) (13 # 10) /\
  trait_within p "accuracy" (85 # 100) (98 # 100) /\
  trait_within p "patience" (6 # 10) (14 # 10) /\
  trait_within p "curiosity" (3 # 10) (8 # 10) /\
  trait_within p "focus" (7 # 10) 1.

Definition unit_draws (r : HumanBehavior.init_draws) : Prop :=
  unit_draw (HumanBehavior.u_speed r) /\
  unit_draw (HumanBehavior.u_accuracy r) /\
  unit_draw (HumanBehavior.u_patience r) /\
  unit_draw (HumanBehavior.u_curiosity r) /\
  unit_draw (HumanBehavior.u_focus r).




(** The keys of a dict, in order. *)
Definition record_keys (v : pyval) : list string :=
  match v with
  | PyDict d => map fst d
  | _ => []
  end.

End StateSpec.

(** ** Sample inputs *)

Definition some_draws : HumanBehavior.init_draws :=
  HumanBehavior.mk_draws (1 # 2) (1 # 2) (1 # 2) (1 # 2) (1 # 2).

Definition sample_config : StealthBot.StealthConfig :=
  StealthBot.mk_config "token" 45 1 true.


(** A bot that has processed one URL, its limit of actions being one. *)
Definition spent_bot : StealthBot.t :=
  StealthBot.mk sample_config (HumanBehavior.__init__ 0 some_draws)
    (StealthBot.mk_stats 1 0 0 0 (Some 0)).

Definition steady_env (i : nat) : StealthBot.turn :=
  StealthBot.mk_turn 10 (StealthBot.mk_visit 10 [] false true false).

(** A bot whose [start] never completed; [stop] runs all the same, from the
    [finally] of [main]. *)
Definition idle_bot : StealthBot.t :=
  StealthBot.mk sample_config (HumanBehavior.__init__ 0 some_draws)
    StealthBot.initial_stats.

(** The traits of a state file whose speed is far above 1.3. *)
Definition hasty_personality : pyval :=
  PyDict
    [ ("speed"%string, PyNum 5); ("accuracy"%string, PyNum (9 # 10));
      ("patience"%string, PyNum 1); ("curiosity"%string, PyNum (5 # 10));
      ("focus"%string, PyNum (8 # 10)) ].

Definition hasty_record : pyval :=
  PyDict
    [ ("personality"%string, hasty_personality);
      ("last_session"%string, PyStr "2025-01-01T10:00:00") ].

(** *** Pointer and wheel *)

Section PointerSpec.

Import AdvancedMouseSimulator.
Local Open Scope R_scope.

(** The shape of the result for two control points or more. *)
Definition extended_of (p q : point) (rest : list point) : list point :=
  [p] ++ (p :: q :: rest) ++ [last (p :: q :: rest) p].

Definition num_controls_of (start target : ipoint) : nat :=
  Z.to_nat (Z.max 2 (py_int (distance_to start target / 100))).

(** The decision [allow_overshoot and should_make_mistake() and distance > 50]. *)
Definition overshoot_decision (b : HumanBehavior.t) (distance : R)
  (allow_overshoot : bool) (r : move_draws) : result bool :=
  if allow_overshoot
  then (m <- HumanBehavior.should_make_mistake b (mistake_roll r) ;;
        Ok (m && (if Rlt_dec 50 distance then true else false))%bool)
  else Ok false.

Definition num_points_of (start target : ipoint) : Z :=
  Z.max 15 (py_int (distance_to start target / 5)).

End PointerSpec.

Section WheelSpec.

Import AdvancedScrollSimulator.

(** The signed amount: [amount = -amount] for ['up']. *)
Definition signed_amount (direction : string) (amount : option Z) (r : scroll_draws) : Z :=
  let a := match amount with Some a => a | None => amount_draw r end in
  if String.eqb direction "up" then (- a)%Z else a.

Definition jitter_total (r : scroll_draws) (n : nat) : Z :=
  sumZ (map (jitter r) (seq 0 n)).

Definition inertia_of (amount : Z) (r : scroll_draws) : Z :=
  (inertia_draw r * (if (amount >? 0)%Z then 1 else -1))%Z.

End WheelSpec.

(** *** Sample inputs of the pointer and the wheel *)

(** Draws that are all zero. *)
Definition still_draws : AdvancedMouseSimulator.move_draws :=
  AdvancedMouseSimulator.mk_draws 0%Q (fun _ => 0%R) 0%R 0%R.

(** A behaviour whose personality has no trait at all. *)
Definition blank_behavior : HumanBehavior.t :=
  HumanBehavior.mk 0 0 0 (PyDict []).

(** Eight steps, a jitter of one on each, an inertia of twenty. *)
Definition plain_scroll_draws : AdvancedScrollSimulator.scroll_draws :=
  AdvancedScrollSimulator.mk_draws 200 8 (fun _ => 1%Z) (1 / 10)%R 20.

(** ** class HumanActions *)

Module HumanActions.

(** The target of [idle_movement]: an offset from the pointer, brought back
    into the viewport less a margin of 50.  [w] and [h] are the
    [innerWidth] and [innerHeight] that the page reports, [dx] and [dy] the
    draws [random.randint(-100, 100)] and [random.randint(-50, 50)]. *)
Definition idle_target (w h : Z) (current : ipoint) (dx dy : Z) : ipoint :=
  let target := (fst current + dx, snd current + dy)%Z in
  (Z.max 50 (Z.min (w - 50) (fst target)),
   Z.max 50 (Z.min (h - 50) (snd target))).

Definition idle_movement (b : HumanBehavior.t) (current : ipoint) (w h dx dy : Z)
  (r1 r2 : AdvancedMouseSimulator.move_draws)
  : result (list (list ipoint) * ipoint) :=
  AdvancedMouseSimulator.move_to b current (idle_target w h current dx dy) true r1 r2.

End HumanActions.

(** ** StealthBot.watch_content *)

Module Watching.

(** [watch_time]: the multiplier is drawn first, then the delay. *)
Definition watch_time_of (b : HumanBehavior.t) (base_min base_max : Q)
  (u : Q) (r : HumanBehavior.delay_draws) : result Q :=
  multiplier <- HumanBehavior.get_watch_time_multiplier b u ;;
  delay <- HumanBehavior.get_adjusted_delay b base_min base_max r ;;
  Ok (delay * multiplier)%Q.

(** The loop [while elapsed < watch_time] of [watch_content]: each turn
    records an action, draws [wait = random.uniform(2, 5)], sleeps
    [min(wait, watch_time - elapsed)] and adds [wait] to [elapsed].
    [waits i] is the wait drawn and [nows i] the clock read by
    [update_fatigue] at the turn number [i].  The moves and scrolls that a
    turn may add touch neither [elapsed] nor the behaviour; they are taken
    to return, an exception of theirs would leave the loop.  The result is
    the behaviour at the end and the sleeps, in order; [None] when [fuel]
    turns were not enough to leave the loop. *)
Fixpoint watch_loop (fuel i : nat) (elapsed watch_time : Q)
  (waits nows : nat -> Q) (b : HumanBehavior.t)
  : option (HumanBehavior.t * list Q) :=
  if Qlt_le_dec elapsed watch_time then
    match fuel with
    | O => None
    | S fuel' =>
        let b' := HumanBehavior.update_fatigue (nows i) b in
        let wait := waits i in
        let slept := Qmin wait (watch_time - elapsed) in
        match watch_loop fuel' (S i) (elapsed + wait) watch_time waits nows b' with
        | Some (b'', sleeps) => Some (b'', slept :: sleeps)
        | None => None
        end
    end
  else Some (b, []).

Definition sumQ (l : list Q) : Q := fold_right Qplus 0%Q l.

End Watching.

(** ** instagram_human.py: delays and paths *)

Module InstagramHuman.

Local Open Scope Q_scope.

(** [int(x)] on a float, the float being a rational here. *)
Definition q_int (x : Q) : Z :=
  if Qlt_le_dec x 0 then Qceiling x else Qfloor x.

(** [random_delay(min_sec, max_sec)], [z] being the standard normal deviate
    behind [random.gauss]. *)
Definition random_delay (min_sec max_sec z : Q) : Q :=
  let mean := (min_sec + max_sec) / 2 in
  let std := (max_sec - min_sec) / 4 in
  let delay := mean + z * std in
  Qmax min_sec (Qmin max_sec delay).

Definition qpoint : Type := (Q * Q)%type.

Definition bezier (a0 a1 a2 a3 t : Q) : Q :=
  (1 - t) ^ 3 * a0 + 3 * (1 - t) ^ 2 * t * a1 + 3 * (1 - t) * t ^ 2 * a2 + t ^ 3 * a3.

Definition bezier_point (p0 p1 p2 p3 : qpoint) (t : Q) : ipoint :=
  (q_int (bezier (fst p0) (fst p1) (fst p2) (fst p3) t),
   q_int (bezier (snd p0) (snd p1) (snd p2) (snd p3) t)).

(** The draws of [generate_human_path], in the order of the calls: for each
    coordinate of each control point a [random.random()] behind
    [random.uniform] and a [random.randint(-30, 30)]; then
    [random.randint(12, 25)]; then two [random.randint(-1, 1)] per point. *)
Record path_draws : Type := mk_draws {
  u1x : Q; k1x : Z; u1y : Q; k1y : Z;
  u2x : Q; k2x : Z; u2y : Q; k2y : Z;
  num_points : Z;
  wobble_x : nat -> Z;
  wobble_y : nat -> Z
}.

Definition well_drawn (r : path_draws) : Prop :=
  (12 <= num_points r <= 25)%Z /\
  (forall i, -1 <= wobble_x r i <= 1)%Z /\
  (forall i, -1 <= wobble_y r i <= 1)%Z.

Definition as_qpoint (p : ipoint) : qpoint := (inject_Z (fst p), inject_Z (snd p)).

Definition path_point (start ctrl1 ctrl2 target : qpoint) (r : path_draws) (i : nat)
  : ipoint :=
  let t := inject_Z (Z.of_nat i) / inject_Z (num_points r) in
  let point := bezier_point start ctrl1 ctrl2 target t in
  ((fst point + wobble_x r i)%Z, (snd point + wobble_y r i)%Z).

(** [generate_human_path(start, end)]; a draw of zero points divides by
    zero. *)
Definition generate_human_path (start target : ipoint) (r : path_draws)
  : result (list ipoint) :=
  let dx := inject_Z (fst target - fst start) in
  let dy := inject_Z (snd target - snd start) in
  let ctrl1 :=
    (inject_Z (fst start) + dx * uniform (2 # 10) (4 # 10) (u1x r) + inject_Z (k1x r),
     inject_Z (snd start) + dy * uniform (2 # 10) (4 # 10) (u1y r) + inject_Z (k1y r)) in
  let ctrl2 :=
    (inject_Z (fst start) + dx * uniform (6 # 10) (8 # 10) (u2x r) + inject_Z (k2x r),
     inject_Z (snd start) + dy * uniform (6 # 10) (8 # 10) (u2y r) + inject_Z (k2y r)) in
  if (num_points r =? 0)%Z then Raise ZeroDivisionError
  else
    Ok (map (path_point (as_qpoint start) ctrl1 ctrl2 (as_qpoint target) r)
            (seq 0 (Z.to_nat (num_points r + 1)))).

(** [human_move(x, y)] from [mouse_pos]: the points sent to
    [page.mouse.move] and the new [mouse_pos]. *)
Definition human_move (mouse_pos target : ipoint) (r : path_draws)
  : result (list ipoint * ipoint) :=
  path <- generate_human_path mouse_pos target r ;;
  Ok (path, target).

(** The draws of the two control points are where [random.uniform] and
    [random.randint(-30, 30)] put them. *)
Definition controls_drawn (r : path_draws) : Prop :=
  (unit_draw (u1x r) /\ unit_draw (u1y r) /\ unit_draw (u2x r) /\ unit_draw (u2y r)) /\
  ((-30 <= k1x r <= 30)%Z /\ (-30 <= k1y r <= 30)%Z /\
   (-30 <= k2x r <= 30)%Z /\ (-30 <= k2y r <= 30)%Z).

(** [human_click] with a selector, in the branch where the element is found
    and has a bounding box. *)
Record box : Type := mk_box {
  box_x : Q; box_y : Q; box_width : Q; box_height : Q
}.

Definition click_point (b : box) (ux uy : Q) : ipoint :=
  (q_int (box_x b + box_width b * uniform (3 # 10) (7 # 10) ux),
   q_int (box_y b + box_height b * uniform (3 # 10) (7 # 10) uy)).

(** The points sent to [page.mouse.move], the point given to
    [page.mouse.click] and the new [mouse_pos]. *)
Definition human_click (mouse_pos : ipoint) (b : box) (ux uy : Q) (r : path_draws)
  : result (list ipoint * ipoint * ipoint) :=
  let xy := click_point b ux uy in
  moved <- human_move mouse_pos xy r ;;
  Ok (fst moved, xy, snd moved).

(** What [human_scroll] asks of [page.mouse]. *)
Inductive pointer_event : Type :=
| MouseMove (x : Z) (y : Q)
| MouseDown
| MouseUp.

(** The draws of [human_scroll]: [random.randint(150, 350)],
    [random.randint(-30, 30)], [random.randint(5, 10)] and, for each step,
    [random.randint(-5, 5)]. *)
Record swipe_draws : Type := mk_swipe {
  amount_draw : Z;
  start_dx : Z;
  steps : Z;
  jitter : nat -> Z
}.

Definition swipe_span (viewport_height : Z) (direction : string) : Q * Q :=
  if String.eqb direction "down"
  then (inject_Z viewport_height * (7 # 10), inject_Z viewport_height * (3 # 10))
  else (inject_Z viewport_height * (3 # 10), inject_Z viewport_height * (7 # 10)).

Definition swipe_move (start_x : Z) (start_y end_y : Q) (r : swipe_draws) (i : nat)
  : pointer_event :=
  let progress := inject_Z (Z.of_nat i + 1) / inject_Z (steps r) in
  let current_y := start_y + (end_y - start_y) * progress in
  MouseMove (start_x + jitter r i) current_y.

(** The abscissa and the ordinate of the move of step [i]. *)
Definition swipe_point (start_x : Z) (start_y end_y : Q) (r : swipe_draws) (i : nat)
  : Z * Q :=
  ((start_x + jitter r i)%Z,
   start_y + (end_y - start_y) * (inject_Z (Z.of_nat i + 1) / inject_Z (steps r))).

(** [human_scroll(direction, amount)]: the events and [mouse_pos] after
    it. *)
Definition human_scroll (viewport_width viewport_height : Z) (mouse_pos : ipoint)
  (direction : string) (amount : option Z) (r : swipe_draws)
  : list pointer_event * ipoint :=
  let amount := match amount with None => amount_draw r | Some a => a end in
  let start_x := (viewport_width / 2 + start_dx r)%Z in
  let start_y := fst (swipe_span viewport_height direction) in
  let end_y := snd (swipe_span viewport_height direction) in
  (MouseMove start_x start_y :: MouseDown ::
     map (swipe_move start_x start_y end_y r) (seq 0 (Z.to_nat (steps r)))
     ++ [MouseUp],
   mouse_pos).

End InstagramHuman.

(** *** More sample inputs *)

Definition straight_path_draws : InstagramHuman.path_draws :=
  InstagramHuman.mk_draws (1 # 2) 3 (1 # 2) (-4) (1 # 2) 5 (1 # 2) 0 12
    (fun _ => 1%Z) (fun _ => (-1)%Z).

Definition sample_swipe : InstagramHuman.swipe_draws :=
  InstagramHuman.mk_swipe 200 7 5 (fun _ => 2%Z).

Definition sample_box : InstagramHuman.box :=
  InstagramHuman.mk_box (201 # 2) 300 40 (25 # 2).

(** [p] is in the box of corners [lo] and [hi], [m] outside it at most. *)
Definition around (m : Z) (lo hi p : ipoint) : Prop :=
  (Z.min (fst lo) (fst hi) - m <= fst p <= Z.max (fst lo) (fst hi) + m)%Z /\
  (Z.min (snd lo) (snd hi) - m <= snd p <= Z.max (snd lo) (snd hi) + m)%Z.

(** The pages opened in a trace. *)
Fixpoint count_goto (trace : list StealthBot.event) : Z :=
  match trace with
  | [] => 0
  | StealthBot.EvGoto _ :: trace' => 1 + count_goto trace'
  | StealthBot.EvLimit :: trace' => count_goto trace'
  end.

(** What a run does to the counters of [bot], [bot'] being the bot at its
    end and [trace] what it did: the pages opened are at most the growth of
    [total]. *)
Definition counted (bot bot' : StealthBot.t) (trace : list StealthBot.event) : Prop :=
  (0 <= count_goto trace)%Z /\
  (StealthBot.total (StealthBot.stats bot) + count_goto trace
   <= StealthBot.total (StealthBot.stats bot'))%Z /\
  (StealthBot.likes (StealthBot.stats bot) <= StealthBot.likes (StealthBot.stats bot')
   <= StealthBot.likes (StealthBot.stats bot) + count_goto trace)%Z /\
  (StealthBot.errors (StealthBot.stats bot) <= StealthBot.errors (StealthBot.stats bot')
   <= StealthBot.errors (StealthBot.stats bot)
      + (StealthBot.total (StealthBot.stats bot')
         - StealthBot.total (StealthBot.stats bot)))%Z /\
  StealthBot.follows (StealthBot.stats bot') = StealthBot.follows (StealthBot.stats bot) /\
  (StealthBot.auto_like (StealthBot.config bot) = false ->
   StealthBot.likes (StealthBot.stats bot') = StealthBot.likes (StealthBot.stats bot)) /\
  (StealthBot.total (StealthBot.stats bot)
   <= StealthBot.max_actions_per_session (StealthBot.config bot) ->
   StealthBot.total (StealthBot.stats bot')
   <= StealthBot.max_actions_per_session (StealthBot.config bot))%Z /\
  StealthBot.config bot' = StealthBot.config bot.

(** [p] is in the viewport of width [w] and height [h], [m] away from its
    edges or more. *)
Definition inside (m w h : Z) (p : ipoint) : Prop :=
  (m <= fst p <= w - m)%Z /\ (m <= snd p <= h - m)%Z.


(** What the loop of [watch_content] has done when it ends, [left] being the
    watch time still to go when it was entered. *)
Definition loop_spec (left : Q) (b b' : HumanBehavior.t) (sleeps : list Q) : Prop :=
  let turns := inject_Z (Z.of_nat (List.length sleeps)) in
  Watching.sumQ sleeps == Qmax 0 left /\
  Forall (fun s => 0 < s /\ s <= 5) sleeps /\
  Qmax 0 left <= 5 * turns /\
  (sleeps = [] \/ 2 * turns < left + 2) /\
  HumanBehavior.actions_count b'
  = (HumanBehavior.actions_count b + Z.of_nat (List.length sleeps))%Z /\
  HumanBehavior.personality b' = HumanBehavior.personality b /\
  HumanBehavior.session_start b' = HumanBehavior.session_start b.

(** *** More draws of the pointer *)

(** Draws whose time offset is 0.95: on the route from (0, 0) to (100, 0)
    the last sample, the one of index 18, has its tremor at the time 2.75. *)
Definition shaky_draws : AdvancedMouseSimulator.move_draws :=
  AdvancedMouseSimulator.mk_draws 0%Q (fun _ => 0%R) 0%R (19 / 20000)%R.


(** * Properties *)

(** ** Rational arithmetic with [min] and [max] *)

Ltac qmin_case a b :=
  let H := fresh in let H' := fresh in let m := fresh "m" in
  destruct (Q.min_spec a b) as [[H H']|[H H']];
  set (m := Qmin a b) in *; clearbody m.

Ltac qmax_case a b :=
  let H := fresh in let H' := fresh in let m := fresh "m" in
  destruct (Q.max_spec a b) as [[H H']|[H H']];
  set (m := Qmax a b) in *; clearbody m.

Ltac qmin_cases :=
  repeat match goal with
  | |- context [Qmin ?a ?b] => qmin_case a b
  | H0 : context [Qmin ?a ?b] |- _ => qmin_case a b
  | |- context [Qmax ?a ?b] => qmax_case a b
  | H0 : context [Qmax ?a ?b] |- _ => qmax_case a b
  end.

(** Divisions by the constants of the code, as multiplications. *)
Ltac qconst :=
  unfold Qdiv in *;
  change (/ 60) with (1 # 60) in *;
  change (/ 100) with (1 # 100) in *;
  change (/ 2) with (1 # 2) in *;
  change (/ 4) with (1 # 4) in *.

(** ** Fatigue *)

Section Fatigue.

Import HumanBehavior.

Lemma update_fatigue_formula (now : Q) (b : t) :
  fatigue (update_fatigue now b)
  == fatigue_formula ((now - session_start b) / 60) (actions_count b).
Proof.
  unfold update_fatigue, fatigue_formula; cbn [fatigue].
  apply Q.min_comm.
Qed.

Lemma fatigue_formula_mono (m m' : Q) (n n' : Z) :
  m <= m' -> (n <= n')%Z -> fatigue_formula m n <= fatigue_formula m' n'.
Proof.
  intros Hm Hn. unfold fatigue_formula.
  assert (Hq : inject_Z n <= inject_Z n') by (rewrite <- Zle_Qle; exact Hn).
  qconst. qmin_cases; lra.
Qed.

Lemma fatigue_formula_cap (m : Q) (n : Z) : fatigue_formula m n <= 8 # 10.
Proof. unfold fatigue_formula. apply Q.le_min_l. Qed.

(** The invariant of a session started at [t0], after [n] recorded actions
    the last of which was at [last]: the fatigue is below what any later
    call will compute. *)
Definition in_session (t0 last : Q) (n : Z) (b : t) : Prop :=
  session_start b = t0 /\ actions_count b = n /\
  forall now : Q, last <= now ->
    fatigue b <= fatigue_formula ((now - t0) / 60) n.

Lemma in_session_init (t0 : Q) (r : init_draws) :
  in_session t0 t0 0 (__init__ t0 r).
Proof.
  repeat split. intros now Hnow. cbn [__init__ fatigue].
  unfold fatigue_formula. change (inject_Z 0) with 0. qconst.
  qmin_cases; lra.
Qed.

Lemma in_session_update (t0 last now : Q) (n : Z) (b : t) :
  in_session t0 last n b -> last <= now ->
  in_session t0 now (n + 1) (update_fatigue now b) /\
  fatigue b <= fatigue (update_fatigue now b).
Proof.
  intros (Hs & Hc & Hf) Hnow. split.
  - split; [exact Hs | split; [cbn; now rewrite Hc |]].
    intros now' Hnow'. rewrite update_fatigue_formula, Hs, Hc.
    apply fatigue_formula_mono; [qconst; lra | lia].
  - rewrite update_fatigue_formula, Hs, Hc. now apply Hf.
Qed.

Lemma fatigue_trace_spec (ts : list Q) :
  forall (t0 last : Q) (n : Z) (b : t),
    in_session t0 last n b -> clock_from last ts ->
    nondecreasing (fatigue b :: fatigue_trace ts b) /\
    (forall f, In f (fatigue_trace ts b) -> f <= 8 # 10) /\
    (forall (k : nat) (now : Q), nth_error ts k = Some now ->
       exists f, nth_error (fatigue_trace ts b) k = Some f /\
                 f == fatigue_formula ((now - t0) / 60) (n + Z.of_nat k)).
Proof.
  induction ts as [|now ts IH]; intros t0 last n b Hb Hclk.
  - cbn. repeat split; [tauto|]. intros [|k] now H; discriminate.
  - destruct Hclk as [Hnow Hclk].
    destruct (in_session_update t0 last now n b Hb Hnow) as [Hb' Hle].
    specialize (IH t0 now (n + 1)%Z _ Hb' Hclk) as (Hmono & Hcap & Hnth).
    cbn [fatigue_trace]. repeat split.
    + exact Hle.
    + exact Hmono.
    + intros f [<-|Hin]; [|now apply Hcap].
      rewrite update_fatigue_formula. apply fatigue_formula_cap.
    + intros [|k] now' Hk; cbn [nth_error] in Hk |- *.
      * injection Hk as <-. eexists; split; [reflexivity|].
        etransitivity; [apply update_fatigue_formula|].
        destruct Hb as (-> & -> & _).
        change (Z.of_nat 0) with 0%Z. now rewrite Z.add_0_r.
      * destruct (Hnth k now' Hk) as (f & Hf & Heq).
        exists f; split; [exact Hf|].
        etransitivity; [exact Heq|].
        now replace (n + 1 + Z.of_nat k)%Z with (n + Z.of_nat (S k))%Z by lia.
Qed.

End Fatigue.

(** C2.  In a session opened at [t0], for calls of [update_fatigue] made at
    clock readings [ts] that never run backwards: the fatigue never
    decreases from one call to the next (nor from its initial value), it
    never exceeds 0.8, and after the call number [k] (counted from 0) made
    at [now] it is [min(0.8, min(minutes/60, 0.5) + min(k/100, 0.3))],
    [k] being the action count that the call reads, that is the number of
    actions recorded before it. *)
Theorem fatigue_monotone_capped_formula :
  forall (t0 : Q) (r : HumanBehavior.init_draws) (ts : list Q),
    clock_from t0 ts ->
    let trace := HumanBehavior.fatigue_trace ts (HumanBehavior.__init__ t0 r) in
    nondecreasing (HumanBehavior.fatigue (HumanBehavior.__init__ t0 r) :: trace) /\
    (forall f, In f trace -> f <= 8 # 10) /\
    (forall (k : nat) (now : Q), nth_error ts k = Some now ->
       exists f, nth_error trace k = Some f /\
                 f == fatigue_formula ((now - t0) / 60) (Z.of_nat k)).
Proof.
  intros t0 r ts Hclk trace.
  exact (fatigue_trace_spec ts t0 t0 0%Z _ (in_session_init t0 r) Hclk).
Qed.

Lemma fatigue_monotone_capped_formula_witness :
  clock_from 0 [600; 1800] /\
  let trace :=
    HumanBehavior.fatigue_trace [600; 1800] (HumanBehavior.__init__ 0 some_draws) in
  nondecreasing
    (HumanBehavior.fatigue (HumanBehavior.__init__ 0 some_draws) :: trace) /\
  (forall f, In f trace -> f <= 8 # 10) /\
  (forall (k : nat) (now : Q), nth_error [600; 1800] k = Some now ->
     exists f, nth_error trace k = Some f /\
               f == fatigue_formula ((now - 0) / 60) (Z.of_nat k)).
Proof.
  assert (H : clock_from 0 [600; 1800]).
  { cbn. repeat split; unfold Qle; cbn; lia. }
  split; [exact H|].
  exact (fatigue_monotone_capped_formula 0 some_draws [600; 1800] H).
Defined.

(** ** Delays *)

(** C10.  For [0 <= base_min <= base_max], whatever the fatigue, the speed
    trait and the draws, [get_adjusted_delay] returns a delay of
    [[0.5 * base_min, 2 * base_max]]. *)
Theorem get_adjusted_delay_within_bounds :
  forall (b : HumanBehavior.t) (base_min base_max speed : Q)
         (r : HumanBehavior.delay_draws),
    0 <= base_min ->
    base_min <= base_max ->
    py_getitem (HumanBehavior.personality b) "speed" = Ok (PyNum speed) ->
    exists d : Q,
      HumanBehavior.get_adjusted_delay b base_min base_max r = Ok d /\
      (5 # 10) * base_min <= d /\ d <= 2 * base_max.
Proof.
  intros b base_min base_max speed r Hmin Hle Hsp.
  unfold HumanBehavior.get_adjusted_delay.
  rewrite Hsp. cbn [bind py_float].
  eexists. split; [reflexivity|].
  qmin_cases; lra.
Qed.

Lemma get_adjusted_delay_within_bounds_witness :
  exists d : Q,
    HumanBehavior.get_adjusted_delay
      (HumanBehavior.__init__ 0 some_draws) (1 # 10) (4 # 10)
      (HumanBehavior.mk_delay 50 (1 # 100) (9 # 10)) = Ok d /\
    (5 # 10) * (1 # 10) <= d /\ d <= 2 * (4 # 10).
Proof.
  apply (get_adjusted_delay_within_bounds
           (HumanBehavior.__init__ 0 some_draws) (1 # 10) (4 # 10)
           (uniform (7 # 10) (13 # 10) (1 # 2))).
  - unfold Qle; cbn; lia.
  - unfold Qle; cbn; lia.
  - reflexivity.
Defined.

(** ** Session limits *)

Section SessionLimits.

Import StealthBot.

Lemma later_refl (bot : t) : later bot bot.
Proof. repeat split; lia. Qed.

Lemma later_trans (a b c : t) : later a b -> later b c -> later a c.
Proof.
  intros (H1 & H2 & H3) (H4 & H5 & H6). repeat split; try congruence; lia.
Qed.

Lemma check_false_iff (bot : t) (now : Q) :
  _check_session_limits bot now = false <-> limit_reached bot now.
Proof.
  unfold _check_session_limits, limit_reached.
  destruct (session_start (stats bot)) as [t0|].
  - destruct (Qlt_le_dec _ _) as [Hlt|Hle].
    + destruct (Z.geb_spec (total (stats bot)) (max_actions_per_session (config bot)))
        as [Hge|Hnge].
      * split; [right; lia | reflexivity].
      * split; [discriminate|].
        intros [(t1 & [= <-] & H)|H]; [|lia].
        exfalso. apply (Qlt_not_le _ _ Hlt H).
    + split; [|reflexivity]. intros _. left. exists t0. now split.
  - destruct (Z.geb_spec (total (stats bot)) (max_actions_per_session (config bot)))
        as [Hge|Hnge].
    + split; [right; lia | reflexivity].
    + split; [discriminate|]. intros [(t1 & [=] & _)|H]. lia.
Qed.

Lemma limit_reached_later (bot bot' : t) (now now' : Q) :
  limit_reached bot now -> later bot bot' -> now <= now' ->
  limit_reached bot' now'.
Proof.
  intros [(t0 & Hs & Hd)|Ht] (Hc & Hs' & Htot) Hnow.
  - left. exists t0. rewrite Hs', Hc. split; [exact Hs|].
    eapply Qle_trans; [exact Hd|].
    unfold Qdiv. apply Qmult_le_compat_r; [lra | discriminate].
  - right. rewrite Hc. lia.
Qed.

Lemma process_content_later (bot : t) (url : string) (v : visit) :
  later bot (fst (fst (process_content bot url v))).
Proof.
  unfold process_content.
  destruct (negb _); cbn; [apply later_refl|].
  destruct (before_goto v); repeat split; cbn; lia.
Qed.

Lemma process_url_later (bot : t) (url : string) (v : visit) :
  later bot (fst (fst (process_url bot url v))).
Proof.
  unfold process_url, process_reel, process_post.
  destruct (str_contains "/reel/" _); [apply process_content_later|].
  destruct (str_contains "/p/" _); [apply process_content_later|].
  apply later_refl.
Qed.

Lemma process_urls_from_later (urls : list string) :
  forall (i : nat) (bot : t) (env : nat -> turn),
    later bot (fst (process_urls_from i bot urls env)).
Proof.
  induction urls as [|url rest IH]; intros i bot env; cbn [process_urls_from].
  - apply later_refl.
  - destruct (negb _); [apply later_refl|].
    pose proof (process_url_later bot url (the_visit (env i))) as H1.
    destruct (process_url bot url (the_visit (env i))) as [[bot' ok] ev].
    pose proof (IH (S i) bot' env) as H2.
    destruct (process_urls_from (S i) bot' rest env) as [bot'' ev'].
    cbn in *. eapply later_trans; eassumption.
Qed.

Lemma reachable_later (bot bot' : t) : reachable bot bot' -> later bot bot'.
Proof.
  induction 1 as [a b Hstep | a | a b c _ IH1 _ IH2].
  - destruct Hstep; [apply process_url_later | apply process_urls_from_later].
  - apply later_refl.
  - eapply later_trans; eassumption.
Qed.

(** A call made once a limit is reached changes nothing and opens no page. *)
Lemma process_content_terminated (bot : t) (url : string) (v : visit) :
  _check_session_limits bot (t_check v) = false ->
  process_content bot url v = (bot, false, [EvLimit]).
Proof. intros H. unfold process_content. now rewrite H. Qed.

Lemma process_url_terminated (bot : t) (url : string) (v : visit) :
  _check_session_limits bot (t_check v) = false ->
  fst (fst (process_url bot url v)) = bot /\ no_goto (snd (process_url bot url v)).
Proof.
  intros H. unfold process_url, process_reel, process_post.
  destruct (str_contains "/reel/" _);
    [rewrite process_content_terminated by exact H|
     destruct (str_contains "/p/" _);
     [rewrite process_content_terminated by exact H|]];
    (split; [reflexivity|]); intros u Hu; cbn in Hu; intuition discriminate.
Qed.

Lemma process_urls_from_terminated (bot : t) (urls : list string)
  (env : nat -> turn) (i : nat) :
  _check_session_limits bot (t_loop (env i)) = false ->
  fst (process_urls_from i bot urls env) = bot /\
  no_goto (snd (process_urls_from i bot urls env)).
Proof.
  intros H. destruct urls as [|url rest]; cbn [process_urls_from].
  - split; [reflexivity|]. intros u [].
  - rewrite H. cbn. split; [reflexivity|]. intros u [Hu|[]]; discriminate.
Qed.

Lemma no_goto_quiet (trace : list event) : no_goto trace -> quiet_after_limit trace.
Proof.
  intros H pre post -> u Hu. apply (H u).
  apply in_or_app. right. now right.
Qed.

Lemma process_url_events (bot : t) (url : string) (v : visit) :
  snd (process_url bot url v) = [] \/
  (snd (process_url bot url v) = [EvLimit] /\
   fst (fst (process_url bot url v)) = bot /\
   _check_session_limits bot (t_check v) = false) \/
  (exists u, snd (process_url bot url v) = [EvGoto u]).
Proof.
  unfold process_url, process_reel, process_post, process_content.
  destruct (str_contains "/reel/" _); [|destruct (str_contains "/p/" _)];
    try (left; reflexivity);
    (destruct (_check_session_limits bot (t_check v)) eqn:E; cbn [negb];
     [destruct (before_goto v); cbn [snd];
      [left; reflexivity | right; right; eexists; reflexivity]
     | right; left; repeat split]).
Qed.

Lemma process_urls_from_quiet (urls : list string) :
  forall (i : nat) (bot : t) (env : nat -> turn),
    clock_monotone env ->
    quiet_after_limit (snd (process_urls_from i bot urls env)).
Proof.
  induction urls as [|url rest IH]; intros i bot env Hclk; cbn [process_urls_from].
  - apply no_goto_quiet. intros u [].
  - destruct (_check_session_limits bot (t_loop (env i))) eqn:Eloop; cbn [negb].
    2:{ apply no_goto_quiet. intros u Hu; cbn in Hu; intuition discriminate. }
    pose proof (process_url_events bot url (the_visit (env i))) as Hev.
    destruct (process_url bot url (the_visit (env i))) as [[bot' ok] ev].
    cbn [fst snd] in Hev.
    destruct Hev as [->|[(-> & -> & Hchk)|[u ->]]].
    + specialize (IH (S i) bot' env Hclk).
      destruct (process_urls_from (S i) bot' rest env) as [bot'' ev']. exact IH.
    + assert (Hnext : _check_session_limits bot (t_loop (env (S i))) = false).
      { apply check_false_iff.
        apply (limit_reached_later bot bot (t_check (the_visit (env i))));
          [now apply check_false_iff | apply later_refl | apply Hclk]. }
      pose proof (process_urls_from_terminated bot rest env (S i) Hnext) as [_ Hq].
      destruct (process_urls_from (S i) bot rest env) as [bot'' ev'].
      cbn [fst snd] in *. apply no_goto_quiet.
      intros u [Hu|Hu]; [discriminate | exact (Hq u Hu)].
    + specialize (IH (S i) bot' env Hclk).
      destruct (process_urls_from (S i) bot' rest env) as [bot'' ev'].
      cbn [fst snd app] in *.
      intros [|e pre] post Heq; [discriminate|].
      injection Heq as _ Heq. exact (IH pre post Heq).
Qed.

End SessionLimits.

(** C5.  Once a limit of the session is reached (the count of actions is
    at least [max_actions_per_session], or the minutes elapsed since the
    start are at least [max_session_duration_minutes]),
    [_check_session_limits] fails, and it fails again at every later reading
    of the clock in every state that the URL-processing calls of the run
    lead to; from there [process_url] and [process_urls] leave the bot as
    it is and open no page.  In the trace of a whole [process_urls] run under
    a clock that never runs backwards, no page is opened after a failed
    check. *)
Theorem session_limit_is_absorbing :
  (forall (bot : StealthBot.t) (urls : list string) (env : nat -> StealthBot.turn),
      StealthBot.clock_monotone env ->
      quiet_after_limit (snd (StealthBot.process_urls bot urls env))) /\
  (forall (bot : StealthBot.t) (now : Q),
      limit_reached bot now ->
      StealthBot._check_session_limits bot now = false /\
      forall (bot' : StealthBot.t) (now' : Q),
        reachable bot bot' -> now <= now' ->
        StealthBot._check_session_limits bot' now' = false /\
        (forall (url : string) (v : StealthBot.visit),
            now' <= StealthBot.t_check v ->
            fst (fst (StealthBot.process_url bot' url v)) = bot' /\
            no_goto (snd (StealthBot.process_url bot' url v))) /\
        (forall (urls : list string) (env : nat -> StealthBot.turn) (i : nat),
            now' <= StealthBot.t_loop (env i) ->
            fst (StealthBot.process_urls_from i bot' urls env) = bot' /\
            no_goto (snd (StealthBot.process_urls_from i bot' urls env)))).
Proof.
  split.
  { intros bot urls env Hclk. now apply process_urls_from_quiet. }
  intros bot now Hlim. split; [now apply check_false_iff|].
  intros bot' now' Hreach Hnow.
  pose proof (reachable_later _ _ Hreach) as Hlater.
  assert (Hstop : forall t1, now' <= t1 ->
                             StealthBot._check_session_limits bot' t1 = false).
  { intros t1 Ht1. apply check_false_iff.
    apply (limit_reached_later bot bot' now t1 Hlim Hlater).
    eapply Qle_trans; eassumption. }
  split; [apply Hstop, Qle_refl|]. split.
  - intros url v Hv. apply process_url_terminated, Hstop, Hv.
  - intros urls env i Hi. apply process_urls_from_terminated, Hstop, Hi.
Qed.

Lemma session_limit_is_absorbing_witness :
  (StealthBot.clock_monotone steady_env /\
   quiet_after_limit
     (snd (StealthBot.process_urls spent_bot
             ["https://www.instagram.com/reel/a/"%string] steady_env))) /\
  (limit_reached spent_bot 5 /\
   StealthBot._check_session_limits spent_bot 5 = false).
Proof.
  assert (Hclk : StealthBot.clock_monotone steady_env).
  { intros i. split; unfold Qle; cbn; lia. }
  assert (Hlim : limit_reached spent_bot 5).
  { right. cbn. lia. }
  split; split.
  - exact Hclk.
  - exact (proj1 session_limit_is_absorbing spent_bot _ steady_env Hclk).
  - exact Hlim.
  - exact (proj1 (proj2 session_limit_is_absorbing spent_bot 5 Hlim)).
Defined.

(** ** The state file: loading *)

Section StateFile.

Import StealthBot.
Local Open Scope string_scope.

Lemma load_state_total (bot : t) (fs : state_file) :
  exists bot' : t, _load_state bot fs = Ok bot'.
Proof.
  destruct fs as [c|]; cbn [_load_state]; [|eexists; reflexivity].
  destruct (load_state_body bot c); cbn [try_except]; eexists; reflexivity.
Qed.

Lemma load_state_parsed (bot : t) (v : pyval) :
  (_load_state bot (Some (Parsed v)) = Ok bot /\
   (py_contains "personality" v <> Ok true \/
    forall p, py_getitem v "personality" <> Ok p)) \/
  (exists p : pyval,
      py_contains "personality" v = Ok true /\
      py_getitem v "personality" = Ok p /\
      _load_state bot (Some (Parsed v))
      = Ok (set_behavior bot (set_personality (behavior bot) p))).
Proof.
  cbn [_load_state]. unfold load_state_body. cbn [json_load bind].
  destruct (py_contains "personality" v) as [[|]|e] eqn:Hc; cbn [bind try_except].
  - destruct (py_getitem v "personality") as [p|e] eqn:Hg; cbn [bind try_except].
    + right. exists p. repeat split.
    + left. split; [reflexivity|]. right. intros p; discriminate.
  - left. split; [reflexivity|]. left. discriminate.
  - left. split; [reflexivity|]. left. discriminate.
Qed.


Lemma token_nonempty (cfg : StealthConfig) :
  token cfg <> "" -> String.eqb (token cfg) "" = false.
Proof. intros H. now apply String.eqb_neq. Qed.

End StateFile.

Section Startup.

Import StealthBot.
Local Open Scope string_scope.







End Startup.




(** ** Personality *)

Section Personality.

Import HumanBehavior.

Lemma uniform_within (a b u : Q) :
  a <= b -> unit_draw u -> a <= uniform a b u /\ uniform a b u <= b.
Proof. intros Hab [H0 H1]. unfold uniform. split; nra. Qed.

Lemma sample_personality_within (r : init_draws) :
  unit_draws r -> personality_within_bounds (sample_personality r).
Proof.
  intros (H1 & H2 & H3 & H4 & H5).
  repeat split; (eexists; split; [reflexivity|]);
    apply uniform_within; (assumption || (unfold Qle; cbn; lia)).
Qed.

Lemma run_updates_personality (ts : list Q) :
  forall b : t, personality (run_updates ts b) = personality b.
Proof.
  induction ts as [|now ts IH]; intros b; cbn [run_updates]; [reflexivity|].
  now rewrite IH.
Qed.

End Personality.

Section PersonalityOfBot.

Import StealthBot.

Lemma process_content_personality (bot : t) (url : string) (v : visit) :
  personality_of (fst (fst (process_content bot url v))) = personality_of bot.
Proof.
  unfold process_content. destruct (negb _); cbn; [reflexivity|].
  destruct (before_goto v); cbn; [reflexivity|].
  apply run_updates_personality.
Qed.

Lemma process_url_personality (bot : t) (url : string) (v : visit) :
  personality_of (fst (fst (process_url bot url v))) = personality_of bot.
Proof.
  unfold process_url, process_reel, process_post.
  destruct (str_contains "/reel/" _); [apply process_content_personality|].
  destruct (str_contains "/p/" _); [apply process_content_personality|].
  reflexivity.
Qed.

Lemma process_urls_from_personality (urls : list string) :
  forall (i : nat) (bot : t) (env : nat -> turn),
    personality_of (fst (process_urls_from i bot urls env)) = personality_of bot.
Proof.
  induction urls as [|url rest IH]; intros i bot env; cbn [process_urls_from].
  - reflexivity.
  - destruct (negb _); [reflexivity|].
    pose proof (process_url_personality bot url (the_visit (env i))) as H1.
    destruct (process_url bot url (the_visit (env i))) as [[bot' ok] ev].
    pose proof (IH (S i) bot' env) as H2.
    destruct (process_urls_from (S i) bot' rest env) as [bot'' ev'].
    cbn in *. congruence.
Qed.

Lemma reachable_personality (bot bot' : t) :
  reachable bot bot' -> personality_of bot' = personality_of bot.
Proof.
  induction 1 as [a b Hstep | a | a b c _ IH1 _ IH2].
  - destruct Hstep; [apply process_url_personality | apply process_urls_from_personality].
  - reflexivity.
  - congruence.
Qed.

End PersonalityOfBot.

(** C6, as the code has it.  A freshly sampled personality has each trait
    within its declared bounds.  A personality restored from the state file
    is the ['personality'] member of the record, taken as it is: no bound and
    no shape is checked.  After construction nothing changes the traits:
    neither [update_fatigue] nor the processing of URLs. *)
Theorem personality_fresh_bounded_restored_verbatim :
  (forall (now : Q) (r : HumanBehavior.init_draws),
      unit_draws r ->
      personality_within_bounds
        (HumanBehavior.personality (HumanBehavior.__init__ now r))) /\
  (forall (cfg : StealthBot.StealthConfig) (now : Q)
          (r : HumanBehavior.init_draws) (v p : pyval),
      StealthBot.token cfg <> ""%string ->
      py_contains "personality" v = Ok true ->
      py_getitem v "personality" = Ok p ->
      exists bot : StealthBot.t,
        StealthBot.__init__ cfg now r (Some (StealthBot.Parsed v)) = Ok bot /\
        personality_of bot = p) /\
  (forall (b : HumanBehavior.t) (ts : list Q),
      HumanBehavior.personality (HumanBehavior.run_updates ts b)
      = HumanBehavior.personality b) /\
  (forall bot bot' : StealthBot.t,
      reachable bot bot' -> personality_of bot' = personality_of bot).
Proof.
  split; [|split; [|split]].
  - intros now r Hr. now apply sample_personality_within.
  - intros cfg now r v p Htok Hc Hg.
    unfold StealthBot.__init__. rewrite (token_nonempty cfg Htok).
    cbn [StealthBot._load_state]. unfold StealthBot.load_state_body.
    cbn [StealthBot.json_load bind]. rewrite Hc. cbn [bind]. rewrite Hg.
    cbn [bind try_except]. eexists. split; reflexivity.
  - intros b ts. apply run_updates_personality.
  - apply reachable_personality.
Qed.

Lemma personality_fresh_bounded_restored_verbatim_witness :
  (unit_draws some_draws /\
   personality_within_bounds
     (HumanBehavior.personality (HumanBehavior.__init__ 0 some_draws))) /\
  exists bot : StealthBot.t,
    StealthBot.__init__ sample_config 0 some_draws
      (Some (StealthBot.Parsed hasty_record)) = Ok bot /\
    personality_of bot = hasty_personality.
Proof.
  assert (Hu : unit_draws some_draws).
  { repeat split; unfold Qle, Qlt; cbn; lia. }
  split; [split; [exact Hu|]|].
  - exact (proj1 personality_fresh_bounded_restored_verbatim 0 some_draws Hu).
  - apply (proj1 (proj2 personality_fresh_bounded_restored_verbatim)
             sample_config 0 some_draws hasty_record).
    + cbn. discriminate.
    + reflexivity.
    + reflexivity.
Defined.

(** C6 as stated fails: restored from a record whose speed is 5, the
    personality lies outside the declared bounds. *)
Lemma restored_personality_out_of_bounds :
  exists bot : StealthBot.t,
    StealthBot.__init__ sample_config 0 some_draws
      (Some (StealthBot.Parsed hasty_record)) = Ok bot /\
    ~ personality_within_bounds (personality_of bot).
Proof.
  eexists. split; [reflexivity|].
  intros ((q & Hq & _ & Hhi) & _).
  cbn in Hq. injection Hq as <-.
  revert Hhi. unfold Qle; cbn; lia.
Qed.

(** ** The state file: saving *)

Section SaveState.

Import StealthBot.

Lemma save_state_written (bot : t) (now : Q) (fs : state_file) :
  _save_state bot now = (Ok tt, fs) ->
  fs = Some (Parsed (save_state_record bot now)).
Proof.
  unfold _save_state.
  destruct (json_serializable (save_state_record bot now)); congruence.
Qed.

(** Once [start] has stored a [datetime] in [stats], [json.dump] raises and
    the file is left unfinished. *)
Lemma save_state_after_start_raises (bot : t) (now t0 : Q) :
  session_start (stats bot) = Some t0 ->
  _save_state bot now = (Raise TypeError, Some Unparsable).
Proof.
  intros H. unfold _save_state.
  replace (json_serializable (save_state_record bot now)) with false; [reflexivity|].
  unfold save_state_record, stats_dict. rewrite H.
  cbn. now rewrite !andb_false_r.
Qed.

End SaveState.

(** C4, as the code has it.  The record that [_save_state] builds at
    shutdown has exactly three members: ['personality'], the traits;
    ['last_session'], the instant of the call; ['stats'], the counters
    [total], [likes], [follows], [errors] and the [session_start] of the
    run.  It holds neither the fatigue nor the [session_start] and
    [actions_count] of [HumanBehavior].  Whenever the write succeeds, the
    file holds that record. *)
Theorem save_state_record_contents :
  forall (bot : StealthBot.t) (now : Q),
    let record := StealthBot.save_state_record bot now in
    record_keys record
    = ["personality"%string; "last_session"%string; "stats"%string] /\
    py_getitem record "personality"
    = Ok (HumanBehavior.personality (StealthBot.behavior bot)) /\
    py_getitem record "last_session" = Ok (PyIsoStr now) /\
    py_getitem record "stats" = Ok (StealthBot.stats_dict (StealthBot.stats bot)) /\
    record_keys (StealthBot.stats_dict (StealthBot.stats bot))
    = ["total"%string; "likes"%string; "follows"%string; "errors"%string;
       "session_start"%string] /\
    (forall (f t0 : Q) (n : Z),
        StealthBot.save_state_record
          (StealthBot.set_behavior bot
             (HumanBehavior.mk f t0 n
                (HumanBehavior.personality (StealthBot.behavior bot))))
          now
        = record) /\
    (forall fs : StealthBot.state_file,
        StealthBot.stop bot now = (Ok tt, fs) ->
        fs = Some (StealthBot.Parsed record)).
Proof.
  intros bot now record. repeat split.
  intros fs H. now apply save_state_written.
Qed.

Lemma save_state_record_contents_witness :
  StealthBot.stop idle_bot 100
  = (Ok tt, Some (StealthBot.Parsed (StealthBot.save_state_record idle_bot 100))) /\
  Some (StealthBot.Parsed (StealthBot.save_state_record idle_bot 100))
  = Some (StealthBot.Parsed (StealthBot.save_state_record idle_bot 100)).
Proof.
  assert (H : StealthBot.stop idle_bot 100
              = (Ok tt, Some (StealthBot.Parsed
                                (StealthBot.save_state_record idle_bot 100)))).
  { reflexivity. }
  split; [exact H|].
  exact (proj2 (proj2 (proj2 (proj2 (proj2 (proj2
           (save_state_record_contents idle_bot 100))))))
           _ H).
Defined.

(** C4 as stated fails: at the shutdown of a bot that never started, the
    write succeeds and the record written holds the counters too. *)
Lemma save_state_persists_stats :
  exists record : pyval,
    StealthBot.stop idle_bot 100 = (Ok tt, Some (StealthBot.Parsed record)) /\
    In "stats"%string (record_keys record) /\
    ~ (forall k : string,
          In k (record_keys record) ->
          k = "personality"%string \/ k = "last_session"%string).
Proof.
  eexists. split; [reflexivity|]. split.
  - cbn. tauto.
  - intros H. destruct (H "stats"%string) as [E|E]; [cbn; tauto | discriminate..].
Qed.

(** * Further properties of the code *)

(** ** The pointer *)

Section Pointer.

Import AdvancedMouseSimulator.
Local Open Scope R_scope.

Lemma py_int_IZR (z : Z) : py_int (IZR z) = z.
Proof.
  unfold py_int. destruct (Rle_dec 0 (IZR z)) as [H|H].
  - symmetry. apply Int_part_spec. lra.
  - rewrite <- opp_IZR. rewrite <- (Int_part_spec (IZR (- z)) (- z)%Z); [lia | lra].
Qed.

(** Truncation moves a float by less than one, towards zero. *)
Lemma py_int_near (x : R) : Rabs (IZR (py_int x) - x) < 1.
Proof.
  unfold py_int. destruct (Rle_dec 0 x) as [H|H].
  - destruct (base_Int_part x) as [H1 H2]. apply Rabs_def1; lra.
  - destruct (base_Int_part (- x)) as [H1 H2]. rewrite opp_IZR.
    apply Rabs_def1; lra.
Qed.

Lemma py_int_shift (z : Z) (e c : R) :
  Rabs e <= c -> Rabs (IZR (py_int (IZR z + e)) - IZR z) < c + 1.
Proof.
  intros He. pose proof (py_int_near (IZR z + e)) as H.
  apply Rabs_def2 in H. destruct H as [H1 H2].
  assert (He' : - c <= e <= c).
  { split; [|eapply Rle_trans; [apply Rle_abs|exact He]].
    pose proof (Rle_abs (- e)) as H3. rewrite Rabs_Ropp in H3. lra. }
  apply Rabs_def1; lra.
Qed.

Lemma perlin_three (t : R) :
  _perlin_noise t 3
  = sin (2 * PI * t) + sin (2 * (2 * PI * t)) / 2 + sin (2 * (2 * (2 * PI * t))) / 4.
Proof.
  unfold _perlin_noise. cbn [seq fold_left pow].
  replace (t * 1 * 2 * PI) with (2 * PI * t) by ring.
  replace (t * (2 * 1) * 2 * PI) with (2 * (2 * PI * t)) by ring.
  replace (t * (2 * (2 * 1)) * 2 * PI) with (2 * (2 * (2 * PI * t))) by ring.
  field.
Qed.

Lemma sin_shift_turns (x : R) (k : nat) : sin (x + 2 * INR k * PI) = sin x.
Proof. apply sin_period. Qed.

Lemma perlin_three_period (t : R) : _perlin_noise (t + 100) 3 = _perlin_noise t 3.
Proof.
  rewrite !perlin_three.
  replace (2 * PI * (t + 100)) with (2 * PI * t + 2 * INR 100 * PI)
    by (rewrite (INR_IZR_INZ 100); simpl; ring).
  replace (2 * (2 * PI * t + 2 * INR 100 * PI))
    with (2 * (2 * PI * t) + 2 * INR 200 * PI)
    by (rewrite (INR_IZR_INZ 100), (INR_IZR_INZ 200); simpl; ring).
  replace (2 * (2 * (2 * PI * t) + 2 * INR 200 * PI))
    with (2 * (2 * (2 * PI * t)) + 2 * INR 400 * PI)
    by (rewrite (INR_IZR_INZ 200), (INR_IZR_INZ 400); simpl; ring).
  now rewrite !sin_period.
Qed.

(** The three octaves as a polynomial in the sine and cosine of the first. *)
Lemma perlin_three_poly (t : R) :
  _perlin_noise t 3
  = sin (2 * PI * t) * (1 + 2 * (cos (2 * PI * t) * cos (2 * PI * t) * cos (2 * PI * t))).
Proof.
  rewrite perlin_three.
  set (x := 2 * PI * t).
  rewrite (sin_2a (2 * x)), (cos_2a x), (sin_2a x).
  pose proof (sin2_cos2 x) as H. unfold Rsqr in H.
  assert (Hs : sin x * sin x = 1 - cos x * cos x) by lra.
  rewrite Hs. field.
Qed.

Lemma poly_bound (s c : R) :
  s * s + c * c = 1 ->
  (s * (1 + 2 * (c * c * c))) * (s * (1 + 2 * (c * c * c))) <= 9 / 4.
Proof.
  intros H.
  assert (Hc : -1 <= c <= 1) by (split; nra).
  replace ((s * (1 + 2 * (c * c * c))) * (s * (1 + 2 * (c * c * c))))
    with ((s * s) * ((1 + 2 * (c * c * c)) * (1 + 2 * (c * c * c)))) by ring.
  replace (s * s) with (1 - c * c) by lra.
  set (A := 1 - c * c). set (B := (1 + 2 * (c * c * c))).
  assert (HA : 0 <= A <= 1) by (unfold A; nra).
  destruct (Rle_dec c 0) as [H0|H0].
  - assert (-1 <= B <= 1) by (unfold B; nra). nra.
  - assert (Hc3 : forall b, c <= b -> c * c * c <= b * b * b)     by (intros b Hb; assert (c * c <= b * b) by nra;
        assert (0 <= c * c) by nra; nra).
    assert (HB0 : 1 <= B) by (unfold B; nra).
    destruct (Rle_dec c (1/2)).
    { assert (B <= 5/4) by (unfold B; specialize (Hc3 (1/2)); lra). nra. }
    destruct (Rle_dec c (7/10)).
    { assert (B <= 1 + 2 * (343/1000)) by (unfold B; specialize (Hc3 (7/10)); lra).
      assert (A <= 3/4) by (unfold A; nra). nra. }
    destruct (Rle_dec c (8/10)).
    { assert (B <= 1 + 2 * (512/1000)) by (unfold B; specialize (Hc3 (8/10)); lra).
      assert (A <= 51/100) by (unfold A; nra). nra. }
    destruct (Rle_dec c (9/10)).
    { assert (B <= 1 + 2 * (729/1000)) by (unfold B; specialize (Hc3 (9/10)); lra).
      assert (A <= 36/100) by (unfold A; nra). nra. }
    { assert (B <= 3) by (unfold B; specialize (Hc3 1); lra).
      assert (A <= 19/100) by (unfold A; nra). nra. }
Qed.

Lemma perlin_three_bound (t : R) : Rabs (_perlin_noise t 3) <= 3 / 2.
Proof.
  rewrite perlin_three_poly.
  set (s := sin (2 * PI * t)). set (c := cos (2 * PI * t)).
  assert (H : s * s + c * c = 1).
  { pose proof (sin2_cos2 (2 * PI * t)) as H. unfold Rsqr in H. exact H. }
  pose proof (poly_bound s c H) as Hb.
  set (f := s * (1 + 2 * (c * c * c))) in *.
  apply Rabs_le. split; nra.
Qed.

Lemma Ok_inj {A : Type} (a b : A) : Ok a = Ok b -> a = b.
Proof. now intros [= ->]. Qed.

Lemma catmull_rom_at_0 (a0 a1 a2 a3 : R) : catmull_rom a0 a1 a2 a3 0 = a1.
Proof. unfold catmull_rom. field. Qed.

Lemma catmull_rom_at_1 (a0 a1 a2 a3 : R) : catmull_rom a0 a1 a2 a3 1 = a2.
Proof. unfold catmull_rom. field. Qed.

Lemma flat_map_length_const {A B : Type} (f : A -> list B) (k : nat) (l : list A) :
  (forall a, In a l -> List.length (f a) = k) ->
  List.length (flat_map f l) = (List.length l * k)%nat.
Proof.
  induction l as [|a l IH]; intros H; cbn [flat_map List.length]; [reflexivity|].
  rewrite length_app, (H a (or_introl eq_refl)), IH; [lia|].
  intros b Hb. apply H. now right.
Qed.

Lemma spline_segment_length (extended : list point) (d : point) (sps : Z) (seg : nat) :
  List.length (spline_segment extended d sps seg) = Z.to_nat sps.
Proof. unfold spline_segment. now rewrite length_map, length_seq. Qed.

Lemma spline_unfold (p q : point) (rest : list point) (n : Z) :
  _catmull_rom_spline (p :: q :: rest) n
  = Ok (flat_map
          (spline_segment (extended_of p q rest) p
             (n / Z.of_nat (S (List.length rest))))
          (seq 0 (S (List.length rest)))
          ++ [int_point (last (p :: q :: rest) p)]).
Proof.
  unfold _catmull_rom_spline, extended_of.
  replace (List.length ([p] ++ (p :: q :: rest) ++ [last (p :: q :: rest) p]) - 3)%nat
    with (S (List.length rest)).
  - reflexivity.
  - cbn [app List.length]. rewrite length_app. cbn [List.length]. lia.
Qed.

Lemma spline_length (p q : point) (rest : list point) (n : Z) (path : list ipoint) :
  _catmull_rom_spline (p :: q :: rest) n = Ok path ->
  List.length path
  = (S (List.length rest) * Z.to_nat (n / Z.of_nat (S (List.length rest))) + 1)%nat.
Proof.
  rewrite spline_unfold. intros H; apply Ok_inj in H; subst path.
  rewrite length_app, (flat_map_length_const _ (Z.to_nat (n / Z.of_nat (S (List.length rest))))).
  - rewrite length_seq. cbn [List.length]. lia.
  - intros a _. apply spline_segment_length.
Qed.

Lemma spline_last (points : list point) (n : Z) (path : list ipoint) (d : point) (e : ipoint) :
  _catmull_rom_spline points n = Ok path ->
  path <> [] /\ last path e = int_point (last points d).
Proof.
  destruct points as [|p [|q rest]].
  - discriminate.
  - intros [= <-]. split; [discriminate | reflexivity].
  - rewrite spline_unfold. intros H; apply Ok_inj in H; subst path. split.
    + intros H. apply app_eq_nil in H. destruct H; discriminate.
    + rewrite last_last. f_equal. 
      change (last (p :: q :: rest) p) with (last (q :: rest) p).
      change (last (p :: q :: rest) d) with (last (q :: rest) d).
      generalize q. induction rest as [|r rest IH]; intros q0; [reflexivity|].
      apply (IH r).
Qed.

Lemma spline_first (p q : point) (rest : list point) (n : Z) (path : list ipoint) (e : ipoint) :
  (Z.of_nat (S (List.length rest)) <= n)%Z ->
  _catmull_rom_spline (p :: q :: rest) n = Ok path ->
  hd e path = int_point p.
Proof.
  intros Hn. rewrite spline_unfold. intros H; apply Ok_inj in H; subst path.
  set (segments := S (List.length rest)) in *.
  assert (Hsps : (1 <= n / Z.of_nat segments)%Z).
  { apply Z.div_le_lower_bound; lia. }
  unfold segments at 2. cbn [seq flat_map].
  unfold spline_segment at 1.
  destruct (Z.to_nat (n / Z.of_nat segments)) as [|k] eqn:Ek; [lia|].
  cbn [seq map app hd nth Nat.add].
  unfold spline_sample, int_point. cbn [INR].
  replace (0 / IZR (n / Z.of_nat segments)) with 0 by (unfold Rdiv; ring).
  now rewrite !catmull_rom_at_0.
Qed.

Lemma spline_empty (n : Z) : _catmull_rom_spline [] n = Raise IndexError.
Proof. reflexivity. Qed.

(** ** Truncation of non-negative floats *)

Lemma py_int_floor (x : R) :
  0 <= x -> IZR (py_int x) <= x < IZR (py_int x) + 1.
Proof.
  intros H. unfold py_int. destruct (Rle_dec 0 x) as [_|N]; [|contradiction].
  destruct (base_Int_part x) as [H1 H2]. lra.
Qed.

Lemma py_int_nonneg (x : R) : 0 <= x -> (0 <= py_int x)%Z.
Proof.
  intros H. destruct (py_int_floor x H) as [_ H2].
  apply Z.lt_succ_r. apply lt_IZR. rewrite succ_IZR. lra.
Qed.

(** Twenty times more samples than control points. *)
Lemma samples_vs_controls (d : R) :
  0 <= d -> (20 * py_int (d / 100) <= py_int (d / 5))%Z.
Proof.
  intros H.
  assert (Ha : 0 <= d / 100) by lra.
  assert (Hb : 0 <= d / 5) by lra.
  destruct (py_int_floor (d / 100) Ha) as [H1 _].
  destruct (py_int_floor (d / 5) Hb) as [_ H2].
  apply Z.lt_succ_r. apply lt_IZR. rewrite succ_IZR, mult_IZR. lra.
Qed.

(** ** Control points *)

Lemma distance_to_eq (start target : ipoint) :
  sqrt (IZR (fst target - fst start) * IZR (fst target - fst start)
        + IZR (snd target - snd start) * IZR (snd target - snd start))
  = distance_to start target.
Proof.
  unfold distance_to. f_equal.
  rewrite plus_IZR, <- !mult_IZR. f_equal; f_equal; ring.
Qed.

Lemma distance_to_nonneg (start target : ipoint) : 0 <= distance_to start target.
Proof. apply sqrt_pos. Qed.

Lemma control_points_shape (start target : ipoint) (ov : bool) (r : move_draws) :
  exists (q : point) (rest : list point),
    _generate_control_points start target ov r = as_point start :: q :: rest /\
    List.length rest = (num_controls_of start target + (if ov then 1 else 0))%nat /\
    (2 <= num_controls_of start target)%nat /\
    forall d, last (_generate_control_points start target ov r) d = as_point target.
Proof.
  unfold _generate_control_points. rewrite distance_to_eq.
  fold (num_controls_of start target).
  assert (Hnc : (2 <= num_controls_of start target)%nat).
  { unfold num_controls_of. lia. }
  set (f := control_point start _ _ _ _ r).
  destruct (num_controls_of start target) as [|k] eqn:Ek; [lia|].
  cbn [seq map app]. eexists _, _. split; [reflexivity|]. split; [|split].
  - rewrite !length_app, length_map, length_seq. destruct ov; cbn [List.length]; lia.
  - lia.
  - intros d.
    change (as_point start :: f 0%nat :: ?l) with ([as_point start; f 0%nat] ++ l).
    rewrite !app_assoc. apply last_last.
Qed.

(** ** Emission *)

Lemma emit_from_length (off : R) (path : list ipoint) :
  forall i, List.length (emit_from off i path) = List.length path.
Proof.
  induction path as [|p path IH]; intros i; cbn [emit_from List.length]; [reflexivity|].
  now rewrite IH.
Qed.

Lemma emit_from_nth (off : R) (path : list ipoint) :
  forall (i k : nat) (p : ipoint),
    nth_error path k = Some p ->
    nth_error (emit_from off i path) k = Some (emit_sample off (i + k) p).
Proof.
  induction path as [|q path IH]; intros i k p H.
  - destruct k; discriminate.
  - destruct k as [|k]; cbn [emit_from nth_error] in *.
    + injection H as ->. now rewrite Nat.add_0_r.
    + rewrite (IH (S i) k p H). f_equal. f_equal. lia.
Qed.

Lemma emit_from_last (off : R) (path : list ipoint) :
  forall (i : nat) (e e' : ipoint),
    path <> [] ->
    last (emit_from off i path) e
    = emit_sample off (i + List.length path - 1) (last path e').
Proof.
  induction path as [|p path IH]; intros i e e' H; [contradiction|].
  destruct path as [|q path].
  - cbn. f_equal. lia.
  - change (emit_from off i (p :: q :: path))
      with (emit_sample off i p :: emit_from off (S i) (q :: path)).
    change (last (p :: q :: path) e') with (last (q :: path) e').
    assert (Hne : emit_from off (S i) (q :: path) <> []) by (cbn; discriminate).
    destruct (emit_from off (S i) (q :: path)) as [|x xs] eqn:E; [contradiction|].
    change (last (emit_sample off i p :: x :: xs) e) with (last (x :: xs) e).
    rewrite <- E, (IH (S i) e e') by discriminate.
    f_equal. cbn [List.length]. lia.
Qed.

Lemma tremor_y_is_tremor_x (off : R) (i : nat) : tremor_y off i = tremor_x off i.
Proof. unfold tremor_y, tremor_x. now rewrite perlin_three_period. Qed.

Lemma tremor_x_bound (off : R) (i : nat) : Rabs (tremor_x off i) <= 3.
Proof.
  unfold tremor_x. rewrite Rabs_mult, (Rabs_right 2) by lra.
  pose proof (perlin_three_bound (off + INR i * (1 / 10))). lra.
Qed.

Lemma Zabs_le_of_Rabs_lt (a b : Z) (c : Z) :
  Rabs (IZR a - IZR b) < IZR c + 1 -> (Z.abs (a - b) <= c)%Z.
Proof.
  intros H. apply Rabs_def2 in H. destruct H as [H1 H2].
  rewrite <- minus_IZR in H1, H2.
  assert (a - b < c + 1)%Z by (apply lt_IZR; rewrite plus_IZR; lra).
  assert (- (c + 1) < a - b)%Z by (apply lt_IZR; rewrite opp_IZR, plus_IZR; lra).
  lia.
Qed.

(** Every sample sent is within 3 of the sample of the path, on each axis. *)
Lemma emit_sample_near (off : R) (i : nat) (p : ipoint) :
  (Z.abs (fst (emit_sample off i p) - fst p) <= 3)%Z /\
  (Z.abs (snd (emit_sample off i p) - snd p) <= 3)%Z.
Proof.
  unfold emit_sample; cbn [fst snd]. split; apply Zabs_le_of_Rabs_lt.
  - apply (py_int_shift (fst p) (tremor_x off i) 3), tremor_x_bound.
  - apply (py_int_shift (snd p) (tremor_y off i) 3).
    rewrite tremor_y_is_tremor_x. apply tremor_x_bound.
Qed.

Lemma int_as_point (p : ipoint) : int_point (as_point p) = p.
Proof. destruct p as [x y]. unfold int_point, as_point; cbn. now rewrite !py_int_IZR. Qed.

Lemma near_is_short (pos target : ipoint) :
  (Z.abs (fst pos - fst target) <= 3)%Z ->
  (Z.abs (snd pos - snd target) <= 3)%Z ->
  distance_to pos target < 5.
Proof.
  intros Hx Hy. unfold distance_to.
  replace 5 with (sqrt 25).
  2:{ replace 25 with (5 * 5) by lra. apply sqrt_square. lra. }
  apply sqrt_lt_1.
  - apply IZR_le. nia.
  - lra.
  - apply IZR_lt. nia.
Qed.

Lemma move_leg_short (b : HumanBehavior.t) (pos target : ipoint)
  (allow : bool) (r : move_draws) :
  distance_to pos target < 5 -> move_leg b pos target allow r = Ok None.
Proof.
  intros H. unfold move_leg. now destruct (Rlt_dec (distance_to pos target) 5).
Qed.

Lemma move_leg_raises (b : HumanBehavior.t) (pos target : ipoint)
  (allow : bool) (r : move_draws) (e : pyexc) :
  ~ distance_to pos target < 5 ->
  overshoot_decision b (distance_to pos target) allow r = Raise e ->
  move_leg b pos target allow r = Raise e.
Proof.
  intros H Hd. unfold move_leg.
  destruct (Rlt_dec (distance_to pos target) 5); [contradiction|].
  unfold overshoot_decision in Hd. now rewrite Hd.
Qed.

Lemma spline_of_controls (pos target : ipoint) (ov : bool) (r : move_draws) :
  exists path : list ipoint,
    _catmull_rom_spline (_generate_control_points pos target ov r)
      (num_points_of pos target) = Ok path /\
    hd pos path = pos /\ last path pos = target /\
    List.length path
    = ((num_controls_of pos target + (if ov then 1 else 0) + 1)
       * Z.to_nat (num_points_of pos target
                   / Z.of_nat (num_controls_of pos target + (if ov then 1 else 0) + 1))
       + 1)%nat.
Proof.
  destruct (control_points_shape pos target ov r) as (q & rest & Hc & Hlen & Hnc & Hlast).
  rewrite Hc in *.
  destruct (_catmull_rom_spline (as_point pos :: q :: rest) (num_points_of pos target))
    as [path|e] eqn:Hs.
  2:{ rewrite spline_unfold in Hs. discriminate. }
  exists path. split; [reflexivity|].
  assert (Hseg : S (List.length rest)
                 = (num_controls_of pos target + (if ov then 1 else 0) + 1)%nat) by lia.
  split; [|split].
  - rewrite (spline_first _ _ _ _ _ pos) with (2 := Hs); [apply int_as_point|].
    rewrite Hseg. unfold num_points_of, num_controls_of.
    pose proof (samples_vs_controls _ (distance_to_nonneg pos target)) as H20.
    pose proof (py_int_nonneg (distance_to pos target / 100)) as H0.
    assert (0 <= distance_to pos target / 100).
    { pose proof (distance_to_nonneg pos target). lra. }
    specialize (H0 H). destruct ov; lia.
  - destruct (spline_last _ _ _ (as_point pos) pos Hs) as [_ Hl].
    rewrite Hl, Hlast. apply int_as_point.
  - rewrite (spline_length _ _ _ _ _ Hs), Hseg. reflexivity.
Qed.

Lemma move_leg_long (b : HumanBehavior.t) (pos target : ipoint)
  (allow ov : bool) (r : move_draws) :
  ~ distance_to pos target < 5 ->
  overshoot_decision b (distance_to pos target) allow r = Ok ov ->
  exists lg : leg,
    move_leg b pos target allow r = Ok (Some lg) /\
    overshoot lg = ov /\
    controls lg = _generate_control_points pos target ov r /\
    _catmull_rom_spline (controls lg) (num_points_of pos target) = Ok (path lg) /\
    emitted lg = emit_from (time_u r * 1000) 0 (path lg).
Proof.
  intros H Hd. unfold move_leg.
  destruct (Rlt_dec (distance_to pos target) 5); [contradiction|].
  unfold overshoot_decision in Hd. rewrite Hd. cbn [bind].
  destruct (spline_of_controls pos target ov r) as (p & Hs & _).
  unfold num_points_of in Hs. rewrite Hs. cbn [bind].
  eexists. split; [reflexivity|]. cbn. repeat split. exact Hs.
Qed.

Lemma leg_end_near (pos target : ipoint) (ov : bool) (r : move_draws) (p : list ipoint) (off : R) :
  _catmull_rom_spline (_generate_control_points pos target ov r)
    (num_points_of pos target) = Ok p ->
  let pos1 := last (emit_from off 0 p) pos in
  pos1 = emit_sample off (List.length p - 1) target /\
  (Z.abs (fst pos1 - fst target) <= 3)%Z /\
  (Z.abs (snd pos1 - snd target) <= 3)%Z.
Proof.
  intros Hs pos1.
  destruct (spline_of_controls pos target ov r) as (p' & Hs' & _ & Hlast & _).
  rewrite Hs in Hs'. apply Ok_inj in Hs'. subst p'.
  destruct (spline_last _ _ _ (as_point pos) pos Hs) as [Hne _].
  assert (E : pos1 = emit_sample off (List.length p - 1) target).
  { unfold pos1. rewrite (emit_from_last off p 0 pos pos Hne), Hlast. reflexivity. }
  split; [exact E|]. rewrite E. apply emit_sample_near.
Qed.

Lemma move_to_short_route_holds :
  forall (b : HumanBehavior.t) (pos target : ipoint) (allow : bool)
         (r1 r2 : move_draws),
    distance_to pos target < 5 ->
    move_to b pos target allow r1 r2 = Ok ([], pos).
Proof.
  intros b pos target allow r1 r2 H. unfold move_to.
  now rewrite (move_leg_short b pos target allow r1 H).
Qed.

Lemma move_to_one_trajectory_holds :
  forall (b : HumanBehavior.t) (pos target : ipoint) (allow ov : bool)
         (r1 r2 : move_draws),
    ~ distance_to pos target < 5 ->
    overshoot_decision b (distance_to pos target) allow r1 = Ok ov ->
    exists (path sent : list ipoint),
      _catmull_rom_spline (_generate_control_points pos target ov r1)
        (num_points_of pos target) = Ok path /\
      hd pos path = pos /\ last path pos = target /\
      sent = emit_from (time_u r1 * 1000) 0 path /\
      List.length sent = List.length path /\
      move_to b pos target allow r1 r2 = Ok ([sent], last sent pos) /\
      last sent pos = emit_sample (time_u r1 * 1000) (List.length path - 1) target /\
      (Z.abs (fst (last sent pos) - fst target) <= 3)%Z /\
      (Z.abs (snd (last sent pos) - snd target) <= 3)%Z.
Proof.
  intros b pos target allow ov r1 r2 Hd Hov.
  destruct (move_leg_long b pos target allow ov r1 Hd Hov)
    as (lg & Hleg & Hflag & Hc & Hs & He).
  rewrite Hc in Hs.
  destruct (spline_of_controls pos target ov r1) as (p' & Hs' & Hhd & Hlast & _).
  rewrite Hs in Hs'. apply Ok_inj in Hs'. subst p'.
  destruct (leg_end_near pos target ov r1 (path lg) (time_u r1 * 1000) Hs)
    as (Hend & Hx & Hy).
  exists (path lg), (emitted lg). rewrite <- He in *.
  split; [exact Hs|]. split; [exact Hhd|]. split; [exact Hlast|].
  split; [reflexivity|]. split; [rewrite He; apply emit_from_length|].
  split; [|split; [exact Hend | split; assumption]].
  unfold move_to. rewrite Hleg. cbn [bind].
  rewrite (move_leg_short b _ target false r2 (near_is_short _ _ Hx Hy)).
  cbn [bind]. now destruct (overshoot lg).
Qed.

(** ** [atan2] gives the direction of its arguments *)

Lemma sqrt_one_plus_sqr (x y : R) :
  x <> 0 -> sqrt (1 + (y / x)²) = sqrt (x * x + y * y) / Rabs x.
Proof.
  intros Hx.
  assert (Hax : 0 < Rabs x) by now apply Rabs_pos_lt.
  assert (Hs : 0 <= sqrt (x * x + y * y)) by apply sqrt_pos.
  apply sqrt_lem_1.
  - unfold Rsqr. assert (0 <= (y / x) * (y / x)) by nra. lra.
  - apply Rmult_le_pos; [exact Hs|]. left. now apply Rinv_0_lt_compat.
  - unfold Rdiv.
    replace (sqrt (x * x + y * y) * / Rabs x * (sqrt (x * x + y * y) * / Rabs x))
      with ((sqrt (x * x + y * y) * sqrt (x * x + y * y)) * (/ Rabs x * / Rabs x)) by ring.
    rewrite sqrt_sqrt by nra.
    rewrite <- Rinv_mult.
    replace (Rabs x * Rabs x) with (x * x).
    + unfold Rsqr. field. exact Hx.
    + rewrite <- Rabs_mult. symmetry. apply Rabs_right. nra.
Qed.

Lemma atan2_direction (y x : R) :
  x <> 0 \/ y <> 0 ->
  cos (atan2 y x) = x / sqrt (x * x + y * y) /\
  sin (atan2 y x) = y / sqrt (x * x + y * y).
Proof.
  intros Hxy.
  assert (Hpos : 0 < x * x + y * y) by (destruct Hxy; nra).
  assert (Hs : 0 < sqrt (x * x + y * y)) by now apply sqrt_lt_R0.
  unfold atan2.
  destruct (Rlt_dec 0 x) as [Hx|Hx].
  - rewrite cos_atan, sin_atan, sqrt_one_plus_sqr by lra.
    rewrite (Rabs_right x) by lra. split; field; lra.
  - destruct (Rlt_dec x 0) as [Hx'|Hx'].
    + assert (E : sqrt (1 + (y / x)²) = sqrt (x * x + y * y) / - x).
      { rewrite sqrt_one_plus_sqr by lra. now rewrite (Rabs_left x) by lra. }
      destruct (Rle_dec 0 y).
      * rewrite neg_cos, neg_sin, cos_atan, sin_atan, E. split; field; lra.
      * replace (atan (y / x) - PI) with (- (- atan (y / x) + PI)) by ring.
        rewrite cos_neg, sin_neg, neg_cos, neg_sin, cos_neg, sin_neg.
        rewrite cos_atan, sin_atan, E. split; field; lra.
    + assert (x = 0) by lra. subst x.
      assert (Hy : y <> 0) by (destruct Hxy; [lra | assumption]).
      replace (0 * 0 + y * y) with (y * y) in * by ring.
      destruct (Rlt_dec 0 y) as [Hy1|Hy1].
      * rewrite cos_PI2, sin_PI2, sqrt_square by lra. split; field; lra.
      * destruct (Rlt_dec y 0) as [Hy2|Hy2]; [|lra].
        rewrite cos_neg, sin_neg, cos_PI2, sin_PI2.
        replace (y * y) with ((- y) * (- y)) by ring.
        rewrite sqrt_square by lra. split; field; lra.
Qed.

Lemma uniformR_within (a b u : R) :
  a <= b -> unit_drawR u -> a <= uniformR a b u <= b.
Proof. intros Hab [H0 H1]. unfold uniformR. split; nra. Qed.

(** The overshoot point lies beyond the target on the ray from the start,
    at the distance drawn. *)
Lemma overshoot_point_on_ray (start target : ipoint) (r : move_draws) :
  let dx := IZR (fst target - fst start) in
  let dy := IZR (snd target - snd start) in
  let d := distance_to start target in
  let od := uniformR 5 25 (overshoot_u r) in
  0 < d ->
  overshoot_point target dx dy r
  = (IZR (fst target) + dx / d * od, IZR (snd target) + dy / d * od).
Proof.
  intros dx dy d od Hd. unfold overshoot_point. fold od.
  assert (Hxy : dx <> 0 \/ dy <> 0).
  { destruct (Req_dec dx 0) as [Hx|Hx]; [|now left].
    destruct (Req_dec dy 0) as [Hy|Hy]; [|now right].
    exfalso. unfold d in Hd. rewrite <- distance_to_eq in Hd.
    fold dx dy in Hd. rewrite Hx, Hy in Hd.
    replace (0 * 0 + 0 * 0) with 0 in Hd by ring. rewrite sqrt_0 in Hd. lra. }
  destruct (atan2_direction dy dx Hxy) as [Hc Hs].
  rewrite Hc, Hs. unfold dx, dy. rewrite distance_to_eq. reflexivity.
Qed.

(** ** The path goes through the control points *)

Lemma nth_error_flat_map_const {A : Type} (f : nat -> list A) (m : nat) :
  (forall i, List.length (f i) = m) ->
  forall (n a k j : nat),
    (k < n)%nat -> (j < m)%nat ->
    nth_error (flat_map f (seq a n)) (k * m + j) = nth_error (f (a + k)%nat) j.
Proof.
  intros Hlen. induction n as [|n IH]; intros a k j Hk Hj; [lia|].
  cbn [seq flat_map]. destruct k as [|k].
  - rewrite Nat.add_0_r. cbn [Nat.mul Nat.add].
    rewrite nth_error_app1; [reflexivity | rewrite Hlen; exact Hj].
  - rewrite nth_error_app2 by (rewrite Hlen; cbn; lia).
    rewrite Hlen. replace (S k * m + j - m)%nat with (k * m + j)%nat by (cbn; lia).
    rewrite (IH (S a) k j) by lia. f_equal. f_equal. lia.
Qed.

Lemma nth_extended (p q : point) (rest : list point) (k : nat) :
  (k < List.length (p :: q :: rest))%nat ->
  nth (S k) (extended_of p q rest) p = nth k (p :: q :: rest) p.
Proof.
  intros Hk. unfold extended_of. set (pts := p :: q :: rest) in *.
  change ([p] ++ pts ++ [last pts p]) with (p :: (pts ++ [last pts p])).
  cbn [nth]. now rewrite app_nth1.
Qed.

(** With at least one sample per segment, the sample that opens the segment
    number [k] is the truncation of the control point number [k]. *)
Lemma spline_through_controls (p q : point) (rest : list point) (n : Z)
  (path : list ipoint) (k : nat) :
  (Z.of_nat (S (List.length rest)) <= n)%Z ->
  _catmull_rom_spline (p :: q :: rest) n = Ok path ->
  (k < S (List.length rest))%nat ->
  nth_error path (k * Z.to_nat (n / Z.of_nat (S (List.length rest))))
  = Some (int_point (nth k (p :: q :: rest) p)).
Proof.
  intros Hn Hs Hk. rewrite spline_unfold in Hs. apply Ok_inj in Hs. subst path.
  set (segments := S (List.length rest)) in *.
  set (sps := (n / Z.of_nat segments)%Z).
  assert (Hsps : (1 <= sps)%Z) by (apply Z.div_le_lower_bound; lia).
  assert (Hm : (0 < Z.to_nat sps)%nat) by lia.
  rewrite nth_error_app1.
  2:{ rewrite (flat_map_length_const _ (Z.to_nat sps)), length_seq.
      - nia.
      - intros a _. apply spline_segment_length. }
  replace (k * Z.to_nat sps)%nat with (k * Z.to_nat sps + 0)%nat by lia.
  rewrite (nth_error_flat_map_const _ (Z.to_nat sps)); [|intros; apply spline_segment_length|exact Hk|exact Hm].
  cbn [Nat.add]. unfold spline_segment.
  destruct (Z.to_nat sps) as [|m] eqn:Em; [lia|].
  cbn [seq map nth_error]. f_equal.
  unfold spline_sample, int_point. cbn [INR].
  replace (0 / IZR sps) with 0 by (unfold Rdiv; ring).
  rewrite !catmull_rom_at_0. replace (k + 1)%nat with (S k) by lia.
  rewrite nth_extended by (cbn [List.length]; lia). reflexivity.
Qed.

End Pointer.

(** ** The wheel *)

Section Wheel.

Import AdvancedScrollSimulator.
Local Open Scope R_scope.

Lemma fold_left_Rplus (l : list R) (a : R) : fold_left Rplus l a = a + sumR l.
Proof.
  unfold sumR. revert a. induction l as [|x l IH]; intros a; cbn [fold_left]; [ring|].
  rewrite (IH (a + x)), (IH (0 + x)). ring.
Qed.

Lemma sumR_cons (x : R) (l : list R) : sumR (x :: l) = x + sumR l.
Proof. unfold sumR at 1. cbn [fold_left]. rewrite fold_left_Rplus. ring. Qed.

Lemma fold_left_Zadd (l : list Z) (a : Z) : fold_left Z.add l a = (a + sumZ l)%Z.
Proof.
  unfold sumZ. revert a. induction l as [|x l IH]; intros a; cbn [fold_left]; [ring|].
  rewrite (IH (a + x)%Z), (IH (0 + x)%Z). ring.
Qed.

Lemma sumZ_cons (x : Z) (l : list Z) : sumZ (x :: l) = (x + sumZ l)%Z.
Proof. unfold sumZ at 1. cbn [fold_left]. rewrite fold_left_Zadd. ring. Qed.

Lemma sumZ_app (l l' : list Z) : sumZ (l ++ l') = (sumZ l + sumZ l')%Z.
Proof.
  induction l as [|x l IH]; [reflexivity|].
  cbn [app]. rewrite !sumZ_cons, IH. ring.
Qed.

Lemma sumR_nonneg (l : list R) : (forall x, In x l -> 0 <= x) -> 0 <= sumR l.
Proof.
  induction l as [|x l IH]; intros H; [unfold sumR; cbn; lra|].
  rewrite sumR_cons. pose proof (H x (or_introl eq_refl)).
  assert (0 <= sumR l) by (apply IH; intros y Hy; apply H; now right). lra.
Qed.

Lemma sumR_pos (l : list R) (x : R) :
  (forall y, In y l -> 0 <= y) -> In x l -> 0 < x -> 0 < sumR l.
Proof.
  induction l as [|a l IH]; intros H Hin Hx; [contradiction|].
  rewrite sumR_cons. pose proof (H a (or_introl eq_refl)) as Ha.
  assert (Hl : 0 <= sumR l) by (apply sumR_nonneg; intros y Hy; apply H; now right).
  destruct Hin as [->|Hin]; [lra|].
  assert (0 < sumR l) by (apply IH; [intros y Hy; apply H; now right | exact Hin | exact Hx]).
  lra.
Qed.

(** ** [l[i] += d] *)

Lemma add_at_ok (l : list Z) :
  forall (i : nat) (d : Z),
    (i < List.length l)%nat ->
    exists l' : list Z,
      add_at l i d = Ok l' /\
      List.length l' = List.length l /\
      sumZ l' = (sumZ l + d)%Z /\
      nth i l' 0%Z = (nth i l 0 + d)%Z /\
      forall j, j <> i -> nth j l' 0%Z = nth j l 0%Z.
Proof.
  induction l as [|a l IH]; intros i d Hi; [cbn in Hi; lia|].
  destruct i as [|i]; cbn [add_at].
  - eexists. split; [reflexivity|]. split; [reflexivity|]. split; [|split].
    + rewrite !sumZ_cons. ring.
    + reflexivity.
    + intros [|j] Hj; [contradiction | reflexivity].
  - destruct (IH i d) as (l' & -> & Hlen & Hsum & Hi' & Hj'); [cbn in Hi; lia|].
    cbn [bind]. eexists. split; [reflexivity|]. split; [cbn; now rewrite Hlen|].
    split; [|split].
    + rewrite !sumZ_cons, Hsum. ring.
    + exact Hi'.
    + intros [|j] Hj; [reflexivity|]. cbn [nth]. apply Hj'. lia.
Qed.

Lemma add_at_out_of_range (l : list Z) :
  forall (i : nat) (d : Z),
    (List.length l <= i)%nat -> add_at l i d = Raise IndexError.
Proof.
  induction l as [|a l IH]; intros i d Hi; [reflexivity|].
  destruct i as [|i]; [cbn in Hi; lia|].
  cbn [add_at]. rewrite IH by (cbn in Hi; lia). reflexivity.
Qed.

(** ** The velocity profile *)

Lemma velocity_nonneg (steps : Z) (i : nat) :
  (2 <= steps)%Z -> (Z.of_nat i <= steps - 1)%Z -> 0 <= velocity steps i.
Proof.
  intros Hs Hi. unfold velocity.
  assert (Hd : 0 < IZR (steps - 1)) by (apply IZR_lt; lia).
  assert (Hi' : INR i <= IZR (steps - 1)).
  { rewrite INR_IZR_INZ. apply IZR_le. exact Hi. }
  assert (H0 : 0 <= INR i) by apply pos_INR.
  assert (Hq : 0 <= INR i / IZR (steps - 1) <= 1).
  { split.
    - apply Rmult_le_pos; [exact H0 | left; now apply Rinv_0_lt_compat].
    - apply (Rmult_le_reg_r (IZR (steps - 1))); [exact Hd|].
      unfold Rdiv. rewrite Rmult_assoc, Rinv_l by lra. lra. }
  pose proof PI_RGT_0.
  apply sin_ge_0; nra.
Qed.

Lemma velocity_first (steps : Z) : velocity steps 0 = 0.
Proof.
  unfold velocity. cbn [INR]. replace (0 / IZR (steps - 1) * PI) with 0.
  - apply sin_0.
  - unfold Rdiv. ring.
Qed.

Lemma velocity_last (steps : Z) :
  (2 <= steps)%Z -> velocity steps (Z.to_nat (steps - 1)) = 0.
Proof.
  intros Hs. unfold velocity.
  rewrite INR_IZR_INZ, Z2Nat.id by lia.
  assert (Hd : IZR (steps - 1) <> 0) by (apply not_0_IZR; lia).
  replace (IZR (steps - 1) / IZR (steps - 1) * PI) with PI by (field; exact Hd).
  apply sin_PI.
Qed.

Lemma velocity_second_pos (steps : Z) : (3 <= steps)%Z -> 0 < velocity steps 1.
Proof.
  intros Hs. unfold velocity. cbn [INR].
  assert (Hd : 2 <= IZR (steps - 1)) by (apply IZR_le; lia).
  pose proof PI_RGT_0.
  assert (Hinv : 0 < / IZR (steps - 1) <= / 2).
  { split; [apply Rinv_0_lt_compat; lra | apply Rinv_le_contravar; lra]. }
  apply sin_gt_0; unfold Rdiv; nra.
Qed.

Lemma velocities_length (steps : Z) :
  List.length (velocities steps) = Z.to_nat steps.
Proof. unfold velocities. now rewrite length_map, length_seq. Qed.

Lemma total_pos (steps : Z) : (3 <= steps)%Z -> 0 < sumR (velocities steps).
Proof.
  intros Hs. apply (sumR_pos _ (velocity steps 1)).
  - intros y Hy. unfold velocities in Hy. apply in_map_iff in Hy.
    destruct Hy as (i & <- & Hi). apply in_seq in Hi.
    apply velocity_nonneg; lia.
  - unfold velocities. apply in_map. apply in_seq. lia.
  - now apply velocity_second_pos.
Qed.

Lemma nth_map_lt {A B : Type} (f : A -> B) (l : list A) (d : B) (x : A) (i : nat) :
  (i < List.length l)%nat -> nth i (map f l) d = f (nth i l x).
Proof.
  intros Hi. rewrite (nth_indep (map f l) d (f x)) by (rewrite length_map; exact Hi).
  apply map_nth.
Qed.

Lemma step_amounts_exact (amount steps : Z) :
  (3 <= steps)%Z ->
  exists plan : list Z,
    step_amounts amount steps = Ok plan /\
    List.length plan = Z.to_nat steps /\
    sumZ plan = amount /\
    nth 0 plan 0%Z = 0%Z /\
    nth (Z.to_nat steps - 1) plan 0%Z = 0%Z.
Proof.
  intros Hs. unfold step_amounts.
  destruct (Z.eqb_spec steps 1) as [E|_]; [lia|].
  pose proof (total_pos steps Hs) as Htot.
  destruct (Req_dec_T (sumR (velocities steps)) 0) as [E|_]; [lra|].
  set (total := sumR (velocities steps)) in *.
  set (raw := map (fun v => py_int (IZR amount * v / total)) (velocities steps)).
  assert (Hlen : List.length raw = Z.to_nat steps).
  { unfold raw. now rewrite length_map, velocities_length. }
  assert (Hmid : (Nat.div (List.length raw) 2 < List.length raw)%nat).
  { apply Nat.div_lt; lia. }
  destruct (add_at_ok raw _ (amount - sumZ raw) Hmid) as (plan & Hp & Hl & Hsum & _ & Hother).
  exists plan. split; [exact Hp|]. split; [congruence|]. split; [rewrite Hsum; ring|].
  assert (Hzero : forall i, (i < Z.to_nat steps)%nat -> velocity steps i = 0 ->
                            nth i raw 0%Z = 0%Z).
  { intros i Hi Hv. unfold raw.
    rewrite (nth_map_lt (fun v => py_int (IZR amount * v / total)) _ 0%Z 0 i)
      by (rewrite velocities_length; exact Hi).
    unfold velocities. rewrite (nth_map_lt (velocity steps) _ 0 0%nat i)
      by (rewrite length_seq; exact Hi).
    rewrite seq_nth by exact Hi. cbn [Nat.add]. rewrite Hv.
    replace (IZR amount * 0 / total) with (IZR 0) by (unfold Rdiv; ring).
    apply py_int_IZR. }
  assert (Hhalf : (1 <= Nat.div (List.length raw) 2 /\
                   Nat.div (List.length raw) 2 <= Z.to_nat steps - 2)%nat).
  { rewrite Hlen. split.
    - apply Nat.div_le_lower_bound; lia.
    - assert (Z.to_nat steps / 2 * 2 <= Z.to_nat steps)%nat.
      { rewrite Nat.mul_comm. apply Nat.Div0.mul_div_le. }
      assert (3 <= Z.to_nat steps)%nat by lia.
      assert (Z.to_nat steps / 2 < Z.to_nat steps - 1)%nat; [|lia].
      destruct (Nat.eq_dec (Z.to_nat steps) 3) as [E3|N3]; [rewrite E3; cbn; lia|].
      apply Nat.Div0.div_lt_upper_bound. lia. }
  split.
  - rewrite Hother by lia. apply Hzero; [lia | apply velocity_first].
  - rewrite Hother by lia. apply Hzero; [lia|].
    replace (Z.to_nat steps - 1)%nat with (Z.to_nat (steps - 1)) by lia.
    apply velocity_last. lia.
Qed.

Lemma step_amounts_one_step (amount : Z) :
  step_amounts amount 1 = Raise ZeroDivisionError.
Proof. reflexivity. Qed.

Lemma add_jitter_length (r : scroll_draws) (l : list Z) :
  forall i, List.length (add_jitter r i l) = List.length l.
Proof.
  induction l as [|a l IH]; intros i; cbn [add_jitter List.length]; [reflexivity|].
  now rewrite IH.
Qed.

Lemma add_jitter_sum (r : scroll_draws) (l : list Z) :
  forall i, sumZ (add_jitter r i l)
            = (sumZ l + sumZ (map (jitter r) (seq i (List.length l))))%Z.
Proof.
  induction l as [|a l IH]; intros i; cbn [add_jitter List.length seq map]; [reflexivity|].
  rewrite !sumZ_cons, IH. ring.
Qed.

Lemma sumZ_bounded (f : nat -> Z) (c : Z) (n : nat) :
  (forall i, - c <= f i <= c)%Z ->
  forall a, (Z.abs (sumZ (map f (seq a n))) <= c * Z.of_nat n)%Z.
Proof.
  intros Hf. induction n as [|n IH]; intros a; [cbn; lia|].
  cbn [seq map]. rewrite sumZ_cons. specialize (IH (S a)). specialize (Hf a). lia.
Qed.

Lemma scroll_single_event :
  forall (direction : string) (amount : option Z) (r : scroll_draws),
    scroll direction amount false r = Ok [signed_amount direction amount r].
Proof. intros. unfold scroll, signed_amount. reflexivity. Qed.

Lemma scroll_smooth_sum_holds :
  forall (direction : string) (amount : option Z) (r : scroll_draws),
    (3 <= steps_draw r)%Z ->
    let signed := signed_amount direction amount r in
    let n := Z.to_nat (steps_draw r) in
    exists plan wheel : list Z,
      step_amounts signed (steps_draw r) = Ok plan /\
      sumZ plan = signed /\
      scroll direction amount true r = Ok wheel /\
      wheel = add_jitter r 0 plan
                ++ (if Rlt_dec (inertia_roll r) (3 / 10)
                    then [inertia_of signed r] else []) /\
      sumZ wheel
      = (signed + jitter_total r n
         + (if Rlt_dec (inertia_roll r) (3 / 10) then inertia_of signed r else 0))%Z.
Proof.
  intros direction amount r Hs signed n.
  destruct (step_amounts_exact signed (steps_draw r) Hs) as (plan & Hp & Hl & Hsum & _).
  exists plan.
  unfold scroll. fold (signed_amount direction amount r). fold signed.
  cbn [negb]. rewrite Hp. cbn [bind]. fold (inertia_of signed r).
  destruct (Rlt_dec (inertia_roll r) (3 / 10));
    (eexists; split; [reflexivity|]; split; [exact Hsum|]).
  - split; [reflexivity|]. split; [reflexivity|].
    rewrite sumZ_app, add_jitter_sum, Hsum, Hl.
    replace (sumZ [inertia_of signed r]) with (inertia_of signed r)
      by (unfold sumZ; cbn [fold_left]; ring).
    unfold jitter_total. subst n. ring.
  - split; [reflexivity|]. split; [now rewrite app_nil_r|].
    rewrite add_jitter_sum, Hsum, Hl. unfold jitter_total. subst n. ring.
Qed.

Lemma scroll_smooth_drift_holds :
  forall (direction : string) (amount : option Z) (r : scroll_draws),
    well_drawn r ->
    exists wheel : list Z,
      scroll direction amount true r = Ok wheel /\
      (8 <= Z.of_nat (List.length wheel) <= 16)%Z /\
      (Z.abs (sumZ wheel - signed_amount direction amount r) <= 75)%Z.
Proof.
  intros direction amount r (Ha & Hst & Hj & Hroll & Hin).
  assert (Hs : (3 <= steps_draw r)%Z) by lia.
  destruct (scroll_smooth_sum_holds direction amount r Hs) as (plan & wheel & Hp & _ & Hw & Hshape & Hsum).
  destruct (step_amounts_exact (signed_amount direction amount r) _ Hs)
    as (plan' & Hp' & Hl & _).
  rewrite Hp in Hp'. apply Ok_inj in Hp'. subst plan'.
  exists wheel. split; [exact Hw|].
  pose proof (sumZ_bounded (jitter r) 3 (Z.to_nat (steps_draw r)) Hj 0%nat) as Hjt.
  fold (jitter_total r (Z.to_nat (steps_draw r))) in Hjt.
  split.
  - rewrite Hshape, length_app, add_jitter_length, Hl.
    destruct (Rlt_dec _ _); cbn [List.length]; lia.
  - rewrite Hsum. unfold inertia_of.
    destruct (Rlt_dec _ _);
      try destruct (signed_amount direction amount r >? 0)%Z; lia.
Qed.

End Wheel.

(** ** The pointer: what a call of [move_to] does *)

Section PointerMoves.

Import AdvancedMouseSimulator.
Local Open Scope R_scope.

Lemma far_is_long (pos target : ipoint) :
  (25 <= (fst target - fst pos) ^ 2 + (snd target - snd pos) ^ 2)%Z ->
  ~ distance_to pos target < 5.
Proof.
  intros H Hlt. unfold distance_to in Hlt.
  assert (H5 : sqrt 25 = 5).
  { replace 25 with (5 * 5) by lra. apply sqrt_square. lra. }
  assert (sqrt 25 <= sqrt (IZR ((fst target - fst pos) ^ 2 + (snd target - snd pos) ^ 2))).
  { apply sqrt_le_1; [lra | apply IZR_le; lia | apply IZR_le; exact H]. }
  lra.
Qed.

Lemma decision_raises (b : HumanBehavior.t) (d : R) (r : move_draws) (e : pyexc) :
  HumanBehavior.should_make_mistake b (mistake_roll r) = Raise e ->
  overshoot_decision b d true r = Raise e.
Proof. intros H. unfold overshoot_decision. now rewrite H. Qed.

Lemma decision_rolls (b : HumanBehavior.t) (d : R) (r : move_draws) (m : bool) :
  HumanBehavior.should_make_mistake b (mistake_roll r) = Ok m ->
  overshoot_decision b d true r = Ok (m && (if Rlt_dec 50 d then true else false))%bool.
Proof. intros H. unfold overshoot_decision. now rewrite H. Qed.

Lemma nth_overshoot (start target : ipoint) (r : move_draws) :
  nth (num_controls_of start target + 1)
      (_generate_control_points start target true r) (as_point start)
  = overshoot_point target (IZR (fst target - fst start))
      (IZR (snd target - snd start)) r.
Proof.
  unfold _generate_control_points. rewrite distance_to_eq.
  fold (num_controls_of start target).
  set (nc := num_controls_of start target).
  set (f := control_point start _ _ _ _ r).
  change ([as_point start] ++ ?l) with (as_point start :: l).
  replace (nc + 1)%nat with (S nc) by lia. cbn [nth].
  rewrite app_nth2 by (rewrite length_map, length_seq; lia).
  rewrite length_map, length_seq, Nat.sub_diag. reflexivity.
Qed.

End PointerMoves.


Section PointerEntries.

Import AdvancedMouseSimulator.
Local Open Scope R_scope.

(** X1.  On a route shorter than 5, the zero route included, [move_to]
    returns at once: nothing is sent, the pointer stays where it is, and the
    personality is not even read, so nothing can be raised. *)
Theorem move_to_short_route :
  forall (b : HumanBehavior.t) (pos target : ipoint) (allow : bool)
         (r1 r2 : move_draws),
    distance_to pos target < 5 ->
    move_to b pos target allow r1 r2 = Ok ([], pos).
Proof. exact move_to_short_route_holds. Qed.

(** X2.  On a route of 5 or more, once the overshoot is decided, [move_to]
    sends exactly one trajectory, overshoot or not: the path starts at the
    pointer and ends at the target, every sample is sent with its tremor, the
    last one included, so the pointer ends within 3 of the target on each
    axis, and from there the correcting call finds a route shorter than 5 and
    returns without moving. *)
Theorem move_to_one_trajectory :
  forall (b : HumanBehavior.t) (pos target : ipoint) (allow ov : bool)
         (r1 r2 : move_draws),
    ~ distance_to pos target < 5 ->
    overshoot_decision b (distance_to pos target) allow r1 = Ok ov ->
    exists (path sent : list ipoint),
      _catmull_rom_spline (_generate_control_points pos target ov r1)
        (num_points_of pos target) = Ok path /\
      hd pos path = pos /\ last path pos = target /\
      sent = emit_from (time_u r1 * 1000) 0 path /\
      List.length sent = List.length path /\
      move_to b pos target allow r1 r2 = Ok ([sent], last sent pos) /\
      last sent pos = emit_sample (time_u r1 * 1000) (List.length path - 1) target /\
      (Z.abs (fst (last sent pos) - fst target) <= 3)%Z /\
      (Z.abs (snd (last sent pos) - snd target) <= 3)%Z.
Proof. exact move_to_one_trajectory_holds. Qed.

End PointerEntries.

Lemma move_to_short_route_witness :
  (AdvancedMouseSimulator.distance_to (10, 10)%Z (12, 7)%Z < 5)%R /\
  AdvancedMouseSimulator.move_to (HumanBehavior.__init__ 0 some_draws)
    (10, 10)%Z (12, 7)%Z true still_draws still_draws
  = Ok ([], (10, 10)%Z).
Proof.
  assert (H : (AdvancedMouseSimulator.distance_to (10, 10)%Z (12, 7)%Z < 5)%R).
  { apply near_is_short; cbn; lia. }
  split; [exact H|].
  exact (move_to_short_route _ _ _ true still_draws still_draws H).
Defined.

Lemma move_to_one_trajectory_witness :
  (~ AdvancedMouseSimulator.distance_to (0, 0)%Z (100, 0)%Z < 5)%R /\
  exists path sent : list ipoint,
    AdvancedMouseSimulator.move_to blank_behavior (0, 0)%Z (100, 0)%Z false
      still_draws still_draws
    = Ok ([sent], last sent (0, 0)%Z) /\
    hd (0, 0)%Z path = (0, 0)%Z /\ last path (0, 0)%Z = (100, 0)%Z /\
    List.length sent = List.length path.
Proof.
  assert (H : (~ AdvancedMouseSimulator.distance_to (0, 0)%Z (100, 0)%Z < 5)%R).
  { apply far_is_long. cbn. lia. }
  split; [exact H|].
  destruct (move_to_one_trajectory blank_behavior (0, 0)%Z (100, 0)%Z false false
              still_draws still_draws H eq_refl)
    as (path & sent & _ & Hhd & Hlast & _ & Hlen & Hmove & _).
  exists path, sent. repeat split; assumption.
Defined.

(** X3.  [move_to(target, allow_overshoot=False)] never raises, whatever the
    personality holds: it sends at most one trajectory and leaves the
    pointer closer than 5 to the target. *)
Theorem move_to_without_overshoot_returns :
  forall (b : HumanBehavior.t) (pos target : ipoint)
         (r1 r2 : AdvancedMouseSimulator.move_draws),
    exists (legs : list (list ipoint)) (pos' : ipoint),
      AdvancedMouseSimulator.move_to b pos target false r1 r2 = Ok (legs, pos') /\
      (List.length legs <= 1)%nat /\
      (AdvancedMouseSimulator.distance_to pos' target < 5)%R.
Proof.
  intros b pos target r1 r2.
  destruct (Rlt_dec (AdvancedMouseSimulator.distance_to pos target) 5) as [Hs|Hl].
  - exists [], pos. split; [now apply move_to_short_route_holds|]. split; [cbn; lia | exact Hs].
  - destruct (move_to_one_trajectory_holds b pos target false false r1 r2 Hl eq_refl)
      as (path & sent & _ & _ & _ & _ & _ & Hmove & _ & Hx & Hy).
    exists [sent], (last sent pos). split; [exact Hmove|]. split; [cbn; lia|].
    now apply near_is_short.
Qed.

(** X4.  On a route of 5 or more, [move_to] with the overshoot allowed asks
    [should_make_mistake] first: when the accuracy cannot be read from the
    personality, the exception escapes before anything is sent. *)
Theorem move_to_raises_without_accuracy :
  forall (b : HumanBehavior.t) (pos target : ipoint)
         (r1 r2 : AdvancedMouseSimulator.move_draws) (e : pyexc),
    (~ AdvancedMouseSimulator.distance_to pos target < 5)%R ->
    HumanBehavior.should_make_mistake b (AdvancedMouseSimulator.mistake_roll r1)
    = Raise e ->
    AdvancedMouseSimulator.move_to b pos target true r1 r2 = Raise e.
Proof.
  intros b pos target r1 r2 e Hd He.
  unfold AdvancedMouseSimulator.move_to.
  rewrite (move_leg_raises b pos target true r1 e Hd (decision_raises b _ r1 e He)).
  reflexivity.
Qed.

Lemma move_to_raises_without_accuracy_witness :
  (~ AdvancedMouseSimulator.distance_to (0, 0)%Z (100, 0)%Z < 5)%R /\
  AdvancedMouseSimulator.move_to blank_behavior (0, 0)%Z (100, 0)%Z true
    still_draws still_draws
  = Raise KeyError.
Proof.
  assert (H : (~ AdvancedMouseSimulator.distance_to (0, 0)%Z (100, 0)%Z < 5)%R).
  { apply far_is_long. cbn. lia. }
  split; [exact H|].
  exact (move_to_raises_without_accuracy blank_behavior (0, 0)%Z (100, 0)%Z
           still_draws still_draws KeyError H eq_refl).
Defined.

(** X5.  The two tremors are one: the offset of 100 in the time of the
    second is a whole number of periods of every octave, so each sample is
    shifted by the same amount on both axes, of magnitude at most 3. *)
Theorem tremor_axes_coincide :
  forall (time_offset : R) (i : nat),
    AdvancedMouseSimulator.tremor_y time_offset i
    = AdvancedMouseSimulator.tremor_x time_offset i /\
    (Rabs (AdvancedMouseSimulator.tremor_x time_offset i) <= 3)%R.
Proof.
  intros off i. split; [apply tremor_y_is_tremor_x | apply tremor_x_bound].
Qed.

(** X6.  Every coordinate sent to the page, the last one included, is
    within 3 of the coordinate of the sample of the path. *)
Theorem sent_sample_near_path :
  forall (time_offset : R) (path : list ipoint) (k : nat) (p : ipoint),
    nth_error path k = Some p ->
    exists q : ipoint,
      nth_error (AdvancedMouseSimulator.emit_from time_offset 0 path) k = Some q /\
      (Z.abs (fst q - fst p) <= 3)%Z /\ (Z.abs (snd q - snd p) <= 3)%Z.
Proof.
  intros off path k p H. eexists. split.
  - apply (emit_from_nth off path 0 k p H).
  - apply emit_sample_near.
Qed.

Lemma sent_sample_near_path_witness :
  exists q : ipoint,
    nth_error (AdvancedMouseSimulator.emit_from 0 0 [(5, 6)%Z; (7, 8)%Z]) 1
    = Some q /\
    (Z.abs (fst q - 7) <= 3)%Z /\ (Z.abs (snd q - 8) <= 3)%Z.
Proof.
  exact (sent_sample_near_path 0%R [(5, 6)%Z; (7, 8)%Z] 1 (7, 8)%Z eq_refl).
Defined.

(** X7.  For two control points or more [_catmull_rom_spline] returns
    [segments * (num_samples // segments) + 1] samples, [segments] being the
    number of control points less one, and the last sample is the truncation
    of the last control point; an empty list of points raises
    [IndexError]. *)
Theorem spline_shape :
  forall (p q : point) (rest : list point) (n : Z),
    AdvancedMouseSimulator._catmull_rom_spline [] n = Raise IndexError /\
    exists path : list ipoint,
      AdvancedMouseSimulator._catmull_rom_spline (p :: q :: rest) n = Ok path /\
      List.length path
      = (S (List.length rest) * Z.to_nat (n / Z.of_nat (S (List.length rest))) + 1)%nat /\
      last path (0, 0)%Z = int_point (last (q :: rest) p).
Proof.
  intros p q rest n. split; [reflexivity|].
  pose proof (spline_unfold p q rest n) as Hs.
  eexists. split; [exact Hs|]. split.
  - exact (spline_length p q rest n _ Hs).
  - destruct (spline_last _ _ _ p (0, 0)%Z Hs) as [_ Hl]. exact Hl.
Qed.

(** X8.  With as many samples as segments or more, the path goes through
    every control point: the sample that opens the segment number [k] is the
    truncation of the control point number [k]. *)
Theorem spline_passes_through_controls :
  forall (p q : point) (rest : list point) (n : Z) (path : list ipoint) (k : nat),
    (Z.of_nat (S (List.length rest)) <= n)%Z ->
    AdvancedMouseSimulator._catmull_rom_spline (p :: q :: rest) n = Ok path ->
    (k < S (List.length rest))%nat ->
    nth_error path (k * Z.to_nat (n / Z.of_nat (S (List.length rest))))
    = Some (int_point (nth k (p :: q :: rest) p)).
Proof. exact spline_through_controls. Qed.

Lemma spline_passes_through_controls_witness :
  exists path : list ipoint,
    AdvancedMouseSimulator._catmull_rom_spline
      [(0, 0)%R; (10, 4)%R; (20, 0)%R] 6 = Ok path /\
    nth_error path (1 * Z.to_nat (6 / Z.of_nat 2)) = Some (int_point (10, 4)%R).
Proof.
  eexists. split; [apply spline_unfold|].
  apply (spline_passes_through_controls (0, 0)%R (10, 4)%R [(20, 0)%R] 6 _ 1).
  - cbn. lia.
  - apply spline_unfold.
  - cbn. lia.
Defined.

(** X9.  The control polygon starts at the start, ends at the target and
    has [max(2, int(distance / 100))] points in between, one more when an
    overshoot is asked for. *)
Theorem control_polygon_shape :
  forall (start target : ipoint) (ov : bool)
         (r : AdvancedMouseSimulator.move_draws),
    exists (q : point) (rest : list point),
      AdvancedMouseSimulator._generate_control_points start target ov r
      = AdvancedMouseSimulator.as_point start :: q :: rest /\
      List.length rest
      = (num_controls_of start target + (if ov then 1 else 0))%nat /\
      (2 <= num_controls_of start target)%nat /\
      forall d,
        last (AdvancedMouseSimulator._generate_control_points start target ov r) d
        = AdvancedMouseSimulator.as_point target.
Proof. exact control_points_shape. Qed.

(** X10.  On a route that is not of length zero the overshoot point lies
    beyond the target on the line from the start, at the distance drawn,
    which is between 5 and 25; it is the control point just before the
    target. *)
Theorem overshoot_point_beyond_target :
  forall (start target : ipoint) (r : AdvancedMouseSimulator.move_draws),
    let dx := IZR (fst target - fst start) in
    let dy := IZR (snd target - snd start) in
    let d := AdvancedMouseSimulator.distance_to start target in
    let od := uniformR 5 25 (AdvancedMouseSimulator.overshoot_u r) in
    (0 < d)%R ->
    unit_drawR (AdvancedMouseSimulator.overshoot_u r) ->
    AdvancedMouseSimulator.overshoot_point target dx dy r
    = (IZR (fst target) + dx / d * od, IZR (snd target) + dy / d * od)%R /\
    (5 <= od <= 25)%R /\
    nth (num_controls_of start target + 1)
        (AdvancedMouseSimulator._generate_control_points start target true r)
        (AdvancedMouseSimulator.as_point start)
    = AdvancedMouseSimulator.overshoot_point target dx dy r.
Proof.
  intros start target r dx dy d od Hd Hu. split; [|split].
  - now apply overshoot_point_on_ray.
  - apply uniformR_within; [lra | exact Hu].
  - apply nth_overshoot.
Qed.

Lemma overshoot_point_beyond_target_witness :
  AdvancedMouseSimulator.overshoot_point (100, 0)%Z
    (IZR (100 - 0)) (IZR (0 - 0)) still_draws
  = (IZR 100
     + IZR (100 - 0) / AdvancedMouseSimulator.distance_to (0, 0)%Z (100, 0)%Z
       * uniformR 5 25 0,
     IZR 0
     + IZR (0 - 0) / AdvancedMouseSimulator.distance_to (0, 0)%Z (100, 0)%Z
       * uniformR 5 25 0)%R.
Proof.
  assert (Hd : (0 < AdvancedMouseSimulator.distance_to (0, 0)%Z (100, 0)%Z)%R).
  { assert (H : (~ AdvancedMouseSimulator.distance_to (0, 0)%Z (100, 0)%Z < 5)%R)
      by (apply far_is_long; cbn; lia).
    lra. }
  assert (Hu : unit_drawR (AdvancedMouseSimulator.overshoot_u still_draws)).
  { unfold unit_drawR. cbn. lra. }
  exact (proj1 (overshoot_point_beyond_target (0, 0)%Z (100, 0)%Z still_draws Hd Hu)).
Defined.

(** ** The wheel *)


Section WheelEntries.

Import AdvancedScrollSimulator.
Local Open Scope R_scope.

(** X11.  For three steps or more the planned steps are as many as drawn
    and sum to the signed amount exactly, the remainder of the truncations
    going to the middle step; the first and the last planned step are 0. *)
Theorem step_amounts_sum (amount steps : Z) :
  (3 <= steps)%Z ->
  exists plan : list Z,
    step_amounts amount steps = Ok plan /\
    List.length plan = Z.to_nat steps /\
    sumZ plan = amount /\
    nth 0 plan 0%Z = 0%Z /\
    nth (Z.to_nat steps - 1) plan 0%Z = 0%Z.
Proof. exact (step_amounts_exact amount steps). Qed.

(** X12.  A smooth scroll sends the planned steps each with its jitter,
    then the inertia when it is drawn: what is sent sums to the signed
    amount plus the jitters plus the inertia. *)
Theorem scroll_smooth_sum :
  forall (direction : string) (amount : option Z) (r : scroll_draws),
    (3 <= steps_draw r)%Z ->
    let signed := signed_amount direction amount r in
    let n := Z.to_nat (steps_draw r) in
    exists plan wheel : list Z,
      step_amounts signed (steps_draw r) = Ok plan /\
      sumZ plan = signed /\
      scroll direction amount true r = Ok wheel /\
      wheel = add_jitter r 0 plan
                ++ (if Rlt_dec (inertia_roll r) (3 / 10)
                    then [inertia_of signed r] else []) /\
      sumZ wheel
      = (signed + jitter_total r n
         + (if Rlt_dec (inertia_roll r) (3 / 10) then inertia_of signed r else 0))%Z.
Proof. exact scroll_smooth_sum_holds. Qed.

(** X13.  With draws in the ranges of the code, a smooth scroll sends 8 to
    16 wheel events and their sum differs from the signed amount by 75 at
    most. *)
Theorem scroll_smooth_drift :
  forall (direction : string) (amount : option Z) (r : scroll_draws),
    well_drawn r ->
    exists wheel : list Z,
      scroll direction amount true r = Ok wheel /\
      (8 <= Z.of_nat (List.length wheel) <= 16)%Z /\
      (Z.abs (sumZ wheel - signed_amount direction amount r) <= 75)%Z.
Proof. exact scroll_smooth_drift_holds. Qed.

End WheelEntries.

Lemma step_amounts_sum_witness :
  exists plan : list Z,
    AdvancedScrollSimulator.step_amounts 200 8 = Ok plan /\
    List.length plan = 8%nat /\
    AdvancedScrollSimulator.sumZ plan = 200%Z.
Proof.
  destruct (step_amounts_sum 200 8 ltac:(lia)) as (plan & H1 & H2 & H3 & _).
  exists plan. repeat split; assumption.
Defined.

Lemma scroll_smooth_sum_witness :
  exists wheel : list Z,
    AdvancedScrollSimulator.scroll "down" (Some 200%Z) true plain_scroll_draws
    = Ok wheel /\
    AdvancedScrollSimulator.sumZ wheel
    = (200 + jitter_total plain_scroll_draws 8 + 20)%Z.
Proof.
  destruct (scroll_smooth_sum "down" (Some 200%Z) plain_scroll_draws ltac:(cbn; lia))
    as (plan & wheel & _ & _ & Hw & _ & Hsum).
  exists wheel. split; [exact Hw|].
  rewrite Hsum. cbn [AdvancedScrollSimulator.inertia_roll plain_scroll_draws].
  destruct (Rlt_dec (1 / 10) (3 / 10)) as [_|N]; [reflexivity | exfalso; lra].
Defined.

Lemma scroll_smooth_drift_witness :
  AdvancedScrollSimulator.well_drawn plain_scroll_draws /\
  exists wheel : list Z,
    AdvancedScrollSimulator.scroll "up" None true plain_scroll_draws = Ok wheel /\
    (8 <= Z.of_nat (List.length wheel) <= 16)%Z /\
    (Z.abs (AdvancedScrollSimulator.sumZ wheel
            - signed_amount "up" None plain_scroll_draws) <= 75)%Z.
Proof.
  assert (H : AdvancedScrollSimulator.well_drawn plain_scroll_draws).
  { unfold AdvancedScrollSimulator.well_drawn. cbn. repeat split; try lia; lra. }
  split; [exact H|].
  exact (scroll_smooth_drift "up" None plain_scroll_draws H).
Defined.

(** ** Decisions of the behaviour *)

Section BehaviourRules.

Local Open Scope Q_scope.

(** X14.  With the traits within their bounds and a fatigue of [[0, 0.8]], the
    chance of a mistake lies in [[0.02, 0.23]] and the chance of a
    distraction in [[0.03, 0.12]]: a roll below the lower end always
    triggers, a roll at or above the upper end never does. *)
Theorem decision_rules_ranges :
  forall (b : HumanBehavior.t) (roll : Q),
    personality_within_bounds (HumanBehavior.personality b) ->
    0 <= HumanBehavior.fatigue b -> HumanBehavior.fatigue b <= 8 # 10 ->
    (exists m : bool,
        HumanBehavior.should_make_mistake b roll = Ok m /\
        (roll < 2 # 100 -> m = true) /\ (23 # 100 <= roll -> m = false)) /\
    (exists d : bool,
        HumanBehavior.should_get_distracted b roll = Ok d /\
        (roll < 3 # 100 -> d = true) /\ (12 # 100 <= roll -> d = false)).
Proof.
  intros b roll (_ & (acc & Ha & Ha1 & Ha2) & _ & (cur & Hc & Hc1 & Hc2) & _) Hf0 Hf1.
  split.
  - unfold HumanBehavior.should_make_mistake. rewrite Ha. cbn [bind py_float].
    eexists. split; [reflexivity|].
    destruct (Qlt_le_dec roll _) as [H|H]; split; intros Hr;
      try reflexivity; exfalso; lra.
  - unfold HumanBehavior.should_get_distracted. rewrite Hc. cbn [bind py_float].
    eexists. split; [reflexivity|].
    destruct (Qlt_le_dec roll _) as [H|H]; split; intros Hr;
      try reflexivity; exfalso; lra.
Qed.

(** X15.  Tiredness only adds mistakes and distractions: with the same
    personality and the same roll, what happens at some fatigue happens at
    any higher one. *)
Theorem fatigue_only_adds_mistakes :
  forall (b b' : HumanBehavior.t) (roll : Q),
    HumanBehavior.personality b' = HumanBehavior.personality b ->
    HumanBehavior.fatigue b <= HumanBehavior.fatigue b' ->
    (HumanBehavior.should_make_mistake b roll = Ok true ->
     HumanBehavior.should_make_mistake b' roll = Ok true) /\
    (HumanBehavior.should_get_distracted b roll = Ok true ->
     HumanBehavior.should_get_distracted b' roll = Ok true).
Proof.
  intros b b' roll Hp Hf. split.
  - unfold HumanBehavior.should_make_mistake. rewrite Hp.
    destruct (py_getitem _ _) as [v|e]; cbn [bind]; [|discriminate].
    destruct (py_float v) as [acc|e]; cbn [bind]; [|discriminate].
    destruct (Qlt_le_dec roll _) as [H|H]; [|discriminate]. intros _.
    destruct (Qlt_le_dec roll _) as [H'|H']; [reflexivity|]. exfalso. lra.
  - unfold HumanBehavior.should_get_distracted. rewrite Hp.
    destruct (py_getitem _ _) as [v|e]; cbn [bind]; [|discriminate].
    destruct (py_float v) as [acc|e]; cbn [bind]; [|discriminate].
    destruct (Qlt_le_dec roll _) as [H|H]; [|discriminate]. intros _.
    destruct (Qlt_le_dec roll _) as [H'|H']; [reflexivity|]. exfalso. lra.
Qed.

(** X16.  The multiplier of the watch time is never below 0.4; with the
    patience within its bounds and a fatigue that is not negative it is at
    most 1.68. *)
Theorem watch_time_multiplier_range :
  forall (b : HumanBehavior.t) (u patience : Q),
    py_getitem (HumanBehavior.personality b) "patience" = Ok (PyNum patience) ->
    unit_draw u ->
    exists m : Q,
      HumanBehavior.get_watch_time_multiplier b u = Ok m /\
      4 # 10 <= m /\
      (patience <= 14 # 10 -> 0 <= HumanBehavior.fatigue b -> m <= 168 # 100).
Proof.
  intros b u patience Hp [Hu0 Hu1].
  unfold HumanBehavior.get_watch_time_multiplier. rewrite Hp. cbn [bind py_float].
  eexists. split; [reflexivity|].
  unfold uniform.
  set (f := (8 # 10) + ((12 # 10) - (8 # 10)) * u).
  assert (Hf : 8 # 10 <= f /\ f <= 12 # 10) by (unfold f; split; lra).
  destruct (Q.max_spec (5 # 10) (patience - HumanBehavior.fatigue b * (3 # 10)))
    as [[H1 H2]|[H1 H2]];
    set (m := Qmax _ _) in *; clearbody m.
  - split; [nra|]. intros Hp1 Hf0. nra.
  - split; [nra|]. intros Hp1 Hf0. nra.
Qed.

(** X17.  From half an hour and thirty recorded actions on, the fatigue that
    [update_fatigue] computes is 0.8: the time share is capped at 0.5 after
    30 minutes and the action share at 0.3 after 30 actions. *)
Theorem fatigue_saturates :
  forall (b : HumanBehavior.t) (now : Q),
    1800 <= now - HumanBehavior.session_start b ->
    (30 <= HumanBehavior.actions_count b)%Z ->
    HumanBehavior.fatigue (HumanBehavior.update_fatigue now b) == 8 # 10.
Proof.
  intros b now Ht Hc. cbn [HumanBehavior.update_fatigue HumanBehavior.fatigue].
  assert (Hq : 30 <= inject_Z (HumanBehavior.actions_count b)).
  { change 30 with (inject_Z 30). now rewrite <- Zle_Qle. }
  qconst. qmin_cases; lra.
Qed.

End BehaviourRules.

(** ** The state file, from one run to the next *)

Section RunToRun.

Local Open Scope Q_scope.

Section StateRoundTrip.

Import StealthBot.
Local Open Scope string_scope.

Lemma json_dict (d : list (string * pyval)) :
  json_serializable (PyDict d) = forallb (fun kv => json_serializable (snd kv)) d.
Proof. reflexivity. Qed.

Lemma stats_dict_serializable (s : Stats) :
  session_start s = None -> json_serializable (stats_dict s) = true.
Proof. intros H. unfold stats_dict. rewrite H. reflexivity. Qed.

Lemma save_state_ok (bot : t) (now : Q) :
  session_start (stats bot) = None ->
  json_serializable (personality_of bot) = true ->
  _save_state bot now = (Ok tt, Some (Parsed (save_state_record bot now))).
Proof.
  intros Hs Hp. unfold _save_state.
  replace (json_serializable (save_state_record bot now)) with true; [reflexivity|].
  unfold save_state_record. rewrite json_dict. cbn [forallb snd].
  fold (personality_of bot). rewrite Hp, (stats_dict_serializable _ Hs).
  reflexivity.
Qed.

Lemma load_saved_record (bot bot0 : t) (now : Q) :
  _load_state bot0 (Some (Parsed (save_state_record bot now)))
  = Ok (set_behavior bot0 (set_personality (behavior bot0) (personality_of bot))).
Proof. reflexivity. Qed.

Lemma load_state_frame (bot bot' : t) (fs : state_file) :
  _load_state bot fs = Ok bot' ->
  config bot' = config bot /\ stats bot' = stats bot /\
  HumanBehavior.fatigue (behavior bot') = HumanBehavior.fatigue (behavior bot) /\
  HumanBehavior.session_start (behavior bot')
  = HumanBehavior.session_start (behavior bot) /\
  HumanBehavior.actions_count (behavior bot')
  = HumanBehavior.actions_count (behavior bot).
Proof.
  destruct fs as [[| |v]|]; cbn [_load_state].
  - intros [= <-]. repeat split.
  - intros [= <-]. repeat split.
  - destruct (load_state_parsed bot v) as [[E _]|(p & _ & _ & E)];
      cbn [_load_state] in E; rewrite E; intros [= <-]; repeat split.
  - intros [= <-]. repeat split.
Qed.

End StateRoundTrip.

(** X18.  What a bot that never started writes at [stop] is read back by the
    next [__init__]: the new bot has the same personality; its counters and
    its fatigue start from zero all the same. *)
Theorem personality_round_trip :
  forall (bot : StealthBot.t) (now : Q) (cfg : StealthBot.StealthConfig)
         (now' : Q) (r : HumanBehavior.init_draws),
    StealthBot.session_start (StealthBot.stats bot) = None ->
    StealthBot.json_serializable (personality_of bot) = true ->
    StealthBot.token cfg <> ""%string ->
    exists (fs : StealthBot.state_file) (bot' : StealthBot.t),
      StealthBot.stop bot now = (Ok tt, fs) /\
      StealthBot.__init__ cfg now' r fs = Ok bot' /\
      personality_of bot' = personality_of bot /\
      StealthBot.stats bot' = StealthBot.initial_stats /\
      HumanBehavior.fatigue (StealthBot.behavior bot') = 0.
Proof.
  intros bot now cfg now' r Hs Hp Htok.
  eexists _, _. split; [unfold StealthBot.stop; now apply save_state_ok|].
  unfold StealthBot.__init__. rewrite (token_nonempty cfg Htok).
  rewrite load_saved_record. repeat split.
Qed.

Lemma personality_round_trip_witness :
  exists (fs : StealthBot.state_file) (bot' : StealthBot.t),
    StealthBot.stop idle_bot 100 = (Ok tt, fs) /\
    StealthBot.__init__ sample_config 200
      (HumanBehavior.mk_draws 0 0 0 0 0) fs = Ok bot' /\
    personality_of bot' = personality_of idle_bot.
Proof.
  destruct (personality_round_trip idle_bot 100 sample_config 200
              (HumanBehavior.mk_draws 0 0 0 0 0) eq_refl eq_refl)
    as (fs & bot' & H1 & H2 & H3 & _).
  - cbn. discriminate.
  - exists fs, bot'. repeat split; assumption.
Defined.

(** X19.  After a session that started, [stop] raises [TypeError] out of
    [_save_state] and leaves a file that does not parse; the next
    [__init__] ignores it and samples a new personality: the identity of a
    session that ran is not carried over. *)
Theorem started_session_is_not_saved :
  forall (bot : StealthBot.t) (t0 now : Q) (cfg : StealthBot.StealthConfig)
         (now' : Q) (r : HumanBehavior.init_draws),
    StealthBot.token cfg <> ""%string ->
    exists fs : StealthBot.state_file,
      StealthBot.stop (StealthBot.start bot t0) now = (Raise TypeError, fs) /\
      fs = Some StealthBot.Unparsable /\
      StealthBot.__init__ cfg now' r fs = Ok (fresh_bot cfg now' r).
Proof.
  intros bot t0 now cfg now' r Htok. eexists. split; [|split].
  - unfold StealthBot.stop. now apply (save_state_after_start_raises _ now t0).
  - reflexivity.
  - unfold StealthBot.__init__. now rewrite (token_nonempty cfg Htok).
Qed.

Lemma started_session_is_not_saved_witness :
  exists fs : StealthBot.state_file,
    StealthBot.stop (StealthBot.start idle_bot 10) 100 = (Raise TypeError, fs) /\
    StealthBot.__init__ sample_config 200 some_draws fs
    = Ok (fresh_bot sample_config 200 some_draws).
Proof.
  destruct (started_session_is_not_saved idle_bot 10 100 sample_config 200 some_draws)
    as (fs & H1 & _ & H3).
  - cbn. discriminate.
  - exists fs. split; assumption.
Defined.

(** X20.  [_load_state] touches nothing but the personality: the
    configuration, the counters, the fatigue and the clock of the behaviour
    are as before, whatever the file holds. *)
Theorem load_state_only_sets_personality :
  forall (bot : StealthBot.t) (fs : StealthBot.state_file),
    exists bot' : StealthBot.t,
      StealthBot._load_state bot fs = Ok bot' /\
      StealthBot.config bot' = StealthBot.config bot /\
      StealthBot.stats bot' = StealthBot.stats bot /\
      HumanBehavior.fatigue (StealthBot.behavior bot')
      = HumanBehavior.fatigue (StealthBot.behavior bot) /\
      HumanBehavior.session_start (StealthBot.behavior bot')
      = HumanBehavior.session_start (StealthBot.behavior bot) /\
      HumanBehavior.actions_count (StealthBot.behavior bot')
      = HumanBehavior.actions_count (StealthBot.behavior bot).
Proof.
  intros bot fs. destruct (load_state_total bot fs) as [bot' H].
  exists bot'. split; [exact H|]. now apply (load_state_frame bot bot' fs).
Qed.

Section Counters.

Import StealthBot.

Lemma count_goto_app (l l' : list event) :
  count_goto (l ++ l') = (count_goto l + count_goto l')%Z.
Proof.
  induction l as [|[|u] l IH]; cbn [app count_goto]; lia.
Qed.

Lemma counted_refl (bot : t) : counted bot bot [].
Proof. unfold counted. cbn. repeat split; lia. Qed.

Lemma counted_limit (bot : t) : counted bot bot [EvLimit].
Proof. unfold counted. cbn. repeat split; lia. Qed.

Lemma counted_trans (a b c : t) (l l' : list event) :
  counted a b l -> counted b c l' -> counted a c (l ++ l').
Proof.
  unfold counted. rewrite count_goto_app.
  intros (H0 & H1 & H2 & H3 & H4 & H5 & H6 & H7)
         (K0 & K1 & K2 & K3 & K4 & K5 & K6 & K7).
  rewrite H7 in *.
  repeat split; try lia; try congruence.
  intros Hal. rewrite K5, H5; auto.
Qed.

Lemma check_passed (bot : t) (now : Q) :
  _check_session_limits bot now = true ->
  (total (stats bot) < max_actions_per_session (config bot))%Z.
Proof.
  unfold _check_session_limits. intros E.
  destruct (match session_start (stats bot) with Some _ => _ | None => _ end);
    [discriminate|].
  destruct (Z.geb_spec (total (stats bot)) (max_actions_per_session (config bot)));
    [discriminate | assumption].
Qed.

Lemma process_content_counted (bot : t) (url : string) (v : visit) :
  counted bot (fst (fst (process_content bot url v)))
    (snd (process_content bot url v)).
Proof.
  unfold process_content.
  destruct (_check_session_limits bot (t_check v)) eqn:E; cbn [negb fst snd];
    [|apply counted_limit].
  apply check_passed in E.
  destruct (before_goto v); unfold counted; cbn.
  - repeat split; try lia.
  - destruct (auto_like (config bot)), (liked v), (raised v); cbn;
      repeat split; try lia; try discriminate.
Qed.

Lemma process_url_counted (bot : t) (url : string) (v : visit) :
  counted bot (fst (fst (process_url bot url v))) (snd (process_url bot url v)).
Proof.
  unfold process_url, process_reel, process_post.
  destruct (str_contains "/reel/" _); [apply process_content_counted|].
  destruct (str_contains "/p/" _); [apply process_content_counted|].
  apply counted_refl.
Qed.

Lemma process_urls_from_counted (urls : list string) :
  forall (i : nat) (bot : t) (env : nat -> turn),
    counted bot (fst (process_urls_from i bot urls env))
      (snd (process_urls_from i bot urls env)).
Proof.
  induction urls as [|url rest IH]; intros i bot env; cbn [process_urls_from].
  - apply counted_refl.
  - destruct (negb _); [apply counted_limit|].
    pose proof (process_url_counted bot url (the_visit (env i))) as H1.
    destruct (process_url bot url (the_visit (env i))) as [[bot' ok] ev].
    pose proof (IH (S i) bot' env) as H2.
    destruct (process_urls_from (S i) bot' rest env) as [bot'' ev'].
    cbn [fst snd] in *. eapply counted_trans; eassumption.
Qed.

(** One URL counts for one action at most. *)
Lemma process_url_one (bot : t) (url : string) (v : visit) :
  (total (stats (fst (fst (process_url bot url v)))) <= total (stats bot) + 1)%Z.
Proof.
  unfold process_url, process_reel, process_post, process_content.
  destruct (str_contains "/reel/" _); [|destruct (str_contains "/p/" _)];
    try (destruct (negb _); [|destruct (before_goto v)]); cbn; lia.
Qed.

Lemma process_urls_from_growth (urls : list string) :
  forall (i : nat) (bot : t) (env : nat -> turn),
    (total (stats (fst (process_urls_from i bot urls env)))
     <= total (stats bot) + Z.of_nat (List.length urls))%Z.
Proof.
  induction urls as [|url rest IH]; intros i bot env;
    cbn [process_urls_from List.length].
  - cbn. lia.
  - destruct (negb _); [cbn; lia|].
    pose proof (process_url_one bot url (the_visit (env i))) as H1.
    destruct (process_url bot url (the_visit (env i))) as [[bot' ok] ev].
    pose proof (IH (S i) bot' env) as H2.
    destruct (process_urls_from (S i) bot' rest env) as [bot'' ev'].
    cbn [fst snd] in *. lia.
Qed.

End Counters.

(** X21.  In a [process_urls] run the pages opened are at most the growth of
    [stats['total']], which is at most the number of URLs: [total] is
    counted before the [try], so an attempt that raises before [page.goto]
    counts for an action and for an error without a page being opened.  The
    likes grow by the number of pages opened at most, the errors by the
    growth of [total] at most, the follows not at all, and the likes not at
    all when [auto_like] is off. *)
Theorem process_urls_counters :
  forall (bot : StealthBot.t) (urls : list string) (env : nat -> StealthBot.turn),
    let bot' := fst (StealthBot.process_urls bot urls env) in
    let opened := count_goto (snd (StealthBot.process_urls bot urls env)) in
    let s := StealthBot.stats bot in
    let s' := StealthBot.stats bot' in
    let grown := (StealthBot.total s' - StealthBot.total s)%Z in
    (0 <= opened <= grown)%Z /\
    (grown <= Z.of_nat (List.length urls))%Z /\
    (StealthBot.likes s <= StealthBot.likes s' <= StealthBot.likes s + opened)%Z /\
    (StealthBot.errors s <= StealthBot.errors s' <= StealthBot.errors s + grown)%Z /\
    StealthBot.follows s' = StealthBot.follows s /\
    (StealthBot.auto_like (StealthBot.config bot) = false ->
     StealthBot.likes s' = StealthBot.likes s).
Proof.
  intros bot urls env.
  destruct (process_urls_from_counted urls 0 bot env)
    as (H0 & H1 & H2 & H3 & H4 & H5 & _).
  pose proof (process_urls_from_growth urls 0 bot env) as Hg.
  cbn zeta. unfold StealthBot.process_urls. repeat split; try tauto; lia.
Qed.

(** A page may stay unopened while the action and the error are counted. *)
Lemma process_urls_counts_unopened_page :
  let env := fun _ : nat =>
    StealthBot.mk_turn 0 (StealthBot.mk_visit 0 [] false false true) in
  let run := StealthBot.process_urls idle_bot
               ["https://www.instagram.com/reel/a/"%string] env in
  count_goto (snd run) = 0%Z /\
  StealthBot.total (StealthBot.stats (fst run)) = 1%Z /\
  StealthBot.errors (StealthBot.stats (fst run)) = 1%Z.
Proof. vm_compute. repeat split. Qed.

(** X22.  A run never takes the count of actions past
    [max_actions_per_session]: the pages opened are at most what was left of
    the budget. *)
Theorem process_urls_within_budget :
  forall (bot : StealthBot.t) (urls : list string) (env : nat -> StealthBot.turn),
    (StealthBot.total (StealthBot.stats bot)
     <= StealthBot.max_actions_per_session (StealthBot.config bot))%Z ->
    (StealthBot.total (StealthBot.stats (fst (StealthBot.process_urls bot urls env)))
     <= StealthBot.max_actions_per_session (StealthBot.config bot))%Z /\
    (count_goto (snd (StealthBot.process_urls bot urls env))
     <= StealthBot.max_actions_per_session (StealthBot.config bot)
        - StealthBot.total (StealthBot.stats bot))%Z.
Proof.
  intros bot urls env Hb.
  destruct (process_urls_from_counted urls 0 bot env)
    as (_ & H1 & _ & _ & _ & _ & H6 & _).
  unfold StealthBot.process_urls. specialize (H6 Hb). split; lia.
Qed.

Lemma process_urls_within_budget_witness :
  (StealthBot.total (StealthBot.stats idle_bot)
   <= StealthBot.max_actions_per_session (StealthBot.config idle_bot))%Z /\
  (count_goto
     (snd (StealthBot.process_urls idle_bot
             ["https://www.instagram.com/reel/a/"%string;
              "https://www.instagram.com/p/b/"%string] steady_env))
   <= 1 - 0)%Z.
Proof.
  assert (H : (StealthBot.total (StealthBot.stats idle_bot)
               <= StealthBot.max_actions_per_session (StealthBot.config idle_bot))%Z)
    by (cbn; lia).
  split; [exact H|].
  exact (proj2 (process_urls_within_budget idle_bot _ steady_env H)).
Defined.

End RunToRun.


(** ** Witnesses of the rules of the behaviour *)

Section BehaviourWitnesses.

Local Open Scope Q_scope.

Lemma some_draws_unit : unit_draws some_draws.
Proof. repeat split; unfold Qle, Qlt; cbn; lia. Qed.

Lemma decision_rules_ranges_witness :
  HumanBehavior.should_make_mistake (HumanBehavior.__init__ 0 some_draws) (1 # 100)
  = Ok true.
Proof.
  destruct (decision_rules_ranges (HumanBehavior.__init__ 0 some_draws) (1 # 100))
    as [(m & Hm & Hlow & _) _].
  - apply sample_personality_within, some_draws_unit.
  - unfold Qle; cbn; lia.
  - unfold Qle; cbn; lia.
  - rewrite Hm. f_equal. apply Hlow. unfold Qlt; cbn; lia.
Defined.

Lemma fatigue_only_adds_mistakes_witness :
  HumanBehavior.should_make_mistake
    (HumanBehavior.update_fatigue 3600 (HumanBehavior.__init__ 0 some_draws)) (1 # 100)
  = Ok true.
Proof.
  apply (fatigue_only_adds_mistakes
           (HumanBehavior.__init__ 0 some_draws)
           (HumanBehavior.update_fatigue 3600 (HumanBehavior.__init__ 0 some_draws))
           (1 # 100)).
  - reflexivity.
  - vm_compute. discriminate.
  - vm_compute. reflexivity.
Defined.

Lemma watch_time_multiplier_range_witness :
  exists m : Q,
    HumanBehavior.get_watch_time_multiplier
      (HumanBehavior.__init__ 0 some_draws) (1 # 2) = Ok m /\
    4 # 10 <= m.
Proof.
  destruct (watch_time_multiplier_range (HumanBehavior.__init__ 0 some_draws)
              (1 # 2) (uniform (6 # 10) (14 # 10) (1 # 2)) eq_refl)
    as (m & Hm & Hlo & _).
  - split; [unfold Qle | unfold Qlt]; cbn; lia.
  - exists m. split; assumption.
Defined.

Lemma fatigue_saturates_witness :
  HumanBehavior.fatigue
    (HumanBehavior.update_fatigue 1800 (HumanBehavior.mk 0 0 30 (PyDict [])))
  == 8 # 10.
Proof.
  apply (fatigue_saturates (HumanBehavior.mk 0 0 30 (PyDict [])) 1800).
  - unfold Qle; cbn; lia.
  - cbn. lia.
Defined.

End BehaviourWitnesses.

(** ** Idle moves *)

Section IdleMoves.

Import AdvancedMouseSimulator.
Local Open Scope R_scope.

Lemma move_to_outcome (b : HumanBehavior.t) (pos target : ipoint) (allow : bool)
  (r1 r2 : move_draws) (legs : list (list ipoint)) (pos' : ipoint) :
  move_to b pos target allow r1 r2 = Ok (legs, pos') ->
  (legs = [] /\ pos' = pos) \/
  (List.length legs = 1%nat /\
   (Z.abs (fst pos' - fst target) <= 3)%Z /\
   (Z.abs (snd pos' - snd target) <= 3)%Z).
Proof.
  intros H.
  destruct (Rlt_dec (distance_to pos target) 5) as [Hs|Hl].
  - rewrite (move_to_short_route_holds b pos target allow r1 r2 Hs) in H.
    injection H as <- <-. now left.
  - destruct (overshoot_decision b (distance_to pos target) allow r1) as [ov|e] eqn:Hd.
    + destruct (move_to_one_trajectory_holds b pos target allow ov r1 r2 Hl Hd)
        as (path & sent & _ & _ & _ & _ & _ & Hmove & _ & Hx & Hy).
      rewrite Hmove in H. injection H as <- <-. right. now repeat split.
    + unfold move_to in H.
      rewrite (move_leg_raises b pos target allow r1 e Hl Hd) in H. discriminate.
Qed.

End IdleMoves.

(** X23.  In a viewport of 100 by 100 or more, a pointer that is 47 or more
    from every edge is still so after an idle move. *)
Theorem idle_movement_keeps_pointer_inside :
  forall (b : HumanBehavior.t) (current : ipoint) (w h dx dy : Z)
         (r1 r2 : AdvancedMouseSimulator.move_draws)
         (legs : list (list ipoint)) (pos' : ipoint),
    (100 <= w)%Z -> (100 <= h)%Z ->
    inside 47 w h current ->
    HumanActions.idle_movement b current w h dx dy r1 r2 = Ok (legs, pos') ->
    inside 47 w h pos'.
Proof.
  intros b current w h dx dy r1 r2 legs pos' Hw Hh Hin Hmove.
  unfold HumanActions.idle_movement in Hmove.
  destruct (move_to_outcome _ _ _ _ _ _ _ _ Hmove) as [[_ ->]|(_ & Hx & Hy)];
    [exact Hin|].
  unfold HumanActions.idle_target in Hx, Hy. cbn [fst snd] in Hx, Hy.
  unfold inside. lia.
Qed.

Lemma idle_movement_keeps_pointer_inside_witness :
  inside 47 1280 800 (640, 400)%Z /\
  exists (legs : list (list ipoint)) (pos' : ipoint),
    HumanActions.idle_movement (HumanBehavior.__init__ 0 some_draws)
      (640, 400)%Z 1280 800 60 (-20) still_draws still_draws = Ok (legs, pos') /\
    inside 47 1280 800 pos'.
Proof.
  assert (H : inside 47 1280 800 (640, 400)%Z) by (unfold inside; cbn; lia).
  split; [exact H|].
  set (b := HumanBehavior.__init__ 0 some_draws).
  assert (Hfar : (~ AdvancedMouseSimulator.distance_to (640, 400)%Z (700, 380)%Z < 5)%R)
    by (apply far_is_long; cbn; lia).
  destruct (move_to_one_trajectory_holds b (640, 400)%Z (700, 380)%Z true _
              still_draws still_draws Hfar
              (decision_rolls b _ still_draws true eq_refl))
    as (path & sent & _ & _ & _ & _ & _ & Hmove & _).
  exists [sent], (last sent (640, 400)%Z). split; [exact Hmove|].
  exact (idle_movement_keeps_pointer_inside b (640, 400)%Z 1280 800 60 (-20)
           still_draws still_draws _ _ ltac:(lia) ltac:(lia) H Hmove).
Defined.

(** ** Watching *)

Section WatchLoop.

Import Watching.
Local Open Scope Q_scope.

Lemma adjusted_delay_clamp (b : HumanBehavior.t) (base_min base_max : Q)
  (r : HumanBehavior.delay_draws) (d : Q) :
  HumanBehavior.get_adjusted_delay b base_min base_max r = Ok d ->
  base_min * (5 # 10) <= d /\
  (base_min * (5 # 10) <= base_max * 2 -> d <= base_max * 2).
Proof.
  unfold HumanBehavior.get_adjusted_delay.
  destruct (py_getitem _ _) as [v|e]; cbn [bind]; [|discriminate].
  destruct (py_float v) as [speed|e]; cbn [bind]; [|discriminate].
  intros H. apply Ok_inj in H. subst d.
  match goal with |- context [Qmin ?a ?x] => generalize x end. intros x.
  qmin_cases; split; intros; lra.
Qed.

Lemma sumQ_cons (x : Q) (l : list Q) : sumQ (x :: l) = x + sumQ l.
Proof. reflexivity. Qed.

Lemma loop_spec_done (left : Q) (b : HumanBehavior.t) :
  left <= 0 -> loop_spec left b b [].
Proof.
  intros H. unfold loop_spec. cbn [List.length sumQ fold_right].
  change (inject_Z (Z.of_nat 0)) with 0.
  split; [|split; [|split; [|split; [|split; [|split]]]]].
  - qmax_case 0 left; lra.
  - constructor.
  - qmax_case 0 left; lra.
  - now left.
  - lia.
  - reflexivity.
  - reflexivity.
Qed.

Lemma inject_S (n : nat) : inject_Z (Z.of_nat (S n)) == inject_Z (Z.of_nat n) + 1.
Proof. rewrite Nat2Z.inj_succ. unfold Z.succ. rewrite inject_Z_plus. reflexivity. Qed.

Lemma watch_loop_spec (waits nows : nat -> Q) (watch_time : Q) :
  (forall j, 2 <= waits j /\ waits j <= 5) ->
  forall (fuel i : nat) (elapsed : Q) (b : HumanBehavior.t),
    watch_time - elapsed <= 2 * inject_Z (Z.of_nat fuel) ->
    exists (b' : HumanBehavior.t) (sleeps : list Q),
      watch_loop fuel i elapsed watch_time waits nows b = Some (b', sleeps) /\
      loop_spec (watch_time - elapsed) b b' sleeps.
Proof.
  intros Hw fuel. induction fuel as [|fuel IH]; intros i elapsed b Hfuel;
    cbn [watch_loop]; destruct (Qlt_le_dec elapsed watch_time) as [Hlt|Hge].
  - exfalso. change (inject_Z (Z.of_nat 0)) with 0 in Hfuel. lra.
  - exists b, []. split; [reflexivity|]. apply loop_spec_done. lra.
  - destruct (Hw i) as [Hw2 Hw5].
    pose proof (inject_S fuel) as HS.
    destruct (IH (S i) (elapsed + waits i) (HumanBehavior.update_fatigue (nows i) b))
      as (b' & sleeps & Hrun & Hsum & Hall & Hlow & Hup & Hcount & Hpers & Hstart);
      [lra|].
    rewrite Hrun. eexists _, _. split; [reflexivity|].
    pose proof (inject_S (List.length sleeps)) as HL.
    unfold loop_spec. cbn [List.length]. rewrite sumQ_cons.
    assert (Hn : 0 <= inject_Z (Z.of_nat (List.length sleeps))).
    { change 0 with (inject_Z 0). rewrite <- Zle_Qle. lia. }
    assert (Hup' : inject_Z (Z.of_nat (List.length sleeps)) == 0 \/
                   2 * inject_Z (Z.of_nat (List.length sleeps))
                   < watch_time - (elapsed + waits i) + 2).
    { destruct Hup as [->|Hup]; [left; reflexivity | now right]. }
    set (n := inject_Z (Z.of_nat (List.length sleeps))) in *.
    set (n' := inject_Z (Z.of_nat (S (List.length sleeps)))) in *.
    clearbody n n'.
    split; [|split; [|split; [|split; [|split; [|split]]]]].
    + rewrite Hsum.
      qmax_case 0 (watch_time - (elapsed + waits i));
        qmax_case 0 (watch_time - elapsed);
        qmin_case (waits i) (watch_time - elapsed); lra.
    + constructor; [|exact Hall].
      qmin_case (waits i) (watch_time - elapsed); split; lra.
    + revert Hlow.
      qmax_case 0 (watch_time - (elapsed + waits i));
        qmax_case 0 (watch_time - elapsed); intros; lra.
    + right. destruct Hup' as [Hup'|Hup']; lra.
    + rewrite Hcount. cbn [HumanBehavior.update_fatigue HumanBehavior.actions_count]. lia.
    + rewrite Hpers. reflexivity.
    + rewrite Hstart. reflexivity.
  - exists b, []. split; [reflexivity|]. apply loop_spec_done. lra.
Qed.

End WatchLoop.

Section WatchEntries.

Local Open Scope Q_scope.

(** X24.  The watch time of [watch_content] is at least a fifth of [base_min];
    with the traits within their bounds and a fatigue that is not negative
    it is at most 3.36 times [base_max]. *)
Theorem watch_time_range :
  forall (b : HumanBehavior.t) (base_min base_max u : Q)
         (r : HumanBehavior.delay_draws),
    personality_within_bounds (HumanBehavior.personality b) ->
    unit_draw u ->
    0 <= base_min -> base_min <= base_max ->
    exists watch_time : Q,
      Watching.watch_time_of b base_min base_max u r = Ok watch_time /\
      (2 # 10) * base_min <= watch_time /\
      (0 <= HumanBehavior.fatigue b -> watch_time <= (336 # 100) * base_max).
Proof.
  intros b base_min base_max u r
    ((speed & Hs & _) & _ & (patience & Hp & Hp1 & Hp2) & _) [Hu0 Hu1] H0 Hle.
  unfold Watching.watch_time_of.
  destruct (HumanBehavior.get_adjusted_delay b base_min base_max r) as [d|e] eqn:Hd.
  2:{ exfalso. unfold HumanBehavior.get_adjusted_delay in Hd. rewrite Hs in Hd.
      cbn [bind py_float] in Hd. discriminate. }
  destruct (adjusted_delay_clamp _ _ _ _ _ Hd) as [Hd1 Hd2].
  specialize (Hd2 ltac:(lra)).
  unfold HumanBehavior.get_watch_time_multiplier. rewrite Hp. cbn [bind py_float].
  eexists. split; [reflexivity|].
  unfold uniform.
  set (f := (8 # 10) + ((12 # 10) - (8 # 10)) * u).
  assert (Hf : 8 # 10 <= f /\ f <= 12 # 10) by (unfold f; split; lra).
  clearbody f.
  assert (Hm : 5 # 10 <= Qmax (5 # 10) (patience - HumanBehavior.fatigue b * (3 # 10)) /\
               (0 <= HumanBehavior.fatigue b ->
                Qmax (5 # 10) (patience - HumanBehavior.fatigue b * (3 # 10)) <= 14 # 10)).
  { qmax_case (5 # 10) (patience - HumanBehavior.fatigue b * (3 # 10));
      split; intros; lra. }
  set (m := Qmax _ _) in *. clearbody m. destruct Hm as [Hm1 Hm2].
  assert (Hmf1 : 4 # 10 <= m * f) by nra.
  assert (Hmf2 : 0 <= HumanBehavior.fatigue b -> m * f <= 168 # 100).
  { intros Hf0. specialize (Hm2 Hf0). nra. }
  set (mf := m * f) in *. clearbody mf.
  split; [nra|]. intros Hf0. specialize (Hmf2 Hf0). nra.
Qed.

(** X25.  With every wait drawn in [[2, 5]], the loop of [watch_content]
    ends; its own sleeps, each in [(0, 5]], add up to the watch time (to
    nothing when that is not positive); the turns, each of which records one
    action, number between a fifth of the watch time and half of it plus
    one. *)
Theorem watch_loop_sleeps_watch_time :
  forall (fuel : nat) (watch_time : Q) (waits nows : nat -> Q)
         (b : HumanBehavior.t),
    (forall j, 2 <= waits j /\ waits j <= 5) ->
    watch_time <= 2 * inject_Z (Z.of_nat fuel) ->
    exists (b' : HumanBehavior.t) (sleeps : list Q),
      Watching.watch_loop fuel 0 0 watch_time waits nows b = Some (b', sleeps) /\
      Watching.sumQ sleeps == Qmax 0 watch_time /\
      Forall (fun s => 0 < s /\ s <= 5) sleeps /\
      watch_time <= 5 * inject_Z (Z.of_nat (List.length sleeps)) /\
      (sleeps = [] \/ 2 * inject_Z (Z.of_nat (List.length sleeps)) < watch_time + 2) /\
      HumanBehavior.actions_count b'
      = (HumanBehavior.actions_count b + Z.of_nat (List.length sleeps))%Z.
Proof.
  intros fuel watch_time waits nows b Hw Hfuel.
  destruct (watch_loop_spec waits nows watch_time Hw fuel 0%nat 0 b)
    as (b' & sleeps & Hrun & Hsum & Hall & Hlow & Hup & Hcount & _); [lra|].
  exists b', sleeps.
  assert (E : watch_time - 0 == watch_time) by ring.
  repeat split; try assumption.
  - rewrite Hsum. now rewrite E.
  - revert Hlow. qmax_case 0 (watch_time - 0). intros; lra. intros; lra.
  - destruct Hup as [Hup|Hup]; [now left | right; lra].
Qed.

Lemma watch_time_range_witness :
  exists watch_time : Q,
    Watching.watch_time_of (HumanBehavior.__init__ 0 some_draws) 3 8 (1 # 2)
      (HumanBehavior.mk_delay 0 (1 # 2) 0) = Ok watch_time /\
    (2 # 10) * 3 <= watch_time /\ watch_time <= (336 # 100) * 8.
Proof.
  destruct (watch_time_range (HumanBehavior.__init__ 0 some_draws) 3 8 (1 # 2)
              (HumanBehavior.mk_delay 0 (1 # 2) 0))
    as (wt & Hrun & Hlo & Hhi).
  - apply sample_personality_within, some_draws_unit.
  - split; [unfold Qle | unfold Qlt]; cbn; lia.
  - unfold Qle; cbn; lia.
  - unfold Qle; cbn; lia.
  - exists wt. repeat split; [exact Hrun | exact Hlo | apply Hhi].
    unfold Qle; cbn; lia.
Defined.

Lemma watch_loop_sleeps_watch_time_witness :
  exists (b' : HumanBehavior.t) (sleeps : list Q),
    Watching.watch_loop 4 0 0 7 (fun _ => 3) (fun i => inject_Z (Z.of_nat i))
      blank_behavior = Some (b', sleeps) /\
    Watching.sumQ sleeps == Qmax 0 7 /\
    HumanBehavior.actions_count b'
    = (HumanBehavior.actions_count blank_behavior + Z.of_nat (List.length sleeps))%Z.
Proof.
  destruct (watch_loop_sleeps_watch_time 4 7 (fun _ => 3)
              (fun i => inject_Z (Z.of_nat i)) blank_behavior)
    as (b' & sleeps & Hrun & Hsum & _ & _ & _ & Hcount).
  - intros j. split; unfold Qle; cbn; lia.
  - unfold Qle; cbn; lia.
  - exists b', sleeps. repeat split; assumption.
Defined.

End WatchEntries.

(** ** instagram_human.py *)

Section InstagramPaths.

Import InstagramHuman.
Local Open Scope Q_scope.

Lemma q_int_Z (z : Z) : q_int (inject_Z z) = z.
Proof.
  unfold q_int. destruct (Qlt_le_dec _ _); [apply Qceiling_Z | apply Qfloor_Z].
Qed.

Lemma q_int_resp (x y : Q) : x == y -> q_int x = q_int y.
Proof.
  intros E. unfold q_int.
  destruct (Qlt_le_dec x 0) as [Hx|Hx], (Qlt_le_dec y 0) as [Hy|Hy].
  - now rewrite E.
  - exfalso. lra.
  - exfalso. lra.
  - now rewrite E.
Qed.

Lemma q_int_between (a b : Z) (x : Q) :
  inject_Z a <= x -> x <= inject_Z b -> (a <= q_int x <= b)%Z.
Proof.
  intros Ha Hb. unfold q_int. destruct (Qlt_le_dec x 0) as [Hx|Hx].
  - split.
    + rewrite <- (Qceiling_Z a). now apply Qceiling_resp_le.
    + rewrite <- (Qceiling_Z b). now apply Qceiling_resp_le.
  - split.
    + rewrite <- (Qfloor_Z a). now apply Qfloor_resp_le.
    + rewrite <- (Qfloor_Z b). now apply Qfloor_resp_le.
Qed.

(** [int(x)] is less than one away from [x]. *)
Lemma q_int_near (x : Q) : x - 1 < inject_Z (q_int x) /\ inject_Z (q_int x) < x + 1.
Proof.
  unfold q_int. destruct (Qlt_le_dec x 0) as [Hx|Hx].
  - pose proof (Qle_ceiling x) as H1. pose proof (Qceiling_lt x) as H2.
    assert (E : inject_Z (Qceiling x - 1) == inject_Z (Qceiling x) - 1).
    { unfold Z.sub. rewrite inject_Z_plus. reflexivity. }
    rewrite E in H2. split; lra.
  - pose proof (Qfloor_le x) as H1. pose proof (Qlt_floor x) as H2.
    assert (E : inject_Z (Qfloor x + 1) == inject_Z (Qfloor x) + 1).
    { rewrite inject_Z_plus. reflexivity. }
    rewrite E in H2. split; lra.
Qed.

Lemma bezier_at_0 (a0 a1 a2 a3 : Q) : bezier a0 a1 a2 a3 0 == a0.
Proof. unfold bezier. ring. Qed.

Lemma bezier_at_1 (a0 a1 a2 a3 : Q) : bezier a0 a1 a2 a3 1 == a3.
Proof. unfold bezier. ring. Qed.

Lemma bezier_resp (a0 a1 a2 a3 t t' : Q) :
  t == t' -> bezier a0 a1 a2 a3 t == bezier a0 a1 a2 a3 t'.
Proof. intros E. unfold bezier. now rewrite E. Qed.

(** A point of the curve is a mean of the four control values. *)
Lemma bezier_between (lo hi a0 a1 a2 a3 t : Q) :
  0 <= t -> t <= 1 ->
  lo <= a0 <= hi -> lo <= a1 <= hi -> lo <= a2 <= hi -> lo <= a3 <= hi ->
  lo <= bezier a0 a1 a2 a3 t <= hi.
Proof.
  intros Ht0 Ht1 [L0 H0] [L1 H1] [L2 H2] [L3 H3].
  set (s := 1 - t). assert (Hs : 0 <= s) by (unfold s; lra).
  assert (W0 : 0 <= s * s * s) by (repeat apply Qmult_le_0_compat; assumption).
  assert (W1 : 0 <= 3 * (s * s) * t)
    by (repeat apply Qmult_le_0_compat; try assumption; lra).
  assert (W2 : 0 <= 3 * s * (t * t))
    by (repeat apply Qmult_le_0_compat; try assumption; lra).
  assert (W3 : 0 <= t * t * t) by (repeat apply Qmult_le_0_compat; assumption).
  assert (E : forall c : Q,
             bezier a0 a1 a2 a3 t - c
             == s * s * s * (a0 - c) + 3 * (s * s) * t * (a1 - c)
                + 3 * s * (t * t) * (a2 - c) + t * t * t * (a3 - c)).
  { intros c. unfold bezier, s. ring. }
  split.
  - assert (0 <= bezier a0 a1 a2 a3 t - lo); [|lra].
    rewrite (E lo).
    assert (P0 : 0 <= s * s * s * (a0 - lo)) by (apply Qmult_le_0_compat; [assumption|lra]).
    assert (P1 : 0 <= 3 * (s * s) * t * (a1 - lo)) by (apply Qmult_le_0_compat; [assumption|lra]).
    assert (P2 : 0 <= 3 * s * (t * t) * (a2 - lo)) by (apply Qmult_le_0_compat; [assumption|lra]).
    assert (P3 : 0 <= t * t * t * (a3 - lo)) by (apply Qmult_le_0_compat; [assumption|lra]).
    lra.
  - assert (0 <= - (bezier a0 a1 a2 a3 t - hi)); [|lra].
    rewrite (E hi).
    assert (P0 : 0 <= s * s * s * (hi - a0)) by (apply Qmult_le_0_compat; [assumption|lra]).
    assert (P1 : 0 <= 3 * (s * s) * t * (hi - a1)) by (apply Qmult_le_0_compat; [assumption|lra]).
    assert (P2 : 0 <= 3 * s * (t * t) * (hi - a2)) by (apply Qmult_le_0_compat; [assumption|lra]).
    assert (P3 : 0 <= t * t * t * (hi - a3)) by (apply Qmult_le_0_compat; [assumption|lra]).
    lra.
Qed.

Lemma bezier_int_between (a b : Z) (a0 a1 a2 a3 t : Q) :
  0 <= t -> t <= 1 ->
  inject_Z a <= a0 <= inject_Z b -> inject_Z a <= a1 <= inject_Z b ->
  inject_Z a <= a2 <= inject_Z b -> inject_Z a <= a3 <= inject_Z b ->
  (a <= q_int (bezier a0 a1 a2 a3 t) <= b)%Z.
Proof.
  intros Ht0 Ht1 H0 H1 H2 H3.
  destruct (bezier_between _ _ _ _ _ _ _ Ht0 Ht1 H0 H1 H2 H3) as [Hl Hh].
  now apply q_int_between.
Qed.

Lemma unit_ratio (i n : Z) :
  (0 <= i <= n)%Z -> (0 < n)%Z ->
  0 <= inject_Z i / inject_Z n /\ inject_Z i / inject_Z n <= 1.
Proof.
  intros [Hi Hin] Hn.
  assert (Hn' : 0 < inject_Z n) by (change 0 with (inject_Z 0); now rewrite <- Zlt_Qlt).
  assert (Hi' : 0 <= inject_Z i) by (change 0 with (inject_Z 0); now rewrite <- Zle_Qle).
  assert (Hin' : inject_Z i <= inject_Z n) by now rewrite <- Zle_Qle.
  split.
  - apply Qle_shift_div_l; [assumption | lra].
  - apply Qle_shift_div_r; [assumption | lra].
Qed.

Lemma full_ratio (n : Z) : (0 < n)%Z -> inject_Z n / inject_Z n == 1.
Proof.
  intros Hn.
  assert (Hn' : 0 < inject_Z n) by (change 0 with (inject_Z 0); now rewrite <- Zlt_Qlt).
  field. lra.
Qed.

Lemma zero_ratio (n : Z) : (0 < n)%Z -> inject_Z 0 / inject_Z n == 0.
Proof.
  intros Hn.
  assert (Hn' : 0 < inject_Z n) by (change 0 with (inject_Z 0); now rewrite <- Zlt_Qlt).
  change (inject_Z 0) with 0. field. lra.
Qed.

(** A control value lies between the two ends, 30 aside at most. *)
Lemma control_between (a b k : Z) (lo hi u : Q) :
  0 <= lo -> lo <= hi -> hi <= 1 -> unit_draw u -> (-30 <= k <= 30)%Z ->
  inject_Z (Z.min a b - 30)
  <= inject_Z a + inject_Z (b - a) * uniform lo hi u + inject_Z k
  <= inject_Z (Z.max a b + 30).
Proof.
  intros Hlo Hlh Hhi [Hu0 Hu1] [Hk1 Hk2].
  unfold uniform. set (c := lo + (hi - lo) * u).
  assert (Hc : 0 <= c /\ c <= 1) by (unfold c; split; nra). clearbody c.
  unfold Z.sub. rewrite !inject_Z_plus, !inject_Z_opp.
  change (inject_Z 30) with 30.
  rewrite Zle_Qle in Hk1, Hk2. change (inject_Z (-30)) with (-30) in Hk1.
  change (inject_Z 30) with 30 in Hk2.
  destruct (Z.min_spec a b) as [[H1 ->]|[H1 ->]];
    destruct (Z.max_spec a b) as [[H2 ->]|[H2 ->]]; try lia.
  - rewrite Zlt_Qlt in H1. split; nra.
  - rewrite Zle_Qle in H1. split; nra.
Qed.

Lemma path_length (start target : ipoint) (r : path_draws) (path : list ipoint) :
  generate_human_path start target r = Ok path ->
  List.length path = Z.to_nat (num_points r + 1).
Proof.
  unfold generate_human_path. destruct (num_points r =? 0)%Z; [discriminate|].
  intros H. apply Ok_inj in H. subst path.
  now rewrite length_map, length_seq.
Qed.

Lemma path_ok (start target : ipoint) (r : path_draws) :
  (0 < num_points r)%Z ->
  exists c1 c2 : qpoint,
    generate_human_path start target r
    = Ok (map (path_point (as_qpoint start) c1 c2 (as_qpoint target) r)
              (seq 0 (Z.to_nat (num_points r + 1)))).
Proof.
  intros Hn. unfold generate_human_path.
  destruct (Z.eqb_spec (num_points r) 0) as [E|_]; [lia|].
  eexists _, _. reflexivity.
Qed.

Lemma path_point_first (s c1 c2 e : qpoint) (sz : ipoint) (r : path_draws) :
  (0 < num_points r)%Z -> s = as_qpoint sz ->
  path_point s c1 c2 e r 0
  = ((fst sz + wobble_x r 0)%Z, (snd sz + wobble_y r 0)%Z).
Proof.
  intros Hn ->. unfold path_point, bezier_point, as_qpoint. cbn [fst snd].
  change (Z.of_nat 0) with 0%Z.
  rewrite !(q_int_resp _ _ (bezier_resp _ _ _ _ _ _ (zero_ratio _ Hn))).
  rewrite !(q_int_resp _ _ (bezier_at_0 _ _ _ _)), !q_int_Z. reflexivity.
Qed.

Lemma path_point_last (s c1 c2 e : qpoint) (ez : ipoint) (r : path_draws) :
  (0 < num_points r)%Z -> e = as_qpoint ez ->
  let n := Z.to_nat (num_points r) in
  path_point s c1 c2 e r n = ((fst ez + wobble_x r n)%Z, (snd ez + wobble_y r n)%Z).
Proof.
  intros Hn -> n. unfold path_point, bezier_point, as_qpoint. cbn [fst snd].
  unfold n. rewrite Z2Nat.id by lia.
  rewrite !(q_int_resp _ _ (bezier_resp _ _ _ _ _ _ (full_ratio _ Hn))).
  rewrite !(q_int_resp _ _ (bezier_at_1 _ _ _ _)), !q_int_Z. reflexivity.
Qed.

Lemma map_seq_last {A : Type} (f : nat -> A) (n : nat) (d : A) :
  last (map f (seq 0 (S n))) d = f n.
Proof.
  rewrite seq_S, map_app. cbn [map Nat.add]. apply last_last.
Qed.

Lemma human_path_ends :
  forall (start target : ipoint) (r : path_draws),
    well_drawn r ->
    exists path : list ipoint,
      generate_human_path start target r = Ok path /\
      human_move start target r = Ok (path, target) /\
      List.length path = S (Z.to_nat (num_points r)) /\
      around 1 start start (hd start path) /\
      around 1 target target (last path start).
Proof.
  intros start target r (Hn & Hx & Hy).
  assert (Hpos : (0 < num_points r)%Z) by lia.
  destruct (path_ok start target r Hpos) as (c1 & c2 & Hpath).
  eexists. split; [exact Hpath|].
  split; [unfold human_move; rewrite Hpath; reflexivity|].
  replace (Z.to_nat (num_points r + 1)) with (S (Z.to_nat (num_points r))) by lia.
  split; [now rewrite length_map, length_seq|].
  split.
  - cbn [seq map hd]. rewrite (path_point_first _ _ _ _ start r Hpos eq_refl).
    specialize (Hx 0%nat). specialize (Hy 0%nat).
    unfold around. cbn [fst snd]. lia.
  - rewrite map_seq_last.
    rewrite (path_point_last _ _ _ _ target r Hpos eq_refl).
    specialize (Hx (Z.to_nat (num_points r))). specialize (Hy (Z.to_nat (num_points r))).
    unfold around. cbn [fst snd]. lia.
Qed.

End InstagramPaths.

Section InstagramEntries.

Import InstagramHuman.
Local Open Scope Q_scope.

(** X26.  [random_delay] returns a delay between its two arguments; while
    the normal deviate stays within two standard deviations the clamp does
    nothing, so the two ends are reached at two standard deviations
    exactly. *)
Theorem random_delay_range :
  forall (min_sec max_sec z : Q),
    min_sec <= max_sec ->
    min_sec <= random_delay min_sec max_sec z /\
    random_delay min_sec max_sec z <= max_sec /\
    (-2 <= z -> z <= 2 ->
     random_delay min_sec max_sec z
     == (min_sec + max_sec) / 2 + z * ((max_sec - min_sec) / 4)).
Proof.
  intros min_sec max_sec z Hle. unfold random_delay. qconst.
  set (d := (min_sec + max_sec) * (1 # 2) + z * ((max_sec - min_sec) * (1 # 4))).
  assert (Hd : -2 <= z -> z <= 2 -> min_sec <= d /\ d <= max_sec).
  { intros Hz1 Hz2. unfold d. split; nra. }
  clearbody d.
  split; [|split].
  - qmin_cases; lra.
  - qmin_cases; lra.
  - intros Hz1 Hz2. destruct (Hd Hz1 Hz2). qmin_cases; lra.
Qed.

(** X27.  With the draws of [random.randint] in their ranges,
    [generate_human_path] returns [num_points + 1] points, the first within
    one pixel of the start on each axis and the last within one pixel of the
    end; [human_move] sends them and records the end itself as the
    position of the pointer. *)
Theorem human_path_endpoints :
  forall (start target : ipoint) (r : path_draws),
    well_drawn r ->
    exists path : list ipoint,
      generate_human_path start target r = Ok path /\
      human_move start target r = Ok (path, target) /\
      List.length path = S (Z.to_nat (num_points r)) /\
      around 1 start start (hd start path) /\
      around 1 target target (last path start).
Proof. exact human_path_ends. Qed.

(** X28.  With all its draws in their ranges, every point of a path of
    [generate_human_path] is in the rectangle spanned by the start and the
    end, 31 pixels outside it at most. *)
Theorem human_path_stays_around :
  forall (start target : ipoint) (r : path_draws) (path : list ipoint),
    well_drawn r -> controls_drawn r ->
    generate_human_path start target r = Ok path ->
    Forall (around 31 start target) path.
Proof.
  intros start target r path (Hn & Hx & Hy)
    ((U1 & U2 & U3 & U4) & (K1 & K2 & K3 & K4)) Hpath.
  assert (Hpos : (0 < num_points r)%Z) by lia.
  unfold generate_human_path in Hpath.
  destruct (Z.eqb_spec (num_points r) 0) as [E|_]; [lia|].
  apply Ok_inj in Hpath. subst path.
  apply Forall_forall. intros p Hp. apply in_map_iff in Hp.
  destruct Hp as (i & <- & Hi). apply in_seq in Hi.
  assert (Ht : 0 <= inject_Z (Z.of_nat i) / inject_Z (num_points r) /\
               inject_Z (Z.of_nat i) / inject_Z (num_points r) <= 1)
    by (apply unit_ratio; lia).
  destruct Ht as [Ht0 Ht1].
  assert (Hends : forall a b : Z,
             inject_Z (Z.min a b - 30) <= inject_Z a <= inject_Z (Z.max a b + 30) /\
             inject_Z (Z.min a b - 30) <= inject_Z b <= inject_Z (Z.max a b + 30)).
  { intros a b. rewrite <- !Zle_Qle. lia. }
  assert (L2 : 0 <= 2 # 10) by (unfold Qle; cbn; lia).
  assert (L24 : 2 # 10 <= 4 # 10) by (unfold Qle; cbn; lia).
  assert (L4 : 4 # 10 <= 1) by (unfold Qle; cbn; lia).
  assert (L6 : 0 <= 6 # 10) by (unfold Qle; cbn; lia).
  assert (L68 : 6 # 10 <= 8 # 10) by (unfold Qle; cbn; lia).
  assert (L8 : 8 # 10 <= 1) by (unfold Qle; cbn; lia).
  unfold path_point, bezier_point, as_qpoint, around. cbn [fst snd].
  specialize (Hx i). specialize (Hy i).
  split.
  - match goal with |- context [q_int ?v] =>
      assert (Hb : (Z.min (fst start) (fst target) - 30 <= q_int v
                    <= Z.max (fst start) (fst target) + 30)%Z)
    end.
    { apply (bezier_int_between _ _ _ _ _ _ _ Ht0 Ht1);
        try apply Hends; now apply control_between. }
    lia.
  - match goal with |- context [q_int ?v] =>
      assert (Hb : (Z.min (snd start) (snd target) - 30 <= q_int v
                    <= Z.max (snd start) (snd target) + 30)%Z)
    end.
    { apply (bezier_int_between _ _ _ _ _ _ _ Ht0 Ht1);
        try apply Hends; now apply control_between. }
    lia.
Qed.

(** X29.  In the branch of [human_click] where the element has a bounding
    box of 10/3 pixels or more each way, the point clicked is inside the
    box; it is the point given to [human_move], hence the recorded position
    of the pointer, and the last point sent to the mouse is within one pixel
    of it. *)
Theorem human_click_inside_box :
  forall (mouse_pos : ipoint) (b : box) (ux uy : Q) (r : path_draws),
    well_drawn r -> unit_draw ux -> unit_draw uy ->
    10 # 3 <= box_width b -> 10 # 3 <= box_height b ->
    let xy := click_point b ux uy in
    exists path : list ipoint,
      human_click mouse_pos b ux uy r = Ok (path, xy, xy) /\
      around 1 xy xy (last path mouse_pos) /\
      (box_x b <= inject_Z (fst xy) /\ inject_Z (fst xy) <= box_x b + box_width b) /\
      (box_y b <= inject_Z (snd xy) /\ inject_Z (snd xy) <= box_y b + box_height b).
Proof.
  intros mouse_pos b ux uy r Hr [Hx0 Hx1] [Hy0 Hy1] Hw Hh xy.
  destruct (human_path_ends mouse_pos xy r Hr) as (path & Hpath & Hmove & _ & _ & Hlast).
  exists path. split; [|split; [exact Hlast|]].
  - unfold human_click. fold xy. rewrite Hmove. reflexivity.
  - unfold xy, click_point, uniform. cbn [fst snd]. split.
    + set (v := box_x b + box_width b * ((3 # 10) + ((7 # 10) - (3 # 10)) * ux)).
      assert (Hv : box_x b + 1 <= v /\ v + 1 <= box_x b + box_width b)
        by (unfold v; split; nra).
      destruct (q_int_near v). lra.
    + set (v := box_y b + box_height b * ((3 # 10) + ((7 # 10) - (3 # 10)) * uy)).
      assert (Hv : box_y b + 1 <= v /\ v + 1 <= box_y b + box_height b)
        by (unfold v; split; nra).
      destruct (q_int_near v). lra.
Qed.

(** X30.  The swipe of [human_scroll] presses at 0.7 (for ['down'], else 0.3)
    of the height of the viewport, makes as many moves as steps were drawn,
    each of them within 5 pixels of the starting abscissa and between the
    two ends of the swipe, the last one at 0.3 (else 0.7) of the height, and
    releases there: it covers 0.4 of the height whatever [amount] is, and
    the recorded position of the pointer stays what it was. *)
Theorem human_scroll_swipe :
  forall (viewport_width viewport_height : Z) (mouse_pos : ipoint)
         (direction : string) (amount : option Z) (r : swipe_draws),
    (1 <= steps r)%Z ->
    (forall i, -5 <= jitter r i <= 5)%Z ->
    let start_x := (viewport_width / 2 + start_dx r)%Z in
    let start_y := fst (swipe_span viewport_height direction) in
    let end_y := snd (swipe_span viewport_height direction) in
    exists moves : list (Z * Q),
      human_scroll viewport_width viewport_height mouse_pos direction amount r
      = (MouseMove start_x start_y :: MouseDown ::
           map (fun m => MouseMove (fst m) (snd m)) moves ++ [MouseUp],
         mouse_pos) /\
      List.length moves = Z.to_nat (steps r) /\
      Forall (fun m => (Z.abs (fst m - start_x) <= 5)%Z /\
                       Qmin start_y end_y <= snd m /\
                       snd m <= Qmax start_y end_y) moves /\
      snd (last moves (start_x, start_y)) == end_y /\
      end_y - start_y
      == (if String.eqb direction "down" then - (4 # 10) else 4 # 10)
         * inject_Z viewport_height /\
      forall amount' : option Z,
        human_scroll viewport_width viewport_height mouse_pos direction amount' r
        = human_scroll viewport_width viewport_height mouse_pos direction amount r.
Proof.
  intros w h pos direction amount r Hs Hj start_x start_y end_y.
  exists (map (swipe_point start_x start_y end_y r) (seq 0 (Z.to_nat (steps r)))).
  split; [|split; [|split; [|split; [|split]]]].
  - unfold human_scroll. fold start_x start_y end_y. rewrite map_map. reflexivity.
  - now rewrite length_map, length_seq.
  - apply Forall_forall. intros m Hm. apply in_map_iff in Hm.
    destruct Hm as (i & <- & Hi). apply in_seq in Hi.
    unfold swipe_point. cbn [fst snd]. split; [specialize (Hj i); lia|].
    destruct (unit_ratio (Z.of_nat i + 1) (steps r)) as [Hc0 Hc1]; [lia | lia |].
    set (c := inject_Z (Z.of_nat i + 1) / inject_Z (steps r)) in *. clearbody c.
    split.
    + qmin_case start_y end_y; nra.
    + qmax_case start_y end_y; nra.
  - destruct (Z.to_nat (steps r)) as [|n] eqn:En; [lia|].
    rewrite map_seq_last. unfold swipe_point. cbn [snd].
    replace (Z.of_nat n + 1)%Z with (steps r) by lia.
    rewrite (full_ratio (steps r)) by lia. ring.
  - unfold start_y, end_y, swipe_span. destruct (String.eqb direction "down");
      cbn [fst snd]; ring.
  - reflexivity.
Qed.

End InstagramEntries.

Section InstagramWitnesses.

Import InstagramHuman.
Local Open Scope Q_scope.

Lemma straight_path_well_drawn : well_drawn straight_path_draws.
Proof. repeat split; cbn; lia. Qed.

Lemma straight_path_controls_drawn : controls_drawn straight_path_draws.
Proof. repeat split; cbn; try lia; unfold Qle, Qlt; cbn; lia. Qed.

Lemma random_delay_range_witness :
  (2 # 10) <= random_delay (2 # 10) (8 # 10) (-3) /\
  random_delay (2 # 10) (8 # 10) (-3) <= 8 # 10.
Proof.
  destruct (random_delay_range (2 # 10) (8 # 10) (-3)) as (H1 & H2 & _).
  - unfold Qle; cbn; lia.
  - split; assumption.
Defined.

Lemma human_path_endpoints_witness :
  exists path : list ipoint,
    human_move (215, 400)%Z (100, 700)%Z straight_path_draws
    = Ok (path, (100, 700)%Z) /\
    List.length path = 13%nat /\
    around 1 (100, 700)%Z (100, 700)%Z (last path (215, 400)%Z).
Proof.
  destruct (human_path_endpoints (215, 400)%Z (100, 700)%Z straight_path_draws
              straight_path_well_drawn)
    as (path & _ & Hmove & Hlen & _ & Hlast).
  exists path. split; [exact Hmove | split; [exact Hlen | exact Hlast]].
Defined.

Lemma human_path_stays_around_witness :
  exists path : list ipoint,
    generate_human_path (215, 400)%Z (100, 700)%Z straight_path_draws = Ok path /\
    Forall (around 31 (215, 400)%Z (100, 700)%Z) path.
Proof.
  destruct (path_ok (215, 400)%Z (100, 700)%Z straight_path_draws ltac:(cbn; lia))
    as (c1 & c2 & Hpath).
  eexists. split; [exact Hpath|].
  exact (human_path_stays_around _ _ _ _ straight_path_well_drawn
           straight_path_controls_drawn Hpath).
Defined.

Lemma human_click_inside_box_witness :
  exists path : list ipoint,
    human_click (215, 400)%Z sample_box (1 # 2) 0 straight_path_draws
    = Ok (path, (120, 303)%Z, (120, 303)%Z).
Proof.
  destruct (human_click_inside_box (215, 400)%Z sample_box (1 # 2) 0
              straight_path_draws straight_path_well_drawn)
    as (path & Hclick & _).
  - split; [unfold Qle | unfold Qlt]; cbn; lia.
  - split; [unfold Qle | unfold Qlt]; cbn; lia.
  - unfold Qle; cbn; lia.
  - unfold Qle; cbn; lia.
  - exists path. exact Hclick.
Defined.

Lemma human_scroll_swipe_witness :
  exists moves : list (Z * Q),
    human_scroll 430 932 (215, 400)%Z "down" (Some 10%Z) sample_swipe
    = (MouseMove 222 (inject_Z 932 * (7 # 10)) :: MouseDown ::
         map (fun m => MouseMove (fst m) (snd m)) moves ++ [MouseUp],
       (215, 400)%Z) /\
    List.length moves = 5%nat /\
    Forall (fun m => (Z.abs (fst m - 222) <= 5)%Z) moves /\
    snd (last moves (222%Z, inject_Z 932 * (7 # 10))) == inject_Z 932 * (3 # 10).
Proof.
  destruct (human_scroll_swipe 430 932 (215, 400)%Z "down" (Some 10%Z) sample_swipe)
    as (moves & Hrun & Hlen & Hall & Hlast & _).
  - cbn. lia.
  - intros i. cbn. lia.
  - exists moves. split; [exact Hrun|]. split; [exact Hlen|]. split; [|exact Hlast].
    eapply Forall_impl; [|exact Hall]. intros m Hm. exact (proj1 Hm).
Defined.

End InstagramWitnesses.

(** ** The claims on the pointer and the wheel *)

Section PointerClaims.

Import AdvancedMouseSimulator.
Local Open Scope R_scope.

Lemma distance_of_square (pos target : ipoint) (d : Z) :
  (0 <= d)%Z ->
  ((fst target - fst pos) ^ 2 + (snd target - snd pos) ^ 2 = d * d)%Z ->
  distance_to pos target = IZR d.
Proof.
  intros Hd H. unfold distance_to. rewrite H, mult_IZR.
  apply sqrt_square. now apply IZR_le.
Qed.

(** Three quarters of a turn past a whole number of turns. *)
Lemma perlin_three_quarters : _perlin_noise (11 / 4) 3 = -1.
Proof.
  rewrite perlin_three.
  replace (2 * PI * (11 / 4)) with (3 * (PI / 2) + 2 * INR 2 * PI) by (cbn; lra).
  replace (2 * (3 * (PI / 2) + 2 * INR 2 * PI)) with (PI + 2 * INR 5 * PI)
    by (cbn; lra).
  replace (2 * (PI + 2 * INR 5 * PI)) with (0 + 2 * INR 11 * PI) by (cbn; lra).
  rewrite !sin_shift_turns, sin_3PI2, sin_PI, sin_0. lra.
Qed.

Lemma py_int_of_Z (x : R) (z : Z) : x = IZR z -> py_int x = z.
Proof. intros ->. apply py_int_IZR. Qed.

Lemma route_100 : distance_to (0, 0)%Z (100, 0)%Z = 100.
Proof. apply (distance_of_square _ _ 100); cbn; lia. Qed.

Lemma route_100_controls : num_controls_of (0, 0)%Z (100, 0)%Z = 2%nat.
Proof.
  unfold num_controls_of. rewrite route_100.
  rewrite (py_int_of_Z (100 / 100) 1) by lra. reflexivity.
Qed.

Lemma route_100_points : num_points_of (0, 0)%Z (100, 0)%Z = 20%Z.
Proof.
  unfold num_points_of. rewrite route_100.
  rewrite (py_int_of_Z (100 / 5) 20) by lra. reflexivity.
Qed.

Lemma shaky_last_sample :
  emit_sample (time_u shaky_draws * 1000) 18 (100, 0)%Z = (98, -2)%Z.
Proof.
  unfold emit_sample. rewrite tremor_y_is_tremor_x. unfold tremor_x.
  cbn [time_u shaky_draws fst snd].
  replace (19 / 20000 * 1000 + INR 18 * (1 / 10)) with (11 / 4)
    by (unfold INR; lra).
  rewrite perlin_three_quarters. f_equal; apply py_int_of_Z; lra.
Qed.

(** The trajectory that the shaky draws give on the route of 100. *)
Lemma shaky_move :
  exists sent : list ipoint,
    move_to blank_behavior (0, 0)%Z (100, 0)%Z false shaky_draws still_draws
    = Ok ([sent], (98, -2)%Z) /\
    last sent (0, 0)%Z = (98, -2)%Z.
Proof.
  assert (Hfar : ~ distance_to (0, 0)%Z (100, 0)%Z < 5) by (rewrite route_100; lra).
  destruct (move_to_one_trajectory_holds blank_behavior (0, 0)%Z (100, 0)%Z false false
              shaky_draws still_draws Hfar eq_refl)
    as (path & sent & Hs & _ & _ & _ & _ & Hmove & Hend & _).
  destruct (spline_of_controls (0, 0)%Z (100, 0)%Z false shaky_draws)
    as (path' & Hs' & _ & _ & Hlen).
  rewrite Hs in Hs'. apply Ok_inj in Hs'. subst path'.
  rewrite route_100_controls, route_100_points in Hlen.
  change (((2 + 0 + 1) * Z.to_nat (20 / Z.of_nat (2 + 0 + 1)) + 1)%nat) with 19%nat in Hlen.
  rewrite Hlen in Hend. change (19 - 1)%nat with 18%nat in Hend.
  rewrite shaky_last_sample in Hend.
  exists sent. rewrite Hend in Hmove. split; [exact Hmove | exact Hend].
Qed.

Lemma long_route (pos target : ipoint) :
  (2500 < (fst target - fst pos) ^ 2 + (snd target - snd pos) ^ 2)%Z ->
  50 < distance_to pos target.
Proof.
  intros H. unfold distance_to.
  assert (H50 : sqrt 2500 = 50).
  { replace 2500 with (50 * 50) by lra. apply sqrt_square. lra. }
  rewrite <- H50. apply sqrt_lt_1; [lra | apply IZR_le; lia | apply IZR_lt; exact H].
Qed.

(** There are as many samples as segments, or more. *)
Lemma segments_le_samples (pos target : ipoint) (ov : bool) :
  (Z.of_nat (num_controls_of pos target + (if ov then 1 else 0) + 1)
   <= num_points_of pos target)%Z.
Proof.
  unfold num_controls_of, num_points_of.
  pose proof (distance_to_nonneg pos target) as Hd.
  pose proof (samples_vs_controls _ Hd) as H.
  assert (H0 : (0 <= py_int (distance_to pos target / 100))%Z).
  { apply py_int_nonneg. apply Rmult_le_pos; lra. }
  destruct ov; lia.
Qed.

(** The path of an overshoot goes through the overshoot point. *)
Lemma path_through_overshoot (pos target : ipoint) (r : move_draws) (path : list ipoint) :
  _catmull_rom_spline (_generate_control_points pos target true r)
    (num_points_of pos target) = Ok path ->
  exists k : nat,
    nth_error path k
    = Some (int_point (overshoot_point target (IZR (fst target - fst pos))
                         (IZR (snd target - snd pos)) r)).
Proof.
  intros Hs.
  destruct (control_points_shape pos target true r) as (q & rest & Hc & Hlen & _ & _).
  pose proof (nth_overshoot pos target r) as Hov.
  pose proof (segments_le_samples pos target true) as Hseg.
  rewrite Hc in Hs, Hov.
  exists ((num_controls_of pos target + 1)
          * Z.to_nat (num_points_of pos target / Z.of_nat (S (List.length rest))))%nat.
  rewrite (spline_through_controls (as_point pos) q rest (num_points_of pos target)
             path (num_controls_of pos target + 1));
    [rewrite Hov; reflexivity | rewrite Hlen; cbn in Hseg; lia | exact Hs
    | rewrite Hlen; lia].
Qed.

End PointerClaims.

Section PointerClaimEntries.

Import AdvancedMouseSimulator.
Local Open Scope R_scope.

(** C1, as the code has it.  On a route of 5 or more the path that the
    spline gives has the start for its first sample and the target for its
    last one.  The tremor is added to every sample, the first and the last
    included: what is sent for a sample lies within 3 of it on each axis,
    so the last sample sent, where the pointer ends, lies within 3 of the
    target. *)
Theorem path_reaches_target_and_every_sample_trembles :
  forall (b : HumanBehavior.t) (pos target : ipoint) (allow ov : bool)
         (r1 r2 : move_draws),
    ~ distance_to pos target < 5 ->
    overshoot_decision b (distance_to pos target) allow r1 = Ok ov ->
    exists (path sent : list ipoint),
      _catmull_rom_spline (_generate_control_points pos target ov r1)
        (num_points_of pos target) = Ok path /\
      hd pos path = pos /\ last path pos = target /\
      sent = emit_from (time_u r1 * 1000) 0 path /\
      move_to b pos target allow r1 r2 = Ok ([sent], last sent pos) /\
      (forall (k : nat) (p : ipoint),
          nth_error path k = Some p ->
          nth_error sent k = Some (emit_sample (time_u r1 * 1000) k p) /\
          (Z.abs (fst (emit_sample (time_u r1 * 1000) k p) - fst p) <= 3)%Z /\
          (Z.abs (snd (emit_sample (time_u r1 * 1000) k p) - snd p) <= 3)%Z) /\
      last sent pos = emit_sample (time_u r1 * 1000) (List.length path - 1) target /\
      (Z.abs (fst (last sent pos) - fst target) <= 3)%Z /\
      (Z.abs (snd (last sent pos) - snd target) <= 3)%Z.
Proof.
  intros b pos target allow ov r1 r2 Hfar Hd.
  destruct (move_to_one_trajectory_holds b pos target allow ov r1 r2 Hfar Hd)
    as (path & sent & Hs & Hhd & Hlast & Hsent & _ & Hmove & Hend & Hx & Hy).
  exists path, sent. repeat split; try assumption.
  - rewrite Hsent. now apply (emit_from_nth _ path 0 k p).
  - apply emit_sample_near.
  - apply emit_sample_near.
Qed.

(** C7, as the code has it.  On a route longer than 50, when the mistake is
    rolled, [move_to] generates one trajectory and no second one: its
    control polygon has the overshoot point, 5 to 25 beyond the target on
    the line from the start, just before the target, so its path goes
    through the overshoot point and ends at the target; the samples are
    sent with their tremor and the pointer ends within 3 of the target on
    each axis; from there the correcting call, the overshoot disabled, finds
    a route shorter than 5 and returns before it generates anything. *)
Theorem overshoot_is_one_trajectory_through_the_overshoot_point :
  forall (b : HumanBehavior.t) (pos target : ipoint) (r1 r2 : move_draws),
    50 < distance_to pos target ->
    HumanBehavior.should_make_mistake b (mistake_roll r1) = Ok true ->
    unit_drawR (overshoot_u r1) ->
    let dx := IZR (fst target - fst pos) in
    let dy := IZR (snd target - snd pos) in
    let d := distance_to pos target in
    let od := uniformR 5 25 (overshoot_u r1) in
    let beyond := (IZR (fst target) + dx / d * od, IZR (snd target) + dy / d * od) in
    exists (path sent : list ipoint) (k : nat),
      5 <= od <= 25 /\
      overshoot_point target dx dy r1 = beyond /\
      _catmull_rom_spline (_generate_control_points pos target true r1)
        (num_points_of pos target) = Ok path /\
      nth_error path k = Some (int_point beyond) /\
      last path pos = target /\
      sent = emit_from (time_u r1 * 1000) 0 path /\
      move_to b pos target true r1 r2 = Ok ([sent], last sent pos) /\
      (Z.abs (fst (last sent pos) - fst target) <= 3)%Z /\
      (Z.abs (snd (last sent pos) - snd target) <= 3)%Z /\
      move_leg b (last sent pos) target false r2 = Ok None.
Proof.
  intros b pos target r1 r2 Hlong Hm Hu dx dy d od beyond.
  assert (Hfar : ~ distance_to pos target < 5) by lra.
  assert (Hd : overshoot_decision b (distance_to pos target) true r1 = Ok true).
  { rewrite (decision_rolls b _ r1 true Hm).
    destruct (Rlt_dec 50 (distance_to pos target)) as [_|N]; [reflexivity | now elim N]. }
  destruct (move_to_one_trajectory_holds b pos target true true r1 r2 Hfar Hd)
    as (path & sent & Hs & _ & Hlast & Hsent & _ & Hmove & _ & Hx & Hy).
  destruct (path_through_overshoot pos target r1 path Hs) as (k & Hk).
  assert (Hray : overshoot_point target dx dy r1 = beyond).
  { apply overshoot_point_on_ray. fold d. unfold d. lra. }
  exists path, sent, k.
  split; [apply uniformR_within; [lra | exact Hu]|].
  split; [exact Hray|]. split; [exact Hs|].
  split; [fold dx dy in Hk; rewrite Hray in Hk; exact Hk|].
  split; [exact Hlast|]. split; [exact Hsent|]. split; [exact Hmove|].
  split; [exact Hx|]. split; [exact Hy|].
  apply move_leg_short. now apply near_is_short.
Qed.

(** C8, as the code has it.  On a route shorter than 5 [move_to] returns
    before it generates anything: there is no path, no sample is sent, the
    pointer stays where it is, and nothing is raised, the personality not
    being read. *)
Theorem short_route_generates_nothing :
  forall (b : HumanBehavior.t) (pos target : ipoint) (allow : bool)
         (r1 r2 : move_draws),
    distance_to pos target < 5 ->
    move_leg b pos target allow r1 = Ok None /\
    move_to b pos target allow r1 r2 = Ok ([], pos).
Proof.
  intros b pos target allow r1 r2 H. split.
  - now apply move_leg_short.
  - now apply move_to_short_route_holds.
Qed.

End PointerClaimEntries.

Lemma path_reaches_target_and_every_sample_trembles_witness :
  (~ AdvancedMouseSimulator.distance_to (0, 0)%Z (100, 0)%Z < 5)%R /\
  exists path sent : list ipoint,
    AdvancedMouseSimulator.move_to blank_behavior (0, 0)%Z (100, 0)%Z false
      shaky_draws still_draws
    = Ok ([sent], last sent (0, 0)%Z) /\
    hd (0, 0)%Z path = (0, 0)%Z /\ last path (0, 0)%Z = (100, 0)%Z /\
    (Z.abs (fst (last sent (0, 0)%Z) - 100) <= 3)%Z.
Proof.
  assert (H : (~ AdvancedMouseSimulator.distance_to (0, 0)%Z (100, 0)%Z < 5)%R).
  { apply far_is_long. cbn. lia. }
  split; [exact H|].
  destruct (path_reaches_target_and_every_sample_trembles blank_behavior
              (0, 0)%Z (100, 0)%Z false false shaky_draws still_draws H eq_refl)
    as (path & sent & _ & Hhd & Hlast & _ & Hmove & _ & _ & Hx & _).
  exists path, sent. split; [exact Hmove|]. split; [exact Hhd|].
  split; [exact Hlast | exact Hx].
Defined.

(** C1 as stated fails: on the route from (0, 0) to (100, 0), with a time
    offset of 0.95, the last sample is sent with a tremor of -2 on each axis
    and the pointer ends at (98, -2), not at the target. *)
Lemma tremor_moves_the_last_sample :
  (~ AdvancedMouseSimulator.distance_to (0, 0)%Z (100, 0)%Z < 5)%R /\
  exists sent : list ipoint,
    AdvancedMouseSimulator.move_to blank_behavior (0, 0)%Z (100, 0)%Z false
      shaky_draws still_draws
    = Ok ([sent], (98, -2)%Z) /\
    last sent (0, 0)%Z = (98, -2)%Z /\
    last sent (0, 0)%Z <> (100, 0)%Z.
Proof.
  split; [apply far_is_long; cbn; lia|].
  destruct shaky_move as (sent & Hmove & Hlast).
  exists sent. split; [exact Hmove|]. split; [exact Hlast|].
  rewrite Hlast. discriminate.
Qed.

Lemma some_mistake :
  HumanBehavior.should_make_mistake (HumanBehavior.__init__ 0 some_draws)
    (AdvancedMouseSimulator.mistake_roll still_draws) = Ok true.
Proof. reflexivity. Qed.

Lemma overshoot_is_one_trajectory_through_the_overshoot_point_witness :
  (50 < AdvancedMouseSimulator.distance_to (0, 0)%Z (100, 0)%Z)%R /\
  exists (path sent : list ipoint),
    AdvancedMouseSimulator.move_to (HumanBehavior.__init__ 0 some_draws)
      (0, 0)%Z (100, 0)%Z true still_draws still_draws
    = Ok ([sent], last sent (0, 0)%Z) /\
    last path (0, 0)%Z = (100, 0)%Z /\
    AdvancedMouseSimulator.move_leg (HumanBehavior.__init__ 0 some_draws)
      (last sent (0, 0)%Z) (100, 0)%Z false still_draws = Ok None.
Proof.
  assert (H : (50 < AdvancedMouseSimulator.distance_to (0, 0)%Z (100, 0)%Z)%R).
  { apply long_route. cbn. lia. }
  split; [exact H|].
  destruct (overshoot_is_one_trajectory_through_the_overshoot_point
              (HumanBehavior.__init__ 0 some_draws) (0, 0)%Z (100, 0)%Z
              still_draws still_draws H some_mistake)
    as (path & sent & k & _ & _ & _ & _ & Hlast & _ & Hmove & _ & _ & Hleg).
  - unfold unit_drawR. cbn. lra.
  - exists path, sent. split; [exact Hmove|]. split; [exact Hlast | exact Hleg].
Defined.

(** C7 as stated fails: on the route from (0, 0) to (100, 0), the mistake
    being rolled, [move_to] sends one trajectory, not two. *)
Lemma overshoot_sends_one_trajectory :
  (50 < AdvancedMouseSimulator.distance_to (0, 0)%Z (100, 0)%Z)%R /\
  HumanBehavior.should_make_mistake (HumanBehavior.__init__ 0 some_draws)
    (AdvancedMouseSimulator.mistake_roll still_draws) = Ok true /\
  exists (legs : list (list ipoint)) (pos' : ipoint),
    AdvancedMouseSimulator.move_to (HumanBehavior.__init__ 0 some_draws)
      (0, 0)%Z (100, 0)%Z true still_draws still_draws = Ok (legs, pos') /\
    List.length legs = 1%nat.
Proof.
  assert (H : (50 < AdvancedMouseSimulator.distance_to (0, 0)%Z (100, 0)%Z)%R).
  { apply long_route. cbn. lia. }
  split; [exact H|]. split; [exact some_mistake|].
  assert (Hfar : (~ AdvancedMouseSimulator.distance_to (0, 0)%Z (100, 0)%Z < 5)%R) by lra.
  assert (Hd : overshoot_decision (HumanBehavior.__init__ 0 some_draws)
                 (AdvancedMouseSimulator.distance_to (0, 0)%Z (100, 0)%Z) true
                 still_draws = Ok true).
  { rewrite (decision_rolls _ _ still_draws true some_mistake).
    destruct (Rlt_dec 50 _) as [_|N]; [reflexivity | now elim N]. }
  destruct (move_to_one_trajectory_holds (HumanBehavior.__init__ 0 some_draws)
              (0, 0)%Z (100, 0)%Z true true still_draws still_draws Hfar Hd)
    as (path & sent & _ & _ & _ & _ & _ & Hmove & _).
  exists [sent], (last sent (0, 0)%Z). split; [exact Hmove | reflexivity].
Qed.

Lemma short_route_generates_nothing_witness :
  (AdvancedMouseSimulator.distance_to (10, 10)%Z (12, 7)%Z < 5)%R /\
  AdvancedMouseSimulator.move_leg (HumanBehavior.__init__ 0 some_draws)
    (10, 10)%Z (12, 7)%Z true still_draws = Ok None /\
  AdvancedMouseSimulator.move_to (HumanBehavior.__init__ 0 some_draws)
    (10, 10)%Z (12, 7)%Z true still_draws still_draws
  = Ok ([], (10, 10)%Z).
Proof.
  assert (H : (AdvancedMouseSimulator.distance_to (10, 10)%Z (12, 7)%Z < 5)%R).
  { apply near_is_short; cbn; lia. }
  split; [exact H|].
  exact (short_route_generates_nothing _ _ _ true still_draws still_draws H).
Defined.

(** C8 as stated fails: on the route from (10, 10) to (12, 7), shorter than
    5, no path of one sample is returned: nothing is generated and nothing
    is sent. *)
Lemma short_route_has_no_sample :
  (AdvancedMouseSimulator.distance_to (10, 10)%Z (12, 7)%Z < 5)%R /\
  AdvancedMouseSimulator.move_leg (HumanBehavior.__init__ 0 some_draws)
    (10, 10)%Z (12, 7)%Z true still_draws = Ok None /\
  ~ (exists (sample pos' : ipoint),
        AdvancedMouseSimulator.move_to (HumanBehavior.__init__ 0 some_draws)
          (10, 10)%Z (12, 7)%Z true still_draws still_draws
        = Ok ([[sample]], pos')).
Proof.
  assert (H : (AdvancedMouseSimulator.distance_to (10, 10)%Z (12, 7)%Z < 5)%R).
  { apply near_is_short; cbn; lia. }
  split; [exact H|]. split; [now apply move_leg_short|].
  intros (sample & pos' & Hmove).
  rewrite (move_to_short_route_holds _ _ _ true still_draws still_draws H) in Hmove.
  discriminate.
Qed.

Section WheelClaimEntries.

Import AdvancedScrollSimulator.
Local Open Scope R_scope.

(** C3, as the code has it.  With draws in the ranges of the code, the
    steps that a smooth scroll plans sum to the signed amount exactly; what it
    sends is each planned step plus its jitter, of 3 at most, then the
    inertia when it is drawn: the deltas sent sum to the signed amount plus
    the jitters plus the inertia, 75 away from the amount at most. *)
Theorem smooth_scroll_plan_is_exact_wheel_is_not :
  forall (direction : string) (amount : option Z) (r : scroll_draws),
    well_drawn r ->
    let signed := signed_amount direction amount r in
    let n := Z.to_nat (steps_draw r) in
    exists plan wheel : list Z,
      step_amounts signed (steps_draw r) = Ok plan /\
      sumZ plan = signed /\
      scroll direction amount true r = Ok wheel /\
      wheel = add_jitter r 0 plan
                ++ (if Rlt_dec (inertia_roll r) (3 / 10)
                    then [inertia_of signed r] else []) /\
      sumZ wheel
      = (signed + jitter_total r n
         + (if Rlt_dec (inertia_roll r) (3 / 10) then inertia_of signed r else 0))%Z /\
      (Z.abs (sumZ wheel - signed) <= 75)%Z.
Proof.
  intros direction amount r Hr signed n.
  assert (H3 : (3 <= steps_draw r)%Z) by (destruct Hr as (_ & H & _); lia).
  destruct (scroll_smooth_sum_holds direction amount r H3)
    as (plan & wheel & Hp & Hs & Hw & Hshape & Hsum).
  destruct (scroll_smooth_drift_holds direction amount r Hr) as (wheel' & Hw' & _ & Hd).
  rewrite Hw in Hw'. apply Ok_inj in Hw'. subst wheel'.
  exists plan, wheel. repeat split; assumption.
Qed.

End WheelClaimEntries.

Lemma plain_scroll_well_drawn : AdvancedScrollSimulator.well_drawn plain_scroll_draws.
Proof. unfold AdvancedScrollSimulator.well_drawn. cbn. repeat split; try lia; lra. Qed.

(** What [scroll('down', 200)] sends with the plain draws sums to 228. *)
Lemma plain_scroll_sum :
  exists wheel : list Z,
    AdvancedScrollSimulator.scroll "down" (Some 200%Z) true plain_scroll_draws
    = Ok wheel /\
    AdvancedScrollSimulator.sumZ wheel = 228%Z.
Proof.
  destruct (scroll_smooth_sum_holds "down" (Some 200%Z) plain_scroll_draws
              ltac:(cbn; lia))
    as (plan & wheel & _ & _ & Hw & _ & Hsum).
  exists wheel. split; [exact Hw|].
  rewrite Hsum. cbn [AdvancedScrollSimulator.inertia_roll plain_scroll_draws].
  destruct (Rlt_dec (1 / 10) (3 / 10)) as [_|N]; [reflexivity | exfalso; lra].
Qed.

Lemma smooth_scroll_plan_is_exact_wheel_is_not_witness :
  AdvancedScrollSimulator.well_drawn plain_scroll_draws /\
  exists plan wheel : list Z,
    AdvancedScrollSimulator.step_amounts 200 8 = Ok plan /\
    AdvancedScrollSimulator.sumZ plan = 200%Z /\
    AdvancedScrollSimulator.scroll "down" (Some 200%Z) true plain_scroll_draws
    = Ok wheel /\
    (Z.abs (AdvancedScrollSimulator.sumZ wheel - 200) <= 75)%Z.
Proof.
  split; [exact plain_scroll_well_drawn|].
  destruct (smooth_scroll_plan_is_exact_wheel_is_not "down" (Some 200%Z)
              plain_scroll_draws plain_scroll_well_drawn)
    as (plan & wheel & Hp & Hs & Hw & _ & _ & Hd).
  exists plan, wheel. split; [exact Hp|]. split; [exact Hs|].
  split; [exact Hw | exact Hd].
Defined.

(** C3 as stated fails: [scroll('down', 200)], smooth, with eight steps, a
    jitter of one on each and an inertia of twenty, sends deltas that sum
    to 228, not to 200. *)
Lemma smooth_scroll_sum_is_not_the_amount :
  exists wheel : list Z,
    AdvancedScrollSimulator.scroll "down" (Some 200%Z) true plain_scroll_draws
    = Ok wheel /\
    AdvancedScrollSimulator.sumZ wheel = 228%Z /\
    AdvancedScrollSimulator.sumZ wheel <> 200%Z.
Proof.
  destruct plain_scroll_sum as (wheel & Hw & Hsum).
  exists wheel. split; [exact Hw|]. split; [exact Hsum|].
  rewrite Hsum. discriminate.
Qed.
